(** * valkey-dict: the dictionary facade over a Valkey store

    A shallow embedding of [src/valkey_dict/core.py] (class [ValkeyDict]):
    key and value formatting, size validation, the TTL policy of the
    write commands, the [expire_at] and [pipeline] context managers and
    the prefix-keyed multi-key operations, together with the properties
    the specification states about them; then the enumeration, merging,
    bulk, chain and registration methods, with further properties of the
    class.

    Python objects are modelled by [PyValue], exceptions by [exn], the
    methods of the class by functions in a state-and-exception monad [M]
    over a [world]: the attributes of the instance, the contents of the
    store behind the connection and the round trips made so far. *)

From Stdlib Require Import ZArith Lia Bool Ascii String List.
From Stdlib Require Import Decimal DecimalString DecimalZ.
From stdpp Require Import base option list strings gmap.

Local Open Scope Z_scope.

(** ** Python strings *)

Module PyStr.

(** [len(s)] *)
Definition len (s : string) : Z := Z.of_nat (String.length s).

(** [s[n:]] for [0 <= n] *)
Fixpoint drop (n : nat) (s : string) : string :=
  match n, s with
  | O, _ => s
  | S _, EmptyString => EmptyString
  | S n', String _ s' => drop n' s'
  end.

(** [s[n:]] for an integer [n] that is not negative *)
Definition slice_from (n : Z) (s : string) : string := drop (Z.to_nat n) s.

(** [s.rfind(c)]: the highest index of [c] in [s], [-1] when absent *)
Fixpoint rfind (c : ascii) (s : string) : Z :=
  match s with
  | EmptyString => -1
  | String a s' =>
      let r := rfind c s' in
      if 0 <=? r then r + 1
      else if Ascii.eqb a c then 0 else -1
  end.

(** [s.split(c, 1)] when [c] occurs in [s]: the text before and after
    its first occurrence; [None] when [c] does not occur (the split
    then has a single element). *)
Fixpoint split_first (c : ascii) (s : string) : option (string * string) :=
  match s with
  | EmptyString => None
  | String a s' =>
      if Ascii.eqb a c then Some (EmptyString, s')
      else match split_first c s' with
           | Some (l, r) => Some (String a l, r)
           | None => None
           end
  end.

(** [str(n)] for an integer *)
Definition of_Z (z : Z) : string := NilEmpty.string_of_int (Z.to_int z).

(** [int(s)] on the decimal literals [str] produces: an optional minus
    sign and at least one digit; [None] stands for [ValueError]. *)
Definition to_Z (s : string) : option Z :=
  match NilEmpty.int_of_string s with
  | Some (Decimal.Pos Nil) | Some (Decimal.Neg Nil) | None => None
  | Some d => Some (Z.of_int d)
  end.

End PyStr.

(** ** Python values, exceptions and outcomes *)

(** The values the container is used with.  [VObj cls text size] is an
    instance of any other class (a list, a mapping, a user-defined
    class): the name of its class, its [str()] and, when the class has
    one, its [len()]. *)
Inductive PyValue :=
| VNone
| VBool (b : bool)
| VInt (z : Z)
| VStr (s : string)
| VObj (cls : string) (text : string) (size : option Z).

(** [type(value).__name__] *)
Definition type_name (v : PyValue) : string :=
  match v with
  | VNone => "NoneType"
  | VBool _ => "bool"
  | VInt _ => "int"
  | VStr _ => "str"
  | VObj cls _ _ => cls
  end.

(** [str(value)], as an f-string interpolates it *)
Definition py_str (v : PyValue) : string :=
  match v with
  | VNone => "None"
  | VBool true => "True"
  | VBool false => "False"
  | VInt z => PyStr.of_Z z
  | VStr s => s
  | VObj _ text _ => text
  end.

(** [len(value)]; [None] when the value has no length *)
Definition py_len (v : PyValue) : option Z :=
  match v with
  | VStr s => Some (PyStr.len s)
  | VObj _ _ size => size
  | _ => None
  end.

Inductive exn :=
| ValueError (msg : string)
| KeyError (arg : PyValue)
| TypeError (msg : string)
| AttributeError (msg : string)
| ResponseError (msg : string)
| UserError (msg : string).

Inductive outcome (A : Type) :=
| Ok (a : A)
| Raise (e : exn).
Arguments Ok {A} a.
Arguments Raise {A} e.

Definition is_ok {A} (r : outcome A) : bool :=
  match r with Ok _ => true | Raise _ => false end.

(** ** Expiration arguments *)

(** A [timedelta], by its length in microseconds. *)
Record timedelta := Timedelta { microseconds : Z }.

(** [int(td.total_seconds())]: whole seconds, rounded towards zero (the
    float [total_seconds()] is exact for the durations in use). *)
Definition total_seconds_int (td : timedelta) : Z :=
  Z.quot (microseconds td) 1000000.

(** [Union[int, timedelta]], the type of [expire] when it is not [None] *)
Inductive expire_t :=
| ExpInt (seconds : Z)
| ExpDelta (td : timedelta).

(** ** The store and its commands

    The store behind the connection is an external collaborator.  It is
    modelled as a finite map from keys to a payload and an optional TTL,
    with the commands the class uses.  Time does not pass, so a TTL is a
    number the store keeps.  The store answers every command; the
    error reply the class meets is the one to a [SET] whose [EX] is zero
    or less, which the store refuses.  An [EX] beyond what the store can
    keep (more than 2^63 milliseconds) and failures of the connection
    are not part of the model. *)

Module Store.

Inductive ttl_arg := NoTtl | EX (seconds : Z) | KEEPTTL.

Inductive command :=
| SET (key value : string) (nx get : bool) (ttl : ttl_arg)
| GET (key : string)
| GETDEL (key : string)
| DEL (keys : list string)
| EXISTS (key : string)
| MGET (keys : list string)
| TTL (key : string)
| SCAN (pattern : string) (count : option Z).

Inductive reply :=
| RNil
| ROk
| RStr (s : string)
| RInt (n : Z)
| RList (items : list (option string))
| RKeys (keys : list string)
| RPipeline
| RErr (msg : string).

Record entry := Entry { payload : string; ttl : option Z }.

Abbreviation store := (gmap string entry).

(** Glob matching as [SCAN ... MATCH] applies it, for patterns made of
    literal characters, [?] and [*]. *)
Fixpoint glob (p : string) : string → bool :=
  match p with
  | EmptyString => fun s => match s with EmptyString => true | _ => false end
  | String c p' =>
      if Ascii.eqb c "*" then
        fix star (s : string) : bool :=
          glob p' s || match s with
                       | EmptyString => false
                       | String _ s' => star s'
                       end
      else if Ascii.eqb c "?" then
        fun s => match s with EmptyString => false | String _ s' => glob p' s' end
      else
        fun s => match s with
                 | EmptyString => false
                 | String a s' => Ascii.eqb a c && glob p' s'
                 end
  end.

Definition value_reply (o : option entry) : reply :=
  match o with
  | Some e => RStr (payload e)
  | None => RNil
  end.

(** [DEL]: removes the keys one after the other and counts those that
    were there. *)
Fixpoint del_keys (keys : list string) (st : store) : store * Z :=
  match keys with
  | [] => (st, 0)
  | k :: rest =>
      match st !! k with
      | Some _ => let '(st', n) := del_keys rest (delete k st) in (st', n + 1)
      | None => del_keys rest st
      end
  end.

(** The keys a scan enumerates: those of the store that match. *)
Definition scan_keys (pattern : string) (st : store) : list string :=
  List.filter (glob pattern) (map fst (map_to_list st)).

(** The message of the error reply to a [SET] whose [EX] is not
    positive. *)
Definition invalid_expire : string := "invalid expire time in 'set' command".

(** The commands the store refuses: a [SET] with an [EX] of zero or
    less.  The expire time is checked before anything else is looked
    at. *)
Definition refuses (c : command) : bool :=
  match c with
  | SET _ _ _ _ (EX n) => n <=? 0
  | _ => false
  end.

(** What the store does with one command, and what it answers.  A
    command it refuses changes nothing. *)
Definition apply (c : command) (st : store) : store * reply :=
  match c with
  | SET k v nx get t =>
      let old := st !! k in
      if refuses (SET k v nx get t) then (st, RErr invalid_expire)
      else if nx && bool_decide (is_Some old) then
        (st, if get then value_reply old else RNil)
      else
        let new_ttl := match t with
                       | NoTtl => None
                       | EX n => Some n
                       | KEEPTTL => old ≫= ttl
                       end in
        (<[k := Entry v new_ttl]> st, if get then value_reply old else ROk)
  | GET k => (st, value_reply (st !! k))
  | GETDEL k => (delete k st, value_reply (st !! k))
  | DEL keys => let '(st', n) := del_keys keys st in (st', RInt n)
  | EXISTS k => (st, RInt (if bool_decide (is_Some (st !! k)) then 1 else 0))
  | MGET keys => (st, RList (map (fun k => payload <$> st !! k) keys))
  | TTL k =>
      (st, RInt match st !! k with
                | None => -2
                | Some e => match ttl e with None => -1 | Some n => n end
                end)
  | SCAN pattern _ => (st, RKeys (scan_keys pattern st))
  end.

(** A batch is applied in order; the replies come back together.  A
    command that is refused does not stop the ones after it. *)
Fixpoint apply_all (cs : list command) (st : store) : store * list reply :=
  match cs with
  | [] => (st, [])
  | c :: rest =>
      let '(st1, r) := apply c st in
      let '(st2, rs) := apply_all rest st1 in
      (st2, r :: rs)
  end.

End Store.

(** ** The client library

    The calls the class makes on its connection, and the command each of
    them puts on the wire. *)

Module Client.
Import Store.

(** The seconds an [ex=] argument is sent as. *)
Definition ex_seconds (e : expire_t) : Z :=
  match e with
  | ExpInt n => n
  | ExpDelta td => total_seconds_int td
  end.

(** [set(name, value, ex=ex)]: [EX] is left out when [ex] is [None]. *)
Definition set_ex (name value : string) (ex : option expire_t) : command :=
  SET name value false false
      match ex with
      | None => NoTtl
      | Some e => EX (ex_seconds e)
      end.

(** [set(name, value, keepttl=True)] *)
Definition set_keepttl (name value : string) : command :=
  SET name value false false KEEPTTL.

(** The options that may follow [SET key value] in a raw command. *)
Fixpoint parse_set_options (opts : list string) (nx get : bool) (t : ttl_arg)
  : option (bool * bool * ttl_arg) :=
  match opts with
  | [] => Some (nx, get, t)
  | o :: rest =>
      if String.eqb o "NX" then parse_set_options rest true get t
      else if String.eqb o "GET" then parse_set_options rest nx true t
      else if String.eqb o "KEEPTTL" then parse_set_options rest nx get KEEPTTL
      else if String.eqb o "EX" then
        match rest with
        | n :: rest' =>
            match PyStr.to_Z n with
            | Some z => parse_set_options rest' nx get (EX z)
            | None => None
            end
        | [] => None
        end
      else None
  end.

(** [execute_command]: the command its raw arguments spell, for the two
    raw commands the class issues. *)
Definition parse_command (args : list string) : option command :=
  match args with
  | name :: key :: rest =>
      if String.eqb name "GETDEL" then
        match rest with [] => Some (GETDEL key) | _ => None end
      else if String.eqb name "SET" then
        match rest with
        | value :: opts =>
            match parse_set_options opts false false NoTtl with
            | Some (nx, get, t) => Some (SET key value nx get t)
            | None => None
            end
        | [] => None
        end
      else None
  | _ => None
  end.

(** Truth value of a reply, as [if reply:] tests it. *)
Definition truthy (r : reply) : bool :=
  match r with
  | RNil => false
  | ROk => true
  | RStr s => negb (String.eqb s "")
  | RInt n => negb (n =? 0)
  | RList items => negb (bool_decide (items = []))
  | RKeys keys => negb (bool_decide (keys = []))
  | RPipeline => true
  | RErr _ => true
  end.

(** What a call on the connection gives for a reply: an error reply is
    raised as [ResponseError]. *)
Definition parse_response (r : reply) : outcome reply :=
  match r with
  | RErr msg => Raise (ResponseError msg)
  | _ => Ok r
  end.

(** The message of the first error reply of a batch. *)
Fixpoint first_error (rs : list reply) : option string :=
  match rs with
  | [] => None
  | RErr msg :: _ => Some msg
  | _ :: rest => first_error rest
  end.

(** What [execute()] gives for the replies of a batch: the replies, or
    [ResponseError] for the first error reply among them.  The client
    puts the position and the text of the command before the message of
    the store; only the message of the store is kept here, and the
    properties of batches below do not say what the message is. *)
Definition raise_first_error (rs : list reply) : outcome (list reply) :=
  match first_error rs with
  | Some msg => Raise (ResponseError msg)
  | None => Ok rs
  end.

End Client.

(** ** The instance and the world around it *)

(** What [self.valkey] can refer to: the live connection, or a pipeline
    with the commands queued on it so far. *)
Inductive handle :=
| Live
| Pipe (queue : list Store.command).

(** The attributes of an instance the methods below read or write.
    [get_valkey] is bound to the live connection once and for all and
    needs no field. *)
Record ValkeyDict := mkValkeyDict {
  namespace : string;
  expire : option expire_t;
  preserve_expiration : bool;
  raise_key_error_delete : bool;
  valkey : option handle;
  _temp_valkey : option handle;
  _max_string_size : Z;
  _batch_size : Z
}.

(** [ValkeyDict.__init__] *)
Definition init (namespace : string) (expire : option expire_t)
    (preserve_expiration raise_key_error_delete : bool) : ValkeyDict :=
  {| namespace := namespace;
     expire := expire;
     preserve_expiration := preserve_expiration;
     raise_key_error_delete := raise_key_error_delete;
     valkey := Some Live;
     _temp_valkey := None;
     _max_string_size := 500 * 1024 * 1024;
     _batch_size := 200 |}.

(** [self.expire = e] *)
Definition with_expire (e : option expire_t) (d : ValkeyDict) : ValkeyDict :=
  {| namespace := namespace d;
     expire := e;
     preserve_expiration := preserve_expiration d;
     raise_key_error_delete := raise_key_error_delete d;
     valkey := valkey d;
     _temp_valkey := _temp_valkey d;
     _max_string_size := _max_string_size d;
     _batch_size := _batch_size d |}.

(** [self.valkey, self._temp_valkey = v, t] *)
Definition with_handles (v t : option handle) (d : ValkeyDict) : ValkeyDict :=
  {| namespace := namespace d;
     expire := expire d;
     preserve_expiration := preserve_expiration d;
     raise_key_error_delete := raise_key_error_delete d;
     valkey := v;
     _temp_valkey := t;
     _max_string_size := _max_string_size d;
     _batch_size := _batch_size d |}.

(** [self._max_string_size = n] *)
Definition with_max_string_size (n : Z) (d : ValkeyDict) : ValkeyDict :=
  {| namespace := namespace d;
     expire := expire d;
     preserve_expiration := preserve_expiration d;
     raise_key_error_delete := raise_key_error_delete d;
     valkey := valkey d;
     _temp_valkey := _temp_valkey d;
     _max_string_size := n;
     _batch_size := _batch_size d |}.

(** One exchange with the store: a single command, or the batch a
    pipeline sends by [execute()]. *)
Inductive round_trip :=
| Single (c : Store.command)
| Batch (cs : list Store.command).

(** The instance, the contents of the store, and the exchanges made
    with it so far. *)
Record world := World {
  self : ValkeyDict;
  server : Store.store;
  trips : list round_trip
}.

(** The batches among the round trips. *)
Definition flushes (ts : list round_trip) : list (list Store.command) :=
  omap (fun t => match t with Batch cs => Some cs | Single _ => None end) ts.

(** ** The monad of the methods *)

Definition M (A : Type) : Type := world → world * outcome A.

Definition ret {A} (a : A) : M A := fun w => (w, Ok a).

Definition raise {A} (e : exn) : M A := fun w => (w, Raise e).

Definition bind {A B} (m : M A) (k : A → M B) : M B :=
  fun w =>
    match m w with
    | (w', Ok a) => k a w'
    | (w', Raise e) => (w', Raise e)
    end.

Notation "'let*' x ':=' m 'in' k" := (bind m (fun x => k))
  (at level 10, x pattern, m at level 100, k at level 200).

Definition lift {A} (r : outcome A) : M A := fun w => (w, r).

Definition get_self : M ValkeyDict := fun w => (w, Ok (self w)).

Definition put_self (d : ValkeyDict) : M unit :=
  fun w => (World d (server w) (trips w), Ok tt).

(** [try: body finally: handler]: the handler always runs; the outcome is
    that of the body unless the handler itself raises. *)
Definition try_finally {A} (body : M A) (handler : M unit) : M A :=
  fun w =>
    let '(w1, r) := body w in
    match handler w1 with
    | (w2, Ok _) => (w2, r)
    | (w2, Raise e) => (w2, Raise e)
    end.

(** [try: body except Exception: handler] *)
Definition try_except {A} (body : M A) (handler : exn → M A) : M A :=
  fun w =>
    match body w with
    | (w1, Ok a) => (w1, Ok a)
    | (w1, Raise e) => handler e w1
    end.

(** [results = [f(x) for x in l]], stopping at the first exception *)
Fixpoint map_result {A B} (f : A → outcome B) (l : list A) : outcome (list B) :=
  match l with
  | [] => Ok []
  | x :: rest =>
      match f x with
      | Raise e => Raise e
      | Ok y => match map_result f rest with
                | Raise e => Raise e
                | Ok ys => Ok (y :: ys)
                end
      end
  end.

(** A command over the live connection: one round trip; an error reply
    is raised. *)
Definition live (c : Store.command) : M Store.reply :=
  fun w =>
    let '(st, r) := Store.apply c (server w) in
    (World (self w) st (trips w ++ [Single c]), Client.parse_response r).

(** [self.get_valkey.<command>(...)]: [get_valkey] is bound to the live
    connection by [__init__] and never rebound. *)
Definition get_valkey (c : Store.command) : M Store.reply := live c.

(** [self.get_valkey.execute_command] on a list of raw arguments *)
Definition get_valkey_execute_command (args : list string) : M Store.reply :=
  match Client.parse_command args with
  | Some c => live c
  | None => raise (ResponseError "unknown command or syntax error")
  end.

(** [self.valkey.<command>(...)]: sent at once over the live connection,
    or queued when [self.valkey] is a pipeline, which then returns
    itself. *)
Definition via_valkey (c : Store.command) : M Store.reply :=
  let* d := get_self in
  match valkey d with
  | Some Live => live c
  | Some (Pipe queue) =>
      let* _ := put_self (with_handles (Some (Pipe (queue ++ [c]))) (_temp_valkey d) d) in
      ret Store.RPipeline
  | None => raise (AttributeError "'NoneType' object has no such attribute")
  end.

(** [self.valkey.pipeline()] *)
Definition client_pipeline (h : option handle) : outcome handle :=
  match h with
  | Some _ => Ok (Pipe [])
  | None => Raise (AttributeError "'NoneType' object has no attribute 'pipeline'")
  end.

(** [self.valkey.execute()]: the queued commands go out as one batch and
    the pipeline is left empty, whatever comes back; an error reply in
    the batch is raised once all the replies are in. *)
Definition valkey_execute : M (list Store.reply) :=
  fun w =>
    match valkey (self w) with
    | Some (Pipe queue) =>
        let '(st, rs) := Store.apply_all queue (server w) in
        (World (with_handles (Some (Pipe [])) (_temp_valkey (self w)) (self w))
               st (trips w ++ [Batch queue]), Client.raise_first_error rs)
    | _ => (w, Raise (AttributeError "object has no attribute 'execute'"))
    end.

(** ** The type registries

    [encoding_registry] and [decoding_registry] are attributes of the
    class, bound to the two tables of the module [type_management], which
    also supplies [_default_decoder].  The methods below take them as a
    parameter. *)

Record registry := Registry {
  encoding_registry : gmap string (PyValue → string);
  decoding_registry : gmap string (string → outcome PyValue);
  _default_decoder : string → outcome PyValue
}.

(** ** The methods of [ValkeyDict] *)

Definition size_error : exn :=
  ValueError "Invalid input value or key size exceeded the maximum limit.".

(** [dict(pairs)]: a later pair replaces an earlier one with the same key. *)
Definition py_dict (pairs : list (string * PyValue)) : gmap string PyValue :=
  fold_left (fun m kv => <[kv.1 := kv.2]> m) pairs ∅.

Section Methods.

Context (R : registry).

Definition _format_key (d : ValkeyDict) (key : PyValue) : string :=
  namespace d +:+ ":" +:+ py_str key.

Definition _parse_key (d : ValkeyDict) (key : string) : string :=
  PyStr.slice_from (PyStr.len (namespace d) + 1) key.

Definition _valid_input (d : ValkeyDict) (value : PyValue) : outcome bool :=
  let store_type := type_name value in
  if String.eqb store_type "str" then
    match py_len value with
    | Some n => Ok (n <? _max_string_size d)
    | None => Raise (TypeError "object has no len()")
    end
  else Ok true.

Definition _format_value (value : PyValue) : string :=
  let store_type := type_name value in
  let encoded_value :=
    match encoding_registry R !! store_type with
    | Some encode => encode value
    | None => py_str value
    end in
  store_type +:+ ":" +:+ encoded_value.

Definition _store_set (formatted_key formatted_value : string) : M unit :=
  let* d := get_self in
  let* keep :=
    (if preserve_expiration d then
       let* n := get_valkey (Store.EXISTS formatted_key) in
       ret (Client.truthy n)
     else ret false) in
  if keep then
    let* _ := via_valkey (Client.set_keepttl formatted_key formatted_value) in
    ret tt
  else
    let* _ := via_valkey (Client.set_ex formatted_key formatted_value (expire d)) in
    ret tt.

Definition _store (key value : PyValue) : M unit :=
  let* d := get_self in
  let* valid_value := lift (_valid_input d value) in
  let* invalid :=
    (if negb valid_value then ret true
     else let* valid_key := lift (_valid_input d key) in
          ret (negb valid_key)) in
  if invalid then raise size_error
  else
    let formatted_key := _format_key d key in
    let formatted_value := _format_value value in
    _store_set formatted_key formatted_value.

Definition _transform (result : string) : outcome PyValue :=
  match PyStr.split_first ":" result with
  | Some (type_, value) =>
      match decoding_registry R !! type_ with
      | Some decode => decode value
      | None => _default_decoder R value
      end
  | None => Raise (ValueError "not enough values to unpack (expected 2, got 1)")
  end.

Definition _load (key : PyValue) : M (bool * PyValue) :=
  let* d := get_self in
  let* result := get_valkey (Store.GET (_format_key d key)) in
  match result with
  | Store.RNil => ret (false, VNone)
  | Store.RStr s =>
      let* value := lift (_transform s) in
      ret (true, value)
  | _ => raise (TypeError "unexpected reply")
  end.

Definition __getitem__ (item : PyValue) : M PyValue :=
  let* (found, value) := _load item in
  if negb found then raise (KeyError item) else ret value.

Definition __setitem__ (key value : PyValue) : M unit := _store key value.

Definition __delitem__ (key : PyValue) : M unit :=
  let* d := get_self in
  let formatted_key := _format_key d key in
  let* result := via_valkey (Store.DEL [formatted_key]) in
  if raise_key_error_delete d && negb (Client.truthy result)
  then raise (KeyError key)
  else ret tt.

Definition __contains__ (key : PyValue) : M bool :=
  let* (found, _) := _load key in
  ret found.

Definition _create_iter_query (d : ValkeyDict) (search_term : string) : string :=
  namespace d +:+ ":" +:+ search_term +:+ "*".

Definition _scan_keys (search_term : string) (full_scan : bool) : M (list string) :=
  let* d := get_self in
  let search_query := _create_iter_query d search_term in
  let count := if full_scan then None else Some (_batch_size d) in
  let* r := get_valkey (Store.SCAN search_query count) in
  match r with
  | Store.RKeys keys => ret keys
  | _ => raise (TypeError "unexpected reply")
  end.

Definition get (key : PyValue) (default : PyValue) : M PyValue :=
  let* (found, item) := _load key in
  if negb found then ret default else ret item.

Definition _pop (formatted_key : string) : M Store.reply :=
  get_valkey_execute_command ["GETDEL"; formatted_key].

(** [default] is [None] here when the caller passes none (the sentinel). *)
Definition pop (key : PyValue) (default : option PyValue) : M PyValue :=
  let* d := get_self in
  let formatted_key := _format_key d key in
  let* value := _pop formatted_key in
  match value with
  | Store.RNil =>
      match default with
      | Some dv => ret dv
      | None => raise (KeyError (VStr formatted_key))
      end
  | Store.RStr s => lift (_transform s)
  | _ => raise (TypeError "unexpected reply")
  end.

Definition _create_set_get_command (d : ValkeyDict)
    (formatted_key formatted_value : string)
  : list string * list (string * bool) :=
  let options := [("get", true)] in
  let args := ["SET"; formatted_key; formatted_value; "NX"; "GET"] in
  let args :=
    if preserve_expiration d then args ++ ["KEEPTTL"]
    else match expire d with
         | Some e =>
             let expire_val :=
               match e with
               | ExpDelta td => total_seconds_int td
               | ExpInt n => n
               end in
             let expire_str :=
               if expire_val <=? 1 then PyStr.of_Z 1 else PyStr.of_Z expire_val in
             args ++ ["EX"; expire_str]
         | None => args
         end in
  (args, options).

Definition setdefault (key default_value : PyValue) : M PyValue :=
  let* d := get_self in
  let formatted_key := _format_key d key in
  let formatted_value := _format_value default_value in
  let '(args, options) := _create_set_get_command d formatted_key formatted_value in
  let* result := get_valkey_execute_command args in
  match result with
  | Store.RNil => ret default_value
  | Store.RStr s => lift (_transform s)
  | _ => raise (TypeError "unexpected reply")
  end.

(** [with self.expire_at(sec_epoch): body].  The generator has no
    [try]: an exception of the body is raised at its [yield] and leaves
    it there. *)
Definition expire_at {A} (sec_epoch : expire_t) (body : M A) : M A :=
  let* d := get_self in
  let temp := expire d in
  let* _ := put_self (with_expire (Some sec_epoch) d) in
  let* a := body in
  let* d' := get_self in
  let* _ := put_self (with_expire temp d') in
  ret a.

(** [with self.pipeline(): body] *)
Definition pipeline {A} (body : M A) : M A :=
  let* d := get_self in
  let* top_level :=
    (match _temp_valkey d with
     | None =>
         let* p := lift (client_pipeline (valkey d)) in
         let* _ := put_self (with_handles (Some p) (valkey d) d) in
         ret true
     | Some _ => ret false
     end) in
  try_finally body
    (if top_level : bool then
       let* _ := valkey_execute in
       let* d' := get_self in
       put_self (with_handles (_temp_valkey d') None d')
     else ret tt).

Definition multi_get (key : string) : M (list PyValue) :=
  let* found_keys := _scan_keys key false in
  if bool_decide (length found_keys = 0%nat) then ret []
  else
    let* r := via_valkey (Store.MGET found_keys) in
    match r with
    | Store.RList items => lift (map_result _transform (omap id items))
    | _ => raise (TypeError "object is not iterable")
    end.

Definition multi_dict (key : string) : M (gmap string PyValue) :=
  let* keys := _scan_keys key false in
  match keys with
  | [] => ret ∅
  | first :: _ =>
      let to_rm := PyStr.rfind ":" first + 1 in
      let* r := via_valkey (Store.MGET keys) in
      match r with
      | Store.RList items =>
          let* values := lift (map_result _transform (omap id items)) in
          ret (py_dict (zip (map (PyStr.slice_from to_rm) keys) values))
      | _ => raise (TypeError "object is not iterable")
      end
  end.

Definition multi_del (key : string) : M Store.reply :=
  let* keys := _scan_keys key false in
  if bool_decide (length keys = 0%nat) then ret (Store.RInt 0)
  else via_valkey (Store.DEL keys).

Definition get_ttl (key : PyValue) : M (option Z) :=
  let* d := get_self in
  let* val := via_valkey (Store.TTL (_format_key d key)) in
  match val with
  | Store.RInt n => if n <? 0 then ret None else ret (Some n)
  | _ => raise (TypeError "'<' not supported")
  end.

End Methods.

(** ** Client code

    Statements a caller writes against an instance: item access, the
    scoped contexts, [raise] and [try].  [exec] runs them with the methods
    above. *)

Inductive prog :=
| Pass
| Seq (p q : prog)
| SetItem (key value : PyValue)
| DelItem (key : PyValue)
| GetItem (key : PyValue)
| SetDefault (key default_value : PyValue)
| PopItem (key : PyValue) (default : option PyValue)
| RaiseStmt (e : exn)
| TryExcept (body handler : prog)
| WithPipeline (body : prog)
| WithExpireAt (sec_epoch : expire_t) (body : prog).

Definition discard {A} (m : M A) : M unit :=
  let* _ := m in ret tt.

Fixpoint exec (R : registry) (p : prog) : M unit :=
  match p with
  | Pass => ret tt
  | Seq p q => let* _ := exec R p in exec R q
  | SetItem key value => __setitem__ R key value
  | DelItem key => __delitem__ key
  | GetItem key => discard (__getitem__ R key)
  | SetDefault key default_value => discard (setdefault R key default_value)
  | PopItem key default => discard (pop R key default)
  | RaiseStmt e => raise e
  | TryExcept body handler => try_except (exec R body) (fun _ => exec R handler)
  | WithPipeline body => pipeline (exec R body)
  | WithExpireAt sec_epoch body => expire_at sec_epoch (exec R body)
  end.

(** [update(dic)]: the items are stored inside one pipeline scope. *)
Definition update (R : registry) (dic : list (PyValue * PyValue)) : M unit :=
  pipeline
    (fold_right (fun kv rest => let* _ := __setitem__ R kv.1 kv.2 in rest)
                (ret tt) dic).

(** ** The built-in types *)

Module TypeManagement.

(** Modelled from the spec: the module [type_management] (the two
    registries and [_default_decoder]) is not among the sources.  The
    registries are pre-populated with the built-in types and decoding
    undoes encoding on them; encoding a built-in value is its string
    conversion, which is what [_format_value] does for a tag without an
    encoder.  This is the decoder of text: the payload itself. *)
Definition decode_str (payload : string) : outcome PyValue := Ok (VStr payload).

(** Modelled from the spec: the decoder of integers, undoing [str]. *)
Definition decode_int (payload : string) : outcome PyValue :=
  match PyStr.to_Z payload with
  | Some z => Ok (VInt z)
  | None => Raise (ValueError "invalid literal for int() with base 10")
  end.

(** Modelled from the spec: the decoder of booleans, undoing [str]. *)
Definition decode_bool (payload : string) : outcome PyValue :=
  Ok (VBool (String.eqb payload "True")).

(** Modelled from the spec: the decoder of null. *)
Definition decode_none (payload : string) : outcome PyValue := Ok VNone.

(** Modelled from the spec: the registries as the module sets them up,
    for text, integers, booleans and null.  No encoder is needed for
    these; a tag without a decoder never raises and yields the payload as
    text. *)
Definition builtin : registry :=
  {| encoding_registry := ∅;
     decoding_registry :=
       <["str" := decode_str]>
         (<["int" := decode_int]>
            (<["bool" := decode_bool]>
               (<["NoneType" := decode_none]> ∅)));
     _default_decoder := decode_str |}.

End TypeManagement.

(** A fresh instance over an empty store. *)
Definition new_world (d : ValkeyDict) : world := World d ∅ [].

(** ** Notions the properties are stated with *)

(** Whether the store holds the key. *)
Definition key_exists (w : world) (k : string) : bool :=
  bool_decide (is_Some (server w !! k)).

(** The TTL decision of a plain store in the words of the specification:
    keep the TTL when expiration is preserved and the key exists,
    otherwise [EX] with the configured [expire], left out when [expire]
    is none. *)
Definition spec_plain_store_ttl (d : ValkeyDict) (present : bool) : Store.ttl_arg :=
  if preserve_expiration d && present then Store.KEEPTTL
  else match expire d with
       | None => Store.NoTtl
       | Some e => Store.EX (Client.ex_seconds e)
       end.

(** The command a plain store of [k] and [v] issues in world [w]. *)
Definition plain_store_cmd (w : world) (k v : string) : Store.command :=
  Store.SET k v false false (spec_plain_store_ttl (self w) (key_exists w k)).

(** The existence probes a plain store makes first. *)
Definition plain_store_probes (w : world) (k : string) : list round_trip :=
  if preserve_expiration (self w) then [Single (Store.EXISTS k)] else [].

(** How a store ends once its command is on the live connection: with
    [ResponseError] when the store refuses the command. *)
Definition store_outcome (c : Store.command) : outcome unit :=
  if Store.refuses c then Raise (ResponseError Store.invalid_expire) else Ok tt.

(** The configured [expire] is one the store accepts in a [SET]: none,
    or a positive number of whole seconds. *)
Definition expire_accepted (d : ValkeyDict) : bool :=
  match expire d with
  | None => true
  | Some e => 0 <? Client.ex_seconds e
  end.

(** A computation is quiet when, run while [self.valkey] is a pipeline,
    it leaves that pipeline in place with at most more commands queued,
    leaves [_temp_valkey] alone and sends no batch. *)
Definition quiet {A} (m : M A) : Prop :=
  ∀ (w : world) (queue : list Store.command) (t : handle),
    valkey (self w) = Some (Pipe queue) →
    _temp_valkey (self w) = Some t →
    ∃ more,
      valkey (self (fst (m w))) = Some (Pipe (queue ++ more))
      ∧ _temp_valkey (self (fst (m w))) = Some t
      ∧ flushes (trips (fst (m w))) = flushes (trips w).

(** The instance as the body of an outermost scope finds it: a new
    pipeline in [valkey], the live connection put aside. *)
Definition entered (w : world) : world :=
  World (with_handles (Some (Pipe [])) (Some Live) (self w)) (server w) (trips w).

(** The TTL argument [_create_set_get_command] writes, read off its
    branches. *)
Definition setdefault_ttl (d : ValkeyDict) : Store.ttl_arg :=
  if preserve_expiration d then Store.KEEPTTL
  else match expire d with
       | None => Store.NoTtl
       | Some e => Store.EX (Z.max 1 (Client.ex_seconds e))
       end.

(** A TTL argument with its seconds raised to at least 1. *)
Definition clamp_ttl (t : Store.ttl_arg) : Store.ttl_arg :=
  match t with
  | Store.EX n => Store.EX (Z.max 1 n)
  | _ => t
  end.

(** The words a TTL argument is spelled with in a raw command. *)
Definition ttl_words (t : Store.ttl_arg) : list string :=
  match t with
  | Store.NoTtl => []
  | Store.EX n => ["EX"; PyStr.of_Z n]
  | Store.KEEPTTL => ["KEEPTTL"]
  end.

(** The TTL argument of a command, when it is a [SET]. *)
Definition ttl_of_command (c : Store.command) : option Store.ttl_arg :=
  match c with
  | Store.SET _ _ _ _ t => Some t
  | _ => None
  end.

(** The TTL argument of the command sent last. *)
Definition last_ttl (ts : list round_trip) : option Store.ttl_arg :=
  match last ts with
  | Some (Single c) => ttl_of_command c
  | _ => None
  end.

(** The one command a [setdefault] sends. *)
Definition setdefault_command (R : registry) (d : ValkeyDict)
    (key default_value : PyValue) : Store.command :=
  Store.SET (_format_key d key) (_format_value R default_value) true true
            (setdefault_ttl d).

(** No character of [s] is special in a glob pattern. *)
Fixpoint glob_free (s : string) : bool :=
  match s with
  | EmptyString => true
  | String c s' =>
      negb (Ascii.eqb c "*") && negb (Ascii.eqb c "?")
      && negb (Ascii.eqb c "[") && negb (Ascii.eqb c "\")
      && glob_free s'
  end.

(** What [multi_dict] builds from the keys a scan found and the store
    they are fetched from. *)
Definition multi_dict_of (R : registry) (st : Store.store) (keys : list string)
  : outcome (gmap string PyValue) :=
  match keys with
  | [] => Ok ∅
  | first :: _ =>
      let to_rm := PyStr.rfind ":" first + 1 in
      match map_result (_transform R)
              (omap id (map (fun k => Store.payload <$> st !! k) keys)) with
      | Ok values => Ok (py_dict (zip (map (PyStr.slice_from to_rm) keys) values))
      | Raise e => Raise e
      end
  end.

(** The scenario of the specification: three keys stored in a new
    container of namespace [ns]. *)
Definition scenario : prog :=
  Seq (SetItem (VStr "foobar") (VInt 1))
      (Seq (SetItem (VStr "foobaz") (VInt 2))
           (SetItem (VStr "goobar") (VInt 3))).

(** The world the scenario leaves. *)
Definition after_scenario (ns : string) : world :=
  fst (exec TypeManagement.builtin scenario (new_world (init ns None false false))).

(** ** Further methods of [ValkeyDict] *)

Section FurtherMethods.

Context (R : registry).

Definition __len__ : M Z :=
  let* found := _scan_keys "" true in
  ret (Z.of_nat (length found)).

(** The generator [keys()] returns, run to its end. *)
Definition keys : M (list string) :=
  let* d := get_self in
  let to_rm := PyStr.len (namespace d) + 1 in
  let* found := _scan_keys "" false in
  ret (map (PyStr.slice_from to_rm) found).

(** [except KeyError: pass] around a step that yields: a [KeyError]
    yields nothing, any other exception goes on. *)
Definition skip_key_error {A} (step : M (list A)) : M (list A) :=
  try_except step
    (fun e => match e with
              | KeyError _ => ret []
              | _ => raise e
              end).

(** The loop of [items()] over the keys the scan found. *)
Fixpoint items_loop (to_rm : Z) (found : list string) : M (list (string * PyValue)) :=
  match found with
  | [] => ret []
  | item :: rest =>
      let* here :=
        skip_key_error
          (let* value := __getitem__ R (VStr (PyStr.slice_from to_rm item)) in
           ret [(PyStr.slice_from to_rm item, value)]) in
      let* more := items_loop to_rm rest in
      ret (here ++ more)
  end.

(** The generator [items()] returns, run to its end. *)
Definition items : M (list (string * PyValue)) :=
  let* d := get_self in
  let to_rm := PyStr.len (namespace d) + 1 in
  let* found := _scan_keys "" false in
  items_loop to_rm found.

(** The loop of [values()] over the keys the scan found. *)
Fixpoint values_loop (to_rm : Z) (found : list string) : M (list PyValue) :=
  match found with
  | [] => ret []
  | item :: rest =>
      let* here :=
        skip_key_error
          (let* value := __getitem__ R (VStr (PyStr.slice_from to_rm item)) in
           ret [value]) in
      let* more := values_loop to_rm rest in
      ret (here ++ more)
  end.

(** The generator [values()] returns, run to its end. *)
Definition values : M (list PyValue) :=
  let* d := get_self in
  let to_rm := PyStr.len (namespace d) + 1 in
  let* found := _scan_keys "" false in
  values_loop to_rm found.

Definition to_dict : M (gmap string PyValue) :=
  let* pairs := items in
  ret (py_dict pairs).

Definition copy : M (gmap string PyValue) := to_dict.

(** The loop of [clear()]: each key found is deleted through
    [self.valkey]. *)
Fixpoint clear_loop (found : list string) : M unit :=
  match found with
  | [] => ret tt
  | key :: rest =>
      let* _ := via_valkey (Store.DEL [key]) in
      clear_loop rest
  end.

Definition clear : M unit :=
  pipeline (let* found := _scan_keys "" true in clear_loop found).

(** [fromkeys(iterable, value)]; the instance it returns is the one in
    the world. *)
Fixpoint fromkeys (iterable : list PyValue) (value : PyValue) : M unit :=
  match iterable with
  | [] => ret tt
  | key :: rest =>
      let* _ := __setitem__ R key value in
      fromkeys rest value
  end.

End FurtherMethods.

(** ** Chains of keys *)

(** [sep.join(parts)] *)
Fixpoint str_join (sep : string) (parts : list string) : string :=
  match parts with
  | [] => ""
  | part :: rest =>
      match rest with
      | [] => part
      | _ :: _ => part +:+ sep +:+ str_join sep rest
      end
  end.

Section Chains.

Context (R : registry).

Definition chain_set (iterable : list string) (v : PyValue) : M unit :=
  __setitem__ R (VStr (str_join ":" iterable)) v.

Definition chain_get (iterable : list string) : M PyValue :=
  __getitem__ R (VStr (str_join ":" iterable)).

Definition chain_del (iterable : list string) : M unit :=
  __delitem__ (VStr (str_join ":" iterable)).

Definition multi_chain_get (keys : list string) : M (list PyValue) :=
  multi_get R (str_join ":" keys).

End Chains.

(** ** Taking an arbitrary item *)

Section PopItem.

Context (R : registry).

(** [StrictRedis.scan(match=pattern, count=1)] makes one [SCAN] call and
    returns the keys of that one page.  Which keys these are is up to the
    store; [scan_page] gives them. *)
Context (scan_page : string → Store.store → list string).

(** [self.get_valkey.scan(match=pattern, count=1)] *)
Definition get_valkey_scan (pattern : string) : M (list string) :=
  fun w =>
    (World (self w) (server w) (trips w ++ [Single (Store.SCAN pattern (Some 1))]),
     Ok (scan_page pattern (server w))).

Definition key (search_term : string) : M (option string) :=
  let* d := get_self in
  let to_rm := PyStr.len (namespace d) + 1 in
  let search_query := _create_iter_query d search_term in
  let* data := get_valkey_scan search_query in
  match data with
  | item :: _ => ret (Some (PyStr.slice_from to_rm item))
  | [] => ret None
  end.

(** [popitem()], its [while True] unrolled at most [fuel] times; [None]
    is returned when the fuel runs out. *)
Fixpoint popitem (fuel : nat) : M (option (string * PyValue)) :=
  match fuel with
  | O => ret None
  | S fuel' =>
      let* found := key "" in
      match found with
      | None => raise (KeyError (VStr "popitem(): dictionary is empty"))
      | Some k =>
          try_except
            (let* value := pop R (VStr k) None in ret (Some (k, value)))
            (fun e => match e with
                      | KeyError _ => popitem fuel'
                      | _ => raise e
                      end)
      end
  end.

End PopItem.

(** ** Merging with a mapping *)

(** The other operand of [|]: a mapping with text keys, or any other
    value. *)
Inductive operand :=
| AMapping (pairs : list (string * PyValue))
| NotAMapping (v : PyValue).

(** [result.update(pairs)] *)
Definition dict_update (result : gmap string PyValue) (pairs : list (string * PyValue))
  : gmap string PyValue :=
  fold_left (fun m kv => <[kv.1 := kv.2]> m) pairs result.

Section Merge.

Context (R : registry).

Definition __or__ (other : operand) : M (gmap string PyValue) :=
  match other with
  | NotAMapping v =>
      raise (TypeError ("unsupported operand type(s) for |: '" +:+ type_name v
                        +:+ "' and 'ValkeyDict'"))
  | AMapping pairs =>
      let* own := to_dict R in
      let result := own ∪ ∅ in
      ret (dict_update result pairs)
  end.

Definition __ror__ (other : operand) : M (gmap string PyValue) :=
  match other with
  | NotAMapping v =>
      raise (TypeError ("unsupported operand type(s) for |: 'ValkeyDict' and '"
                        +:+ type_name v +:+ "'"))
  | AMapping pairs =>
      let result := dict_update ∅ pairs in
      let* own := to_dict R in
      ret (own ∪ result)
  end.

Definition __ior__ (other : operand) : M unit :=
  match other with
  | NotAMapping v =>
      raise (TypeError ("unsupported operand type(s) for |: '" +:+ type_name v
                        +:+ "' and 'ValkeyDict'"))
  | AMapping pairs =>
      update R (map (fun kv => (VStr kv.1, kv.2)) pairs)
  end.

End Merge.

(** ** Registering a type *)

(** A class, as [extends_type] looks at it: its name and the names of
    its attributes that are callable. *)
Record py_class := PyClass {
  class_name : string;
  callable_attrs : gset string
}.

(** What a registration ends with: the registries as they are afterwards,
    or [NotImplementedError] with its message. *)
Inductive registration :=
| Registered (R' : registry)
| NotImplementedError (msg : string).

Section ExtendsType.

(** [_create_default_encode] and [_create_default_decode] come from the
    module [type_management]; they are parameters here. *)
Context (_create_default_encode : string → PyValue → string).
Context (_create_default_decode : py_class → string → string → outcome PyValue).

(** [hasattr(class_type, name) and callable(getattr(class_type, name))] *)
Definition has_callable (class_type : py_class) (name : string) : bool :=
  bool_decide (name ∈ callable_attrs class_type).

(** [new_type_compliance]; [None] stands for the normal return. *)
Definition new_type_compliance (class_type : py_class)
    (encode_method_name decode_method_name : option string) : option string :=
  match encode_method_name with
  | Some name =>
      if negb (has_callable class_type name) then
        Some ("Class " +:+ class_name class_type
              +:+ " does not implement the required " +:+ name +:+ " method.")
      else
        match decode_method_name with
        | Some name' =>
            if negb (has_callable class_type name') then
              Some ("Class " +:+ class_name class_type
                    +:+ " does not implement the required " +:+ name' +:+ " class method.")
            else None
        | None => None
        end
  | None =>
      match decode_method_name with
      | Some name' =>
          if negb (has_callable class_type name') then
            Some ("Class " +:+ class_name class_type
                  +:+ " does not implement the required " +:+ name' +:+ " class method.")
          else None
      | None => None
      end
  end.

(** [name or default] on an optional text: [None] and the empty text are
    false. *)
Definition name_or (name : option string) (default : string) : string :=
  match name with
  | Some n => if String.eqb n "" then default else n
  | None => default
  end.

(** [extends_type], on the registries [R] of the class;
    [custom_encode_method] and [custom_decode_method] are the attributes
    of the instance, ["encode"] and ["decode"] unless reassigned. *)
Definition extends_type (custom_encode_method custom_decode_method : string)
    (R : registry) (class_type : py_class)
    (encode : option (PyValue → string))
    (decode : option (string → outcome PyValue))
    (encoding_method_name decoding_method_name : option string) : registration :=
  let encode_method_name := name_or encoding_method_name custom_encode_method in
  let decode_method_name := name_or decoding_method_name custom_decode_method in
  let encode_checked :=
    match encode with
    | Some f => inr f
    | None =>
        match new_type_compliance class_type (Some encode_method_name) None with
        | Some msg => inl msg
        | None => inr (_create_default_encode encode_method_name)
        end
    end in
  match encode_checked with
  | inl msg => NotImplementedError msg
  | inr encode' =>
      let decode_checked :=
        match decode with
        | Some g => inr g
        | None =>
            match new_type_compliance class_type None (Some decode_method_name) with
            | Some msg => inl msg
            | None => inr (_create_default_decode class_type decode_method_name)
            end
        end in
      match decode_checked with
      | inl msg => NotImplementedError msg
      | inr decode' =>
          let type_name := class_name class_type in
          Registered
            {| encoding_registry := <[type_name := encode']> (encoding_registry R);
               decoding_registry := <[type_name := decode']> (decoding_registry R);
               _default_decoder := _default_decoder R |}
      end
  end.

End ExtendsType.

(** ** Further notions *)

(** A computation that only reads: it leaves the store and the instance
    as they are. *)
Definition read_only {A} (m : M A) : Prop :=
  ∀ w : world, server (fst (m w)) = server w ∧ self (fst (m w)) = self w.

(** The key and the value pass the size validation of instance [d]. *)
Definition valid_item (d : ValkeyDict) (kv : PyValue * PyValue) : Prop :=
  _valid_input d kv.2 = Ok true ∧ _valid_input d kv.1 = Ok true.

(** The key or the value is a text that fails it. *)
Definition invalid_item (d : ValkeyDict) (kv : PyValue * PyValue) : Prop :=
  _valid_input d kv.2 = Ok false
  ∨ (_valid_input d kv.2 = Ok true ∧ _valid_input d kv.1 = Ok false).

(** The [SET] a plain store of the item issues, with the instance [d] and
    the store [st] it finds. *)
Definition item_command (R : registry) (d : ValkeyDict) (st : Store.store)
    (kv : PyValue * PyValue) : Store.command :=
  Store.SET (_format_key d kv.1) (_format_value R kv.2) false false
    (spec_plain_store_ttl d (bool_decide (is_Some (st !! _format_key d kv.1)))).

(** The text has no colon. *)
Fixpoint colon_free (s : string) : bool :=
  match s with
  | EmptyString => true
  | String c s' => negb (Ascii.eqb c ":") && colon_free s'
  end.

(** The payload [_format_value] writes after the tag. *)
Definition encoded_payload (R : registry) (value : PyValue) : string :=
  match encoding_registry R !! type_name value with
  | Some encode => encode value
  | None => py_str value
  end.

(** The decoder [_transform] picks for a tag. *)
Definition decoder_for (R : registry) (tag : string) : string → outcome PyValue :=
  match decoding_registry R !! tag with
  | Some decode => decode
  | None => _default_decoder R
  end.

(** The commands that change nothing in the store. *)
Definition is_query (c : Store.command) : bool :=
  match c with
  | Store.GET _ | Store.EXISTS _ | Store.MGET _ | Store.TTL _ | Store.SCAN _ _ => true
  | _ => false
  end.

(** * Properties *)

(** ** The model at work *)

Example rfind_ex : PyStr.rfind ":" "main:foo:bar" = 8.
Proof. reflexivity. Qed.

Example split_first_ex : PyStr.split_first ":" "str:a:b" = Some ("str", "a:b").
Proof. reflexivity. Qed.

Example of_Z_ex : (PyStr.of_Z 0, PyStr.of_Z 42, PyStr.of_Z (-7)) = ("0", "42", "-7").
Proof. reflexivity. Qed.

Example to_Z_ex : (PyStr.to_Z "42", PyStr.to_Z "-7", PyStr.to_Z "", PyStr.to_Z "x")
                  = (Some 42, Some (-7), None, None).
Proof. reflexivity. Qed.

Example glob_ex :
  (Store.glob "main:foo*" "main:foobar", Store.glob "main:foo*" "main:goobar",
   Store.glob "a?c*" "abcdef", Store.glob "*" "") = (true, false, true, true).
Proof. reflexivity. Qed.

Example parse_command_ex :
  Client.parse_command ["SET"; "main:a"; "str:x"; "NX"; "GET"; "EX"; "5"]
  = Some (Store.SET "main:a" "str:x" true true (Store.EX 5)).
Proof. reflexivity. Qed.

(** ** Strings and decimal literals *)

Lemma append_nil (b : string) : "" +:+ b = b.
Proof. reflexivity. Qed.

Lemma append_cons (c : ascii) (a b : string) :
  String c a +:+ b = String c (a +:+ b).
Proof. reflexivity. Qed.

Lemma len_append (a b : string) : PyStr.len (a +:+ b) = PyStr.len a + PyStr.len b.
Proof.
  unfold PyStr.len. induction a as [|c a IH].
  - rewrite append_nil. simpl. lia.
  - rewrite append_cons. simpl String.length. rewrite !Nat2Z.inj_succ. lia.
Qed.

Lemma len_nonneg (s : string) : 0 <= PyStr.len s.
Proof. unfold PyStr.len. lia. Qed.

Lemma to_int_proper (z : Z) :
  Z.to_int z ≠ Decimal.Pos Nil ∧ Z.to_int z ≠ Decimal.Neg Nil.
Proof.
  destruct z as [|p|p]; simpl; split; try discriminate;
    intros H; injection H as H; exact (DecimalPos.Unsigned.to_uint_nonnil p H).
Qed.

(** [int(str(n)) == n] *)
Lemma to_Z_of_Z (z : Z) : PyStr.to_Z (PyStr.of_Z z) = Some z.
Proof.
  unfold PyStr.to_Z, PyStr.of_Z. rewrite NilEmpty.isi.
  destruct (to_int_proper z) as [Hp Hn].
  destruct (Z.to_int z) as [u|u] eqn:E.
  - destruct u; try congruence; rewrite <- E, DecimalZ.of_to; reflexivity.
  - destruct u; try congruence; rewrite <- E, DecimalZ.of_to; reflexivity.
Qed.

(** ** The connection *)

Lemma via_valkey_eq (c : Store.command) (w : world) :
  via_valkey c w =
  match valkey (self w) with
  | Some Live => live c w
  | Some (Pipe queue) =>
      (World (with_handles (Some (Pipe (queue ++ [c]))) (_temp_valkey (self w)) (self w))
             (server w) (trips w), Ok Store.RPipeline)
  | None => (w, Raise (AttributeError "'NoneType' object has no such attribute"))
  end.
Proof.
  unfold via_valkey, bind, get_self.
  destruct (valkey (self w)) as [[|queue]|]; reflexivity.
Qed.

Lemma parse_response_outcome (r : Store.reply) :
  (∃ r', Client.parse_response r = Ok r')
  ∨ (∃ m, Client.parse_response r = Raise (ResponseError m)).
Proof. destruct r; simpl; eauto. Qed.

Lemma via_valkey_outcome (c : Store.command) (w : world) :
  (∃ r, snd (via_valkey c w) = Ok r)
  ∨ (∃ m, snd (via_valkey c w) = Raise (AttributeError m))
  ∨ (∃ m, snd (via_valkey c w) = Raise (ResponseError m)).
Proof.
  rewrite via_valkey_eq.
  destruct (valkey (self w)) as [[|queue]|]; simpl.
  - unfold live. destruct (Store.apply c (server w)) as [st r]. simpl.
    destruct (parse_response_outcome r) as [[r' H]|[m H]]; rewrite H; eauto.
  - left. eauto.
  - right. left. eauto.
Qed.

(** ** Validation of the size of keys and values *)

Section Validation.

Context (R : registry).

Lemma _valid_input_str (d : ValkeyDict) (s : string) :
  _valid_input d (VStr s) = Ok (PyStr.len s <? _max_string_size d).
Proof. reflexivity. Qed.

Lemma _valid_input_other (d : ValkeyDict) (v : PyValue) :
  type_name v ≠ "str" → _valid_input d v = Ok true.
Proof.
  intros Hne. unfold _valid_input.
  destruct (String.eqb_spec (type_name v) "str") as [E|_]; [contradiction|reflexivity].
Qed.

(** A value that fails validation stops [_store] before it touches the
    connection: the world is left as it was. *)
Lemma _store_invalid_value (w : world) (key value : PyValue) :
  _valid_input (self w) value = Ok false →
  _store R key value w = (w, Raise size_error).
Proof.
  intros Hv. unfold _store, bind, get_self, lift. rewrite Hv. reflexivity.
Qed.

Lemma _store_invalid_key (w : world) (key value : PyValue) :
  _valid_input (self w) value = Ok true →
  _valid_input (self w) key = Ok false →
  _store R key value w = (w, Raise size_error).
Proof.
  intros Hv Hk. unfold _store, bind, get_self, lift. rewrite Hv. simpl.
  rewrite Hk. reflexivity.
Qed.

Lemma _store_valid (w : world) (key value : PyValue) :
  _valid_input (self w) value = Ok true →
  _valid_input (self w) key = Ok true →
  _store R key value w
  = _store_set (_format_key (self w) key) (_format_value R value) w.
Proof.
  intros Hv Hk. unfold _store, bind, get_self, lift. rewrite Hv. simpl.
  rewrite Hk. reflexivity.
Qed.

(** One character more than the limit is refused, as a value and as a
    key, with nothing sent. *)
Lemma _store_over_limit (w : world) (key : PyValue) (s : string) :
  PyStr.len s = _max_string_size (self w) + 1 →
  _store R key (VStr s) w = (w, Raise size_error)
  ∧ (∀ value, _valid_input (self w) value = Ok true →
              _store R (VStr s) value w = (w, Raise size_error)).
Proof.
  intros Hlen.
  assert (Hs : _valid_input (self w) (VStr s) = Ok false).
  { rewrite _valid_input_str. f_equal. lia. }
  split.
  - apply _store_invalid_value, Hs.
  - intros value Hv. apply _store_invalid_key; assumption.
Qed.

(** C1. A string of exactly [_max_string_size] characters is refused
    too: [_valid_input] compares with [<], so [_store] raises the size
    error for it, as a value and as a key, before any command is
    issued.  The claim has this string accepted. *)
Theorem store_refuses_string_of_max_size (w : world) (key : PyValue) (s : string) :
  PyStr.len s = _max_string_size (self w) →
  _store R key (VStr s) w = (w, Raise size_error)
  ∧ (∀ value, _valid_input (self w) value = Ok true →
              _store R (VStr s) value w = (w, Raise size_error)).
Proof.
  intros Hlen.
  assert (Hs : _valid_input (self w) (VStr s) = Ok false).
  { rewrite _valid_input_str, Hlen, Z.ltb_irrefl. reflexivity. }
  split.
  - apply _store_invalid_value, Hs.
  - intros value Hv. apply _store_invalid_key; assumption.
Qed.

Lemma _store_set_not_value_error (w : world) (k v msg : string) :
  snd (_store_set k v w) ≠ Raise (ValueError msg).
Proof.
  unfold _store_set, bind, get_self, get_valkey, live, ret. simpl.
  destruct (preserve_expiration (self w)); simpl;
    repeat match goal with
      | |- context [if ?b then _ else _] => destruct b; simpl
      end;
    match goal with
    | |- context [via_valkey ?c ?w1] =>
        destruct (via_valkey_outcome c w1) as [[r H]|[[m H]|[m H]]];
        destruct (via_valkey c w1) as [w' o]; simpl in *; subst; discriminate
    end.
Qed.

(** C9. The size check looks at values whose type is named [str] only:
    when neither the key nor the value is one, both pass validation and
    [_store], hence [__setitem__], raises no [ValueError], whatever the
    registry encodes the value to. *)
Theorem store_non_str_never_size_error (w : world) (key value : PyValue) :
  type_name key ≠ "str" →
  type_name value ≠ "str" →
  _valid_input (self w) value = Ok true
  ∧ _valid_input (self w) key = Ok true
  ∧ __setitem__ R key value w
    = _store_set (_format_key (self w) key) (_format_value R value) w
  ∧ ∀ msg, snd (__setitem__ R key value w) ≠ Raise (ValueError msg).
Proof.
  intros Hk Hv.
  pose proof (_valid_input_other (self w) value Hv) as Ev.
  pose proof (_valid_input_other (self w) key Hk) as Ek.
  repeat split; try assumption.
  - unfold __setitem__. apply _store_valid; assumption.
  - intros msg. unfold __setitem__. rewrite _store_valid by assumption.
    apply _store_set_not_value_error.
Qed.

End Validation.

Lemma init_max_string_size (ns : string) (e : option expire_t) (p r : bool) :
  _max_string_size (init ns e p r) = 500 * 2 ^ 20.
Proof. reflexivity. Qed.

(** With the limit [__init__] sets: a text of exactly 500 * 2^20
    characters is refused by a new instance. *)
Lemma new_instance_refuses_500MiB (R : registry) (ns : string) (e : option expire_t)
    (p r : bool) (key : PyValue) (s : string) :
  PyStr.len s = 500 * 2 ^ 20 →
  _store R key (VStr s) (new_world (init ns e p r))
  = (new_world (init ns e p r), Raise size_error).
Proof.
  intros Hlen. apply _store_invalid_value.
  rewrite _valid_input_str. simpl. rewrite Hlen. reflexivity.
Qed.

Lemma store_refuses_string_of_max_size_witness :
  let w := new_world (with_max_string_size 3 (init "main" None false false)) in
  PyStr.len "abc" = _max_string_size (self w)
  ∧ _store TypeManagement.builtin (VStr "k") (VStr "abc") w = (w, Raise size_error).
Proof.
  split; [reflexivity|].
  exact (proj1 (store_refuses_string_of_max_size TypeManagement.builtin
                  (new_world (with_max_string_size 3 (init "main" None false false)))
                  (VStr "k") "abc" eq_refl)).
Defined.

Lemma store_non_str_never_size_error_witness :
  let w := new_world (init "main" None false false) in
  let big := VObj "list" "[1, 2, 3]" (Some (2 ^ 40)) in
  _valid_input (self w) big = Ok true
  ∧ _valid_input (self w) (VInt 7) = Ok true
  ∧ __setitem__ TypeManagement.builtin (VInt 7) big w
    = _store_set "main:7" "list:[1, 2, 3]" w.
Proof.
  intros w big.
  destruct (store_non_str_never_size_error TypeManagement.builtin w (VInt 7) big)
    as (Hv & Hk & Hstore & _); [discriminate | discriminate |].
  split; [exact Hv|]. split; [exact Hk | exact Hstore].
Defined.

(** ** Absent keys *)

Section Absent.

Context (R : registry).

Lemma format_key_differs (d : ValkeyDict) (key : PyValue) :
  VStr (_format_key d key) ≠ key.
Proof.
  destruct key as [| | |s|]; try discriminate.
  intros H. injection H as H. apply (f_equal PyStr.len) in H.
  unfold _format_key in H. simpl py_str in H.
  rewrite !len_append in H.
  pose proof (len_nonneg (namespace d)).
  change (PyStr.len ":") with 1 in H. lia.
Qed.

Lemma _load_absent (w : world) (key : PyValue) :
  server w !! _format_key (self w) key = None →
  _load R key w
  = (World (self w) (server w)
           (trips w ++ [Single (Store.GET (_format_key (self w) key))]),
     Ok (false, VNone)).
Proof.
  intros Hnone. unfold _load, bind, get_self, get_valkey, live. simpl.
  rewrite Hnone. reflexivity.
Qed.

Lemma _load_present (w : world) (key : PyValue) (e : Store.entry) :
  server w !! _format_key (self w) key = Some e →
  _load R key w
  = (World (self w) (server w)
           (trips w ++ [Single (Store.GET (_format_key (self w) key))]),
     match _transform R (Store.payload e) with
     | Ok v => Ok (true, v)
     | Raise x => Raise x
     end).
Proof.
  intros Hsome. unfold _load, bind, get_self, get_valkey, live, lift, ret. simpl.
  rewrite Hsome. simpl. destruct (_transform R (Store.payload e)); reflexivity.
Qed.

Lemma parse_getdel (k : string) :
  Client.parse_command ["GETDEL"; k] = Some (Store.GETDEL k).
Proof. reflexivity. Qed.

(** C10. On an absent key, [pop] without a default raises [KeyError]
    with the formatted key ([namespace:key]), [__getitem__] raises
    [KeyError] with the key as the caller gave it, and the two arguments
    are never the same. *)
Theorem absent_key_errors_differ (w : world) (key : PyValue) :
  server w !! _format_key (self w) key = None →
  snd (pop R key None w) = Raise (KeyError (VStr (_format_key (self w) key)))
  ∧ snd (__getitem__ R key w) = Raise (KeyError key)
  ∧ KeyError (VStr (_format_key (self w) key)) ≠ KeyError key.
Proof.
  intros Hnone. repeat split.
  - unfold pop, _pop, get_valkey_execute_command, bind, get_self.
    rewrite parse_getdel. unfold live. simpl. rewrite Hnone. reflexivity.
  - unfold __getitem__, bind. rewrite _load_absent by assumption. reflexivity.
  - intros H. injection H as H. exact (format_key_differs _ _ H).
Qed.

End Absent.

Lemma absent_key_errors_differ_witness :
  let w := new_world (init "main" None false false) in
  snd (pop TypeManagement.builtin (VStr "missing") None w)
    = Raise (KeyError (VStr "main:missing"))
  ∧ snd (__getitem__ TypeManagement.builtin (VStr "missing") w)
    = Raise (KeyError (VStr "missing")).
Proof.
  pose proof (absent_key_errors_differ TypeManagement.builtin
                (new_world (init "main" None false false)) (VStr "missing") eq_refl)
    as (Hpop & Hget & _).
  split; [exact Hpop | exact Hget].
Defined.

(** ** The plain store *)

Lemma truthy_exists (b : bool) :
  Client.truthy (Store.RInt (if b then 1 else 0)) = b.
Proof. destruct b; reflexivity. Qed.

Lemma apply_exists (k : string) (st : Store.store) :
  Store.apply (Store.EXISTS k) st
  = (st, Store.RInt (if bool_decide (is_Some (st !! k)) then 1 else 0)).
Proof. reflexivity. Qed.

Lemma live_eq (c : Store.command) (w : world) :
  live c w = (World (self w) (fst (Store.apply c (server w))) (trips w ++ [Single c]),
              Client.parse_response (snd (Store.apply c (server w)))).
Proof. unfold live. destruct (Store.apply c (server w)); reflexivity. Qed.

Lemma _store_set_probe (w : world) (k v : string) :
  _store_set k v w
  = discard (via_valkey (plain_store_cmd w k v))
      (World (self w) (server w) (trips w ++ plain_store_probes w k)).
Proof.
  unfold _store_set, discard, bind, get_self, get_valkey, ret,
    plain_store_cmd, plain_store_probes, spec_plain_store_ttl, key_exists.
  destruct (preserve_expiration (self w)) eqn:Hp; cbv beta iota.
  - rewrite live_eq, apply_exists. cbn [fst snd Client.parse_response].
    rewrite truthy_exists.
    destruct (bool_decide (is_Some (server w !! k))); reflexivity.
  - rewrite app_nil_r. destruct w; reflexivity.
Qed.

(** The reply to a plain [SET]: [OK], or the error when it is refused. *)
Lemma set_response (k v : string) (t : Store.ttl_arg) (st : Store.store) :
  Client.parse_response (snd (Store.apply (Store.SET k v false false t) st))
  = if Store.refuses (Store.SET k v false false t)
    then Raise (ResponseError Store.invalid_expire) else Ok Store.ROk.
Proof.
  cbn [Store.apply]. destruct (Store.refuses (Store.SET k v false false t)); reflexivity.
Qed.

Lemma apply_refused (c : Store.command) (st : Store.store) :
  Store.refuses c = true → Store.apply c st = (st, Store.RErr Store.invalid_expire).
Proof.
  destruct c as [k v nx get t| | | | | | |]; try discriminate.
  intros H. cbn [Store.apply]. rewrite H. reflexivity.
Qed.

Lemma expire_accepted_plain (d : ValkeyDict) (present : bool) (k v : string) :
  expire_accepted d = true →
  Store.refuses (Store.SET k v false false (spec_plain_store_ttl d present)) = false.
Proof.
  unfold expire_accepted, spec_plain_store_ttl. intros H.
  destruct (preserve_expiration d && present); [reflexivity|].
  destruct (expire d) as [e|]; [|reflexivity].
  cbn [Store.refuses]. apply Z.ltb_lt in H. apply Z.leb_gt. exact H.
Qed.

Lemma _store_set_live (w : world) (k v : string) :
  valkey (self w) = Some Live →
  _store_set k v w
  = (World (self w) (fst (Store.apply (plain_store_cmd w k v) (server w)))
           (trips w ++ plain_store_probes w k ++ [Single (plain_store_cmd w k v)]),
     store_outcome (plain_store_cmd w k v)).
Proof.
  intros Hv. rewrite _store_set_probe. unfold discard, bind, ret.
  rewrite via_valkey_eq. cbn [self server trips]. rewrite Hv, live_eq.
  cbn [self server trips]. rewrite <- app_assoc.
  unfold store_outcome, plain_store_cmd. rewrite set_response.
  destruct (Store.refuses _); reflexivity.
Qed.

(** A store the store accepts. *)
Lemma _store_set_accepted (w : world) (k v : string) :
  valkey (self w) = Some Live →
  Store.refuses (plain_store_cmd w k v) = false →
  _store_set k v w
  = (World (self w) (fst (Store.apply (plain_store_cmd w k v) (server w)))
           (trips w ++ plain_store_probes w k ++ [Single (plain_store_cmd w k v)]),
     Ok tt).
Proof.
  intros Hv Hacc. rewrite (_store_set_live w k v Hv). unfold store_outcome.
  rewrite Hacc. reflexivity.
Qed.

Lemma _store_set_pipe (w : world) (k v : string) (queue : list Store.command) :
  valkey (self w) = Some (Pipe queue) →
  _store_set k v w
  = (World (with_handles (Some (Pipe (queue ++ [plain_store_cmd w k v])))
              (_temp_valkey (self w)) (self w))
           (server w) (trips w ++ plain_store_probes w k),
     Ok tt).
Proof.
  intros Hv. rewrite _store_set_probe. unfold discard, bind, ret.
  rewrite via_valkey_eq. cbn [self server trips]. rewrite Hv. reflexivity.
Qed.

(** C7. The command [_store_set] hands to [self.valkey] is [SET] with
    [KEEPTTL] when [preserve_expiration] is set and the key exists, and
    otherwise [SET] with [EX] equal to [expire], without [EX] when
    [expire] is [None]; it is sent at once on the live connection and
    queued on a pipeline.  The existence probe is made only when
    [preserve_expiration] is set.  On the live connection the store
    ends with [ResponseError] when the store refuses the command, which
    it does for an [EX] of zero or less, and changes nothing then. *)
Theorem plain_store_command (w : world) (k v : string) :
  let d := self w in
  let cmd := Store.SET k v false false (spec_plain_store_ttl d (key_exists w k)) in
  let probes := if preserve_expiration d then [Single (Store.EXISTS k)] else [] in
  match valkey d with
  | Some Live =>
      _store_set k v w
      = (World d (fst (Store.apply cmd (server w))) (trips w ++ probes ++ [Single cmd]),
         if Store.refuses cmd
         then Raise (ResponseError Store.invalid_expire) else Ok tt)
      ∧ (Store.refuses cmd = true → fst (Store.apply cmd (server w)) = server w)
  | Some (Pipe queue) =>
      _store_set k v w
      = (World (with_handles (Some (Pipe (queue ++ [cmd]))) (_temp_valkey d) d)
               (server w) (trips w ++ probes),
         Ok tt)
  | None => is_ok (snd (_store_set k v w)) = false
  end.
Proof.
  cbv zeta. destruct (valkey (self w)) as [[|queue]|] eqn:Hv.
  - split; [apply _store_set_live, Hv|].
    intros Href. rewrite (apply_refused _ _ Href). reflexivity.
  - apply _store_set_pipe, Hv.
  - rewrite _store_set_probe. unfold discard, bind.
    rewrite via_valkey_eq. cbn [self]. rewrite Hv. reflexivity.
Qed.

(** The three cases of the decision, read off [spec_plain_store_ttl]. *)
Lemma spec_plain_store_ttl_cases (d : ValkeyDict) (b : bool) :
  (preserve_expiration d = true → b = true →
   spec_plain_store_ttl d b = Store.KEEPTTL)
  ∧ (preserve_expiration d && b = false → ∀ e, expire d = Some e →
     spec_plain_store_ttl d b = Store.EX (Client.ex_seconds e))
  ∧ (preserve_expiration d && b = false → expire d = None →
     spec_plain_store_ttl d b = Store.NoTtl).
Proof.
  unfold spec_plain_store_ttl. repeat split.
  - intros -> ->. reflexivity.
  - intros -> e ->. reflexivity.
  - intros -> ->. reflexivity.
Qed.

(** C4. The plain store does not clamp: with [preserve_expiration] off
    and [expire] set to a duration of zero or fewer whole seconds,
    [_store_set] sends [SET] with that very [EX].  The claim has every
    write path carry a TTL of at least 1; only [_create_set_get_command]
    does. *)
Theorem plain_store_sends_nonpositive_ttl (w : world) (k v : string) (e : expire_t) :
  Client.ex_seconds e <= 0 →
  preserve_expiration (self w) = false →
  expire (self w) = Some e →
  valkey (self w) = Some Live →
  trips (fst (_store_set k v w))
  = trips w ++ [Single (Store.SET k v false false (Store.EX (Client.ex_seconds e)))].
Proof.
  intros _ Hp He Hv. rewrite _store_set_live by assumption. simpl.
  unfold plain_store_probes, plain_store_cmd, spec_plain_store_ttl.
  rewrite Hp, He. reflexivity.
Qed.

Lemma plain_store_sends_nonpositive_ttl_witness :
  trips (fst (_store_set "main:a" "str:x"
                (new_world (init "main" (Some (ExpInt 0)) false false))))
  = [Single (Store.SET "main:a" "str:x" false false (Store.EX 0))].
Proof.
  exact (plain_store_sends_nonpositive_ttl
           (new_world (init "main" (Some (ExpInt 0)) false false))
           "main:a" "str:x" (ExpInt 0) ltac:(simpl; lia) eq_refl eq_refl eq_refl).
Defined.

(** [d = ValkeyDict(expire=0); d["a"] = "x"], and the same with half a
    second as a [timedelta]. *)
Example plain_store_zero_ttl_ex :
  let R := TypeManagement.builtin in
  trips (fst (__setitem__ R (VStr "a") (VStr "x")
                (new_world (init "main" (Some (ExpInt 0)) false false))))
  = [Single (Store.SET "main:a" "str:x" false false (Store.EX 0))]
  ∧ trips (fst (__setitem__ R (VStr "a") (VStr "x")
                  (new_world (init "main" (Some (ExpDelta (Timedelta 500000))) false false))))
    = [Single (Store.SET "main:a" "str:x" false false (Store.EX 0))]
  ∧ fst (_create_set_get_command (init "main" (Some (ExpInt 0)) false false)
           "main:a" "str:x")
    = ["SET"; "main:a"; "str:x"; "NX"; "GET"; "EX"; "1"].
Proof. repeat split; reflexivity. Qed.

(** The builder of the [setdefault] command does clamp: the [EX] it
    writes is never below 1. *)
Lemma _create_set_get_command_clamps (d : ValkeyDict) (k v : string) (e : expire_t) :
  preserve_expiration d = false →
  expire d = Some e →
  fst (_create_set_get_command d k v)
  = ["SET"; k; v; "NX"; "GET"; "EX"; PyStr.of_Z (Z.max 1 (Client.ex_seconds e))].
Proof.
  intros Hp He. unfold _create_set_get_command. rewrite Hp, He. simpl.
  destruct e as [n|td]; simpl.
  - destruct (Z.leb_spec n 1).
    + replace (Z.max 1 n) with 1 by lia. reflexivity.
    + replace (Z.max 1 n) with n by lia. reflexivity.
  - destruct (Z.leb_spec (total_seconds_int td) 1).
    + replace (Z.max 1 (total_seconds_int td)) with 1 by lia. reflexivity.
    + replace (Z.max 1 (total_seconds_int td)) with (total_seconds_int td) by lia.
      reflexivity.
Qed.

(** ** The scoped expiration *)

Section ExpireAt.

Context (R : registry).

(** On a normal exit the value [expire] had at entry is put back. *)
Lemma expire_at_restores {A} (sec_epoch : expire_t) (body : M A) (w w1 : world) (a : A) :
  body (World (with_expire (Some sec_epoch) (self w)) (server w) (trips w)) = (w1, Ok a) →
  expire_at sec_epoch body w
  = (World (with_expire (expire (self w)) (self w1)) (server w1) (trips w1), Ok a).
Proof.
  intros Hb. unfold expire_at, bind, get_self, put_self. simpl.
  rewrite Hb. reflexivity.
Qed.

(** Inside the scope the override is in force. *)
Lemma expire_at_overrides (sec_epoch : expire_t) (w : world) :
  snd (expire_at sec_epoch (let* d := get_self in ret (expire d)) w)
  = Ok (Some sec_epoch).
Proof. reflexivity. Qed.

(** An exception of the body leaves through the [yield]: the assignment
    after it is not run. *)
Lemma expire_at_raises {A} (sec_epoch : expire_t) (body : M A) (w w1 : world) (e : exn) :
  body (World (with_expire (Some sec_epoch) (self w)) (server w) (trips w)) = (w1, Raise e) →
  expire_at sec_epoch body w = (w1, Raise e).
Proof.
  intros Hb. unfold expire_at, bind, get_self, put_self. simpl.
  rewrite Hb. reflexivity.
Qed.

(** C2. When the body of an [expire_at] scope raises, the instance is
    left as the body left it: the generator has no [try ... finally]
    around its [yield], so the assignment that restores [expire] is
    skipped, and with a body that does not touch [expire] the override
    stays in force after the scope.  The claim has the prior value
    restored also in that case. *)
Theorem expire_at_not_restored_on_error
    (body : prog) (sec_epoch : expire_t) (w w1 : world) (e : exn) :
  exec R body (World (with_expire (Some sec_epoch) (self w)) (server w) (trips w))
    = (w1, Raise e) →
  exec R (WithExpireAt sec_epoch body) w = (w1, Raise e).
Proof. intros Hbody. simpl. apply expire_at_raises, Hbody. Qed.

End ExpireAt.

Lemma expire_at_not_restored_on_error_witness :
  let R := TypeManagement.builtin in
  let w := new_world (init "main" None false false) in
  let body := Seq (SetItem (VStr "a") (VInt 1)) (RaiseStmt (UserError "boom")) in
  expire (self w) = None
  ∧ expire (self (fst (exec R (WithExpireAt (ExpInt 5) body) w))) = Some (ExpInt 5)
  ∧ snd (exec R (WithExpireAt (ExpInt 5) body) w) = Raise (UserError "boom").
Proof.
  intros R w body.
  pose proof (expire_at_not_restored_on_error R body (ExpInt 5) w _ _ eq_refl) as H.
  rewrite H. repeat split; reflexivity.
Defined.

(** The same scope without the error puts [expire] back. *)
Example expire_at_normal_ex :
  let R := TypeManagement.builtin in
  let w := new_world (init "main" None false false) in
  let w' := fst (exec R (WithExpireAt (ExpInt 5) (SetItem (VStr "a") (VInt 1))) w) in
  expire (self w') = None
  ∧ Store.ttl <$> server w' !! "main:a" = Some (Some 5).
Proof. split; reflexivity. Qed.

(** ** The pipeline scope *)

Lemma flushes_app (a b : list round_trip) :
  flushes (a ++ b) = flushes a ++ flushes b.
Proof. apply omap_app. Qed.

Lemma flushes_single (ts : list round_trip) (c : Store.command) :
  flushes (ts ++ [Single c]) = flushes ts.
Proof. rewrite flushes_app. simpl. apply app_nil_r. Qed.

Lemma flushes_batch (ts : list round_trip) (cs : list Store.command) :
  flushes (ts ++ [Batch cs]) = flushes ts ++ [cs].
Proof. rewrite flushes_app. reflexivity. Qed.

Lemma quiet_same {A} (m : M A) :
  (∀ w, self (fst (m w)) = self w ∧ flushes (trips (fst (m w))) = flushes (trips w)) →
  quiet m.
Proof.
  intros H w queue t Hv Ht. destruct (H w) as [Hs Hf].
  exists []. rewrite Hs, app_nil_r. auto.
Qed.

Lemma quiet_ret {A} (a : A) : quiet (ret a).
Proof. apply quiet_same. intros w. split; reflexivity. Qed.

Lemma quiet_raise {A} (e : exn) : quiet (@raise A e).
Proof. apply quiet_same. intros w. split; reflexivity. Qed.

Lemma quiet_lift {A} (r : outcome A) : quiet (lift r).
Proof. apply quiet_same. intros w. split; reflexivity. Qed.

Lemma quiet_get_self : quiet get_self.
Proof. apply quiet_same. intros w. split; reflexivity. Qed.

Lemma quiet_live (c : Store.command) : quiet (live c).
Proof.
  apply quiet_same. intros w. rewrite live_eq. simpl.
  split; [reflexivity | apply flushes_single].
Qed.

Lemma quiet_get_valkey (c : Store.command) : quiet (get_valkey c).
Proof. apply quiet_live. Qed.

Lemma quiet_get_valkey_execute_command (args : list string) :
  quiet (get_valkey_execute_command args).
Proof.
  unfold get_valkey_execute_command.
  destruct (Client.parse_command args); [apply quiet_live | apply quiet_raise].
Qed.

Lemma quiet_via_valkey (c : Store.command) : quiet (via_valkey c).
Proof.
  intros w queue t Hv Ht. rewrite via_valkey_eq, Hv. simpl.
  exists [c]. auto.
Qed.

Lemma quiet_bind {A B} (m : M A) (k : A → M B) :
  quiet m → (∀ a, quiet (k a)) → quiet (bind m k).
Proof.
  intros Hm Hk w queue t Hv Ht. unfold bind.
  destruct (Hm w queue t Hv Ht) as (more1 & Hv1 & Ht1 & Hf1).
  destruct (m w) as [w1 [a|e]]; simpl in *.
  - destruct (Hk a w1 _ t Hv1 Ht1) as (more2 & Hv2 & Ht2 & Hf2).
    exists (more1 ++ more2). rewrite app_assoc, Hf2. auto.
  - exists more1. auto.
Qed.


Lemma quiet_try_finally {A} (m : M A) (h : M unit) :
  quiet m → quiet h → quiet (try_finally m h).
Proof.
  intros Hm Hh w queue t Hv Ht. unfold try_finally.
  destruct (Hm w queue t Hv Ht) as (more1 & Hv1 & Ht1 & Hf1).
  destruct (m w) as [w1 r]; simpl in *.
  destruct (Hh w1 _ t Hv1 Ht1) as (more2 & Hv2 & Ht2 & Hf2).
  exists (more1 ++ more2). rewrite app_assoc.
  destruct (h w1) as [w2 [[]|e]]; simpl in *; rewrite Hf2; auto.
Qed.

Ltac quiet_step :=
  match goal with
  | |- quiet (bind _ _) => apply quiet_bind; [|intros ?]
  | |- quiet (ret _) => apply quiet_ret
  | |- quiet (raise _) => apply quiet_raise
  | |- quiet (lift _) => apply quiet_lift
  | |- quiet get_self => apply quiet_get_self
  | |- quiet (get_valkey _) => apply quiet_get_valkey
  | |- quiet (get_valkey_execute_command _) => apply quiet_get_valkey_execute_command
  | |- quiet (via_valkey _) => apply quiet_via_valkey
  | |- quiet (if ?b then _ else _) => destruct b
  | |- quiet (match ?x with _ => _ end) => destruct x
  end.

Ltac quiet_auto := repeat quiet_step.

Section Pipeline.

Context (R : registry).




Lemma quiet__load (key : PyValue) : quiet (_load R key).
Proof. unfold _load. quiet_auto. Qed.

Lemma quiet__getitem__ (key : PyValue) : quiet (__getitem__ R key).
Proof. unfold __getitem__. quiet_auto; apply quiet__load. Qed.








End Pipeline.

Section PipelineScope.

Context (R : registry).


(** The replies to a batch hold an error exactly when the batch holds a
    command the store refuses. *)
Lemma accepted_reply (c : Store.command) (st : Store.store) :
  Store.refuses c = false →
  ∀ rs, Client.first_error (snd (Store.apply c st) :: rs) = Client.first_error rs.
Proof.
  intros Hacc rs.
  destruct c as [k v nx get t|k|k|ks|k|ks|k|p n]; cbn [Store.apply].
  - rewrite Hacc.
    destruct (nx && bool_decide (is_Some (st !! k))); cbn [snd];
      destruct get; try reflexivity;
      destruct (st !! k); reflexivity.
  - cbn [snd]. destruct (st !! k); reflexivity.
  - cbn [snd]. destruct (st !! k); reflexivity.
  - destruct (Store.del_keys ks st). reflexivity.
  - reflexivity.
  - reflexivity.
  - reflexivity.
  - reflexivity.
Qed.

Lemma first_error_apply_all (cs : list Store.command) (st : Store.store) :
  Client.first_error (snd (Store.apply_all cs st))
  = if existsb Store.refuses cs then Some Store.invalid_expire else None.
Proof.
  revert st. induction cs as [|c cs IH]; intros st.
  - reflexivity.
  - cbn [Store.apply_all existsb].
    destruct (Store.refuses c) eqn:Hc.
    + rewrite (apply_refused c st Hc).
      destruct (Store.apply_all cs st) as [st2 rs]. reflexivity.
    + pose proof (accepted_reply c st Hc) as Hrep.
      destruct (Store.apply c st) as [st1 r]. cbn [snd] in Hrep.
      specialize (IH st1).
      destruct (Store.apply_all cs st1) as [st2 rs]. cbn [snd orb] in IH |- *.
      rewrite Hrep. exact IH.
Qed.

(** The exit of an outermost scope: the queue goes out as one batch.
    When the store accepts every command of it the live connection is
    put back and the outcome of the body passed on; when the store
    refuses one, [execute()] raises, the assignment that puts the live
    connection back is not run, and the pipeline, now empty, stays in
    place. *)
Lemma pipeline_outermost_exit {A} (body : M A) (w w1 : world) (r : outcome A)
    (queue : list Store.command) :
  valkey (self w) = Some Live →
  _temp_valkey (self w) = None →
  body (entered w) = (w1, r) →
  valkey (self w1) = Some (Pipe queue) →
  _temp_valkey (self w1) = Some Live →
  pipeline body w
  = if existsb Store.refuses queue
    then (World (with_handles (Some (Pipe [])) (Some Live) (self w1))
                (fst (Store.apply_all queue (server w1)))
                (trips w1 ++ [Batch queue]),
          Raise (ResponseError Store.invalid_expire))
    else (World (with_handles (Some Live) None (self w1))
                (fst (Store.apply_all queue (server w1)))
                (trips w1 ++ [Batch queue]),
          r).
Proof.
  intros Hv Ht Hbody Hv1 Ht1.
  unfold pipeline, bind, get_self, lift, put_self, ret, try_finally, valkey_execute.
  simpl. rewrite Ht, Hv. simpl. fold (entered w). rewrite Hbody. simpl.
  rewrite Hv1. unfold Client.raise_first_error.
  pose proof (first_error_apply_all queue (server w1)) as Herr.
  destruct (Store.apply_all queue (server w1)) as [st rs]. cbn [snd] in Herr.
  rewrite Herr. cbn [fst]. rewrite Ht1.
  destruct (existsb Store.refuses queue); reflexivity.
Qed.

Lemma pipeline_outermost {A} (body : M A) (w w1 : world) (r : outcome A)
    (queue : list Store.command) :
  valkey (self w) = Some Live →
  _temp_valkey (self w) = None →
  body (entered w) = (w1, r) →
  valkey (self w1) = Some (Pipe queue) →
  _temp_valkey (self w1) = Some Live →
  existsb Store.refuses queue = false →
  pipeline body w
  = (World (with_handles (Some Live) None (self w1))
           (fst (Store.apply_all queue (server w1)))
           (trips w1 ++ [Batch queue]),
     r).
Proof.
  intros Hv Ht Hbody Hv1 Ht1 Hacc.
  rewrite (pipeline_outermost_exit body w w1 r queue Hv Ht Hbody Hv1 Ht1), Hacc.
  reflexivity.
Qed.


(** Inside a scope a store of valid input queues its [SET] and sends
    nothing. *)
Lemma setitem_queues (w : world) (key value : PyValue) (queue : list Store.command) :
  valkey (self w) = Some (Pipe queue) →
  preserve_expiration (self w) = false →
  _valid_input (self w) value = Ok true →
  _valid_input (self w) key = Ok true →
  __setitem__ R key value w
  = (World (with_handles
              (Some (Pipe (queue ++ [Client.set_ex (_format_key (self w) key)
                                       (_format_value R value) (expire (self w))])))
              (_temp_valkey (self w)) (self w))
           (server w) (trips w),
     Ok tt).
Proof.
  intros Hv Hp Hvv Hvk. unfold __setitem__. rewrite _store_valid by assumption.
  rewrite (_store_set_pipe _ _ _ queue Hv).
  unfold plain_store_probes, plain_store_cmd, spec_plain_store_ttl, Client.set_ex.
  rewrite Hp, app_nil_r. reflexivity.
Qed.

End PipelineScope.


(** Two stores, the second in a nested scope, then an error: the two
    commands go out together when the outer scope exits, the third store
    is never made, and the instance is idle again. *)
Example pipeline_error_ex :
  let R := TypeManagement.builtin in
  let w := new_world (init "main" None false false) in
  let body :=
    Seq (SetItem (VStr "a") (VInt 1))
        (Seq (WithPipeline (SetItem (VStr "b") (VInt 2)))
             (Seq (RaiseStmt (UserError "boom")) (SetItem (VStr "c") (VInt 3)))) in
  let w' := fst (pipeline (exec R body) w) in
  trips w' = [Batch [Store.SET "main:a" "int:1" false false Store.NoTtl;
                     Store.SET "main:b" "int:2" false false Store.NoTtl]]
  ∧ snd (pipeline (exec R body) w) = Raise (UserError "boom")
  ∧ valkey (self w') = Some Live
  ∧ _temp_valkey (self w') = None
  ∧ Store.payload <$> server w' !! "main:b" = Some "int:2".
Proof. vm_compute. repeat split; reflexivity. Qed.

(** [update] stores its items in one batch. *)
Example update_ex :
  let R := TypeManagement.builtin in
  let w := new_world (init "main" (Some (ExpInt 60)) false false) in
  trips (fst (update R [(VStr "a", VInt 1); (VStr "b", VStr "two")] w))
  = [Batch [Store.SET "main:a" "int:1" false false (Store.EX 60);
            Store.SET "main:b" "str:two" false false (Store.EX 60)]].
Proof. reflexivity. Qed.

(** ** [setdefault] *)

Section SetDefault.

Context (R : registry).

Lemma _create_set_get_command_shape (d : ValkeyDict) (k v : string) :
  _create_set_get_command d k v
  = (["SET"; k; v; "NX"; "GET"] ++ ttl_words (setdefault_ttl d), [("get", true)]).
Proof.
  unfold _create_set_get_command, setdefault_ttl.
  destruct (preserve_expiration d); [reflexivity|].
  destruct (expire d) as [e|]; [|reflexivity].
  simpl. repeat f_equal.
  destruct e as [n|td]; simpl;
    match goal with |- context [?x <=? 1] => destruct (Z.leb_spec x 1) end;
    f_equal; lia.
Qed.

Lemma parse_set_options_ttl (t : Store.ttl_arg) :
  Client.parse_set_options ("NX" :: "GET" :: ttl_words t) false false Store.NoTtl
  = Some (true, true, t).
Proof.
  destruct t as [|n|]; try reflexivity.
  cbn. rewrite to_Z_of_Z. reflexivity.
Qed.

Lemma parse_set_get_command (d : ValkeyDict) (k v : string) :
  Client.parse_command (fst (_create_set_get_command d k v))
  = Some (Store.SET k v true true (setdefault_ttl d)).
Proof.
  rewrite _create_set_get_command_shape. cbn [fst app].
  change (Client.parse_command ("SET" :: k :: v :: "NX" :: "GET" :: ttl_words (setdefault_ttl d)))
    with (match Client.parse_set_options ("NX" :: "GET" :: ttl_words (setdefault_ttl d))
                  false false Store.NoTtl with
          | Some (nx, get, t) => Some (Store.SET k v nx get t)
          | None => None
          end).
  rewrite parse_set_options_ttl. reflexivity.
Qed.

(** The command of [setdefault] is never refused: its [EX] is at
    least 1. *)
Lemma setdefault_accepted (d : ValkeyDict) (k v : string) (nx get : bool) :
  Store.refuses (Store.SET k v nx get (setdefault_ttl d)) = false.
Proof.
  unfold setdefault_ttl. destruct (preserve_expiration d); [reflexivity|].
  destruct (expire d) as [e|]; [|reflexivity].
  cbn [Store.refuses]. apply Z.leb_gt. lia.
Qed.

Lemma setdefault_eq (w : world) (key default_value : PyValue) :
  setdefault R key default_value w
  = let cmd := setdefault_command R (self w) key default_value in
    let k := _format_key (self w) key in
    match server w !! k with
    | None =>
        (World (self w)
               (<[k := Store.Entry (_format_value R default_value)
                         match setdefault_ttl (self w) with
                         | Store.EX n => Some n
                         | _ => None
                         end]> (server w))
               (trips w ++ [Single cmd]),
         Ok default_value)
    | Some e =>
        (World (self w) (server w) (trips w ++ [Single cmd]),
         _transform R (Store.payload e))
    end.
Proof.
  unfold setdefault, bind, get_self.
  pose proof (parse_set_get_command (self w) (_format_key (self w) key)
                (_format_value R default_value)) as Hparse.
  destruct (_create_set_get_command (self w) (_format_key (self w) key)
              (_format_value R default_value)) as [args options].
  simpl in Hparse. unfold get_valkey_execute_command. rewrite Hparse.
  rewrite live_eq. cbv zeta. unfold setdefault_command.
  cbn [Store.apply]. rewrite setdefault_accepted. cbn [andb].
  destruct (server w !! _format_key (self w) key) as [e|] eqn:Hk.
  - rewrite bool_decide_true by eauto. reflexivity.
  - rewrite bool_decide_false by (intros [? ?]; discriminate).
    cbn [fst snd Store.value_reply Client.parse_response].
    destruct (setdefault_ttl (self w)); reflexivity.
Qed.

Lemma get_present (w : world) (key default : PyValue) (e : Store.entry) :
  server w !! _format_key (self w) key = Some e →
  snd (get R key default w) = _transform R (Store.payload e).
Proof.
  intros Hk. unfold get, bind. rewrite (_load_present R w key e Hk).
  destruct (_transform R (Store.payload e)); reflexivity.
Qed.

(** C8. On an absent key [setdefault] returns the default it was given,
    as given: the value is encoded for the store but what comes back to
    the caller has not been through [_transform].  A [get] that follows
    returns the decoded envelope, so the two agree exactly when decoding
    the encoded default gives the default back.  On a present key
    [setdefault] returns the decoded stored envelope. *)
Theorem setdefault_returns_default_as_given (w : world) (key default_value : PyValue) :
  let k := _format_key (self w) key in
  let w' := fst (setdefault R key default_value w) in
  (server w !! k = None →
     snd (setdefault R key default_value w) = Ok default_value
     ∧ ∀ other,
         snd (get R key other w') = _transform R (_format_value R default_value)
         ∧ (snd (get R key other w') = snd (setdefault R key default_value w)
            ↔ _transform R (_format_value R default_value) = Ok default_value))
  ∧ (∀ e, server w !! k = Some e →
       snd (setdefault R key default_value w) = _transform R (Store.payload e)).
Proof.
  intros k w'. subst k w'. rewrite setdefault_eq. cbv zeta. split.
  - intros Hnone. rewrite Hnone. simpl. split; [reflexivity|].
    intros other.
    match goal with
    | |- context [get R key other ?w1] =>
        assert (Hget : snd (get R key other w1)
                       = _transform R (_format_value R default_value))
    end.
    { apply (get_present _ key other
               (Store.Entry (_format_value R default_value)
                  match setdefault_ttl (self w) with
                  | Store.EX n => Some n
                  | _ => None
                  end)).
      simpl. apply lookup_insert_eq. }
    rewrite Hget. split; [reflexivity | tauto].
  - intros e He. rewrite He. reflexivity.
Qed.

End SetDefault.

(** An instance of a class the registry has no decoder for: [setdefault]
    hands the object back, a later [get] yields its text. *)
Lemma setdefault_returns_default_as_given_witness :
  let R := TypeManagement.builtin in
  let w := new_world (init "main" None false false) in
  let point := VObj "Point" "(1, 2)" None in
  snd (setdefault R (VStr "p") point w) = Ok point
  ∧ snd (get R (VStr "p") VNone (fst (setdefault R (VStr "p") point w)))
    = Ok (VStr "(1, 2)").
Proof.
  intros R w point.
  destruct (setdefault_returns_default_as_given R w (VStr "p") point) as [Habsent _].
  destruct (Habsent eq_refl) as [Hret Hget].
  split; [exact Hret|].
  destruct (Hget VNone) as [H _]. rewrite H. reflexivity.
Defined.

(** With [preserve_expiration] set and the key absent, a plain store
    sends [EX] and [setdefault] sends [KEEPTTL]: the key [setdefault]
    creates has no TTL. *)
Example setdefault_preserve_ex :
  let R := TypeManagement.builtin in
  let w := new_world (init "main" (Some (ExpInt 5)) true false) in
  last_ttl (trips (fst (__setitem__ R (VStr "a") (VStr "x") w))) = Some (Store.EX 5)
  ∧ last_ttl (trips (fst (setdefault R (VStr "a") (VStr "x") w))) = Some Store.KEEPTTL
  ∧ Store.ttl <$> server (fst (setdefault R (VStr "a") (VStr "x") w)) !! "main:a"
    = Some None.
Proof. vm_compute. repeat split; reflexivity. Qed.

Section SetDefaultCommand.

Context (R : registry).

(** X28. [setdefault] sends a single command, [SET key value NX
    GET] followed by the words of its TTL argument; whenever
    [preserve_expiration] is off or the key exists, that argument is the
    one of the plain store with its seconds raised to at least 1.  On a
    present key the decoded stored envelope is returned and the store is
    left as it is; on an absent key the envelope of the default is stored
    and the default returned; a second [setdefault] then returns the
    decoding of that first envelope, which is the first value whenever
    that value survives encoding and decoding. *)
Theorem setdefault_single_conditional_command (w : world) (key value : PyValue) :
  let d := self w in
  let k := _format_key d key in
  let envelope := _format_value R value in
  let w' := fst (setdefault R key value w) in
  fst (_create_set_get_command d k envelope)
    = ["SET"; k; envelope; "NX"; "GET"] ++ ttl_words (setdefault_ttl d)
  ∧ trips w' = trips w ++ [Single (Store.SET k envelope true true (setdefault_ttl d))]
  ∧ (preserve_expiration d = false ∨ key_exists w k = true →
     setdefault_ttl d = clamp_ttl (spec_plain_store_ttl d (key_exists w k)))
  ∧ (∀ e, server w !! k = Some e →
       snd (setdefault R key value w) = _transform R (Store.payload e)
       ∧ server w' = server w)
  ∧ (server w !! k = None →
       snd (setdefault R key value w) = Ok value
       ∧ Store.payload <$> server w' !! k = Some envelope
       ∧ ∀ other,
           snd (setdefault R key other w') = _transform R envelope
           ∧ server (fst (setdefault R key other w')) = server w'
           ∧ (_transform R envelope = Ok value →
              snd (setdefault R key other w') = Ok value)).
Proof.
  intros d k envelope w'. subst d k envelope w'.
  rewrite (_create_set_get_command_shape (self w)).
  rewrite (setdefault_eq R w key value). cbv zeta.
  split; [reflexivity|]. split.
  { destruct (server w !! _format_key (self w) key); reflexivity. }
  split.
  { unfold setdefault_ttl, spec_plain_store_ttl.
    intros [-> | ->]; simpl.
    - destruct (expire (self w)); reflexivity.
    - destruct (preserve_expiration (self w)); simpl; [reflexivity|].
      destruct (expire (self w)); reflexivity. }
  split.
  - intros e He. rewrite He. split; reflexivity.
  - intros Hnone. rewrite Hnone. simpl.
    split; [reflexivity|]. split; [rewrite lookup_insert_eq; reflexivity|].
    intros other. rewrite setdefault_eq. cbv zeta. simpl.
    rewrite lookup_insert_eq. simpl.
    split; [reflexivity|]. split; [reflexivity|]. auto.
Qed.

(** C6. With [preserve_expiration] set and an [expire] configured,
    [setdefault] on an absent key sends [SET key value NX GET KEEPTTL]:
    [_create_set_get_command] decides on [preserve_expiration] alone and
    never asks whether the key exists, so the new key is stored with no
    TTL at all.  The plain store of the same key and value in the same
    world asks first and sends [EX] with the configured [expire].  The
    claim has [setdefault] take the decision of the plain store. *)
Theorem setdefault_new_key_gets_no_ttl (w : world) (key value : PyValue) (e : expire_t) :
  preserve_expiration (self w) = true →
  expire (self w) = Some e →
  server w !! _format_key (self w) key = None →
  let k := _format_key (self w) key in
  let envelope := _format_value R value in
  let w' := fst (setdefault R key value w) in
  trips w' = trips w ++ [Single (Store.SET k envelope true true Store.KEEPTTL)]
  ∧ snd (setdefault R key value w) = Ok value
  ∧ server w' !! k = Some (Store.Entry envelope None)
  ∧ plain_store_cmd w k envelope
    = Store.SET k envelope false false (Store.EX (Client.ex_seconds e))
  ∧ (valkey (self w) = Some Live →
     last (trips (fst (_store_set k envelope w)))
     = Some (Single (Store.SET k envelope false false (Store.EX (Client.ex_seconds e))))).
Proof.
  intros Hp He Hnone. cbv zeta.
  assert (Hcmd : plain_store_cmd w (_format_key (self w) key) (_format_value R value)
                 = Store.SET (_format_key (self w) key) (_format_value R value)
                     false false (Store.EX (Client.ex_seconds e))).
  { unfold plain_store_cmd, spec_plain_store_ttl, key_exists.
    rewrite Hnone, He, bool_decide_false by (intros [? ?]; discriminate).
    rewrite andb_false_r. reflexivity. }
  rewrite (setdefault_eq R w key value). cbv zeta. rewrite Hnone.
  unfold setdefault_command, setdefault_ttl. rewrite Hp.
  cbn [fst snd trips server].
  split; [reflexivity|]. split; [reflexivity|].
  split; [apply lookup_insert_eq|]. split; [exact Hcmd|].
  intros Hlive. rewrite (_store_set_live w _ _ Hlive). cbn [fst trips].
  rewrite Hcmd, app_assoc. apply last_snoc.
Qed.

End SetDefaultCommand.

(** A text survives encoding and decoding with the built-in registry. *)
Lemma builtin_str_round_trip (s : string) :
  _transform TypeManagement.builtin (_format_value TypeManagement.builtin (VStr s))
  = Ok (VStr s).
Proof. reflexivity. Qed.

Lemma builtin_int_round_trip (z : Z) :
  _transform TypeManagement.builtin (_format_value TypeManagement.builtin (VInt z))
  = Ok (VInt z).
Proof.
  change (TypeManagement.decode_int (PyStr.of_Z z) = Ok (VInt z)).
  unfold TypeManagement.decode_int. rewrite to_Z_of_Z. reflexivity.
Qed.

(** [setdefault("a", "x")] on an absent key returns ["x"] and the TTL is
    the configured [expire]; [setdefault("a", "y")] then returns ["x"]. *)
Example setdefault_twice_ex :
  let R := TypeManagement.builtin in
  let w := new_world (init "t" (Some (ExpInt 3600)) false false) in
  let w1 := fst (setdefault R (VStr "a") (VStr "x") w) in
  snd (setdefault R (VStr "a") (VStr "x") w) = Ok (VStr "x")
  ∧ snd (get_ttl (VStr "a") w1) = Ok (Some 3600)
  ∧ snd (setdefault R (VStr "a") (VStr "y") w1) = Ok (VStr "x")
  ∧ server (fst (setdefault R (VStr "a") (VStr "y") w1)) = server w1.
Proof. vm_compute. repeat split; reflexivity. Qed.

(** ** Prefix-keyed operations *)

Lemma glob_literal_prefix (p rest s : string) :
  glob_free p = true →
  Store.glob (p +:+ rest) (p +:+ s) = Store.glob rest s.
Proof.
  induction p as [|c p IH]; intros Hfree.
  - reflexivity.
  - simpl in Hfree. rewrite !andb_true_iff, !negb_true_iff in Hfree.
    destruct Hfree as [[[[Hstar Hq] _] _] Hp].
    rewrite !append_cons. cbn [Store.glob]. rewrite Hstar, Hq, Ascii.eqb_refl.
    simpl. apply IH, Hp.
Qed.

Lemma rfind_append (c : ascii) (a b : string) :
  0 <= PyStr.rfind c b →
  PyStr.rfind c (a +:+ b) = PyStr.len a + PyStr.rfind c b.
Proof.
  intros Hb. induction a as [|x a IH].
  - rewrite append_nil. change (PyStr.len "") with 0. lia.
  - rewrite append_cons. cbn [PyStr.rfind]. rewrite IH.
    pose proof (len_nonneg a).
    destruct (Z.leb_spec 0 (PyStr.len a + PyStr.rfind c b)); [|lia].
    unfold PyStr.len. simpl String.length. lia.
Qed.

Lemma drop_append (a b : string) (n : nat) :
  PyStr.drop (String.length a + n) (a +:+ b) = PyStr.drop n b.
Proof.
  induction a as [|x a IH].
  - reflexivity.
  - rewrite append_cons. simpl. exact IH.
Qed.

Lemma slice_from_append (a b : string) (n : Z) :
  0 <= n →
  PyStr.slice_from (PyStr.len a + n) (a +:+ b) = PyStr.slice_from n b.
Proof.
  intros Hn. unfold PyStr.slice_from, PyStr.len.
  replace (Z.to_nat (Z.of_nat (String.length a) + n))
    with (String.length a + Z.to_nat n)%nat by lia.
  apply drop_append.
Qed.

(** Parsing a formatted key gives the key back. *)
Lemma _parse_key_format_key (d : ValkeyDict) (key : PyValue) :
  _parse_key d (_format_key d key) = py_str key.
Proof.
  unfold _parse_key, _format_key.
  rewrite slice_from_append by lia. reflexivity.
Qed.

Lemma filter_Permutation_bool {A} (f : A → bool) (l l' : list A) :
  l ≡ₚ l' → List.filter f l ≡ₚ List.filter f l'.
Proof.
  induction 1 as [|x l l' _ IH|x y l|l l' l'' _ IH1 _ IH2]; simpl.
  - reflexivity.
  - destruct (f x); [constructor|]; exact IH.
  - destruct (f x), (f y); try reflexivity. apply perm_swap.
  - etransitivity; eassumption.
Qed.

Section MultiKey.

Context (R : registry).

Lemma _scan_keys_eq (search_term : string) (full_scan : bool) (w : world) :
  _scan_keys search_term full_scan w
  = (World (self w) (server w)
           (trips w ++ [Single (Store.SCAN (_create_iter_query (self w) search_term)
                                  (if full_scan then None else Some (_batch_size (self w))))]),
     Ok (Store.scan_keys (_create_iter_query (self w) search_term) (server w))).
Proof. reflexivity. Qed.

Lemma multi_dict_live (key : string) (w : world) :
  valkey (self w) = Some Live →
  snd (multi_dict R key w)
  = multi_dict_of R (server w)
      (Store.scan_keys (_create_iter_query (self w) key) (server w)).
Proof.
  intros Hv. unfold multi_dict, bind. rewrite _scan_keys_eq.
  unfold multi_dict_of.
  destruct (Store.scan_keys (_create_iter_query (self w) key) (server w))
    as [|first rest]; [reflexivity|].
  rewrite via_valkey_eq. simpl. rewrite Hv. rewrite live_eq. simpl.
  unfold lift, ret.
  destruct (map_result (_transform R) _); reflexivity.
Qed.

(** A scan that finds nothing: the three operations return their empty
    result, with nothing fetched or deleted. *)
Lemma multi_empty (key : string) (w : world) :
  Store.scan_keys (_create_iter_query (self w) key) (server w) = [] →
  snd (multi_get R key w) = Ok []
  ∧ snd (multi_dict R key w) = Ok ∅
  ∧ snd (multi_del key w) = Ok (Store.RInt 0)
  ∧ server (fst (multi_del key w)) = server w.
Proof.
  intros Hscan.
  unfold multi_get, multi_dict, multi_del, bind.
  rewrite !_scan_keys_eq, Hscan. repeat split; reflexivity.
Qed.

End MultiKey.

Lemma after_scenario_self (ns : string) :
  self (after_scenario ns) = init ns None false false.
Proof. reflexivity. Qed.

Lemma after_scenario_server (ns : string) :
  server (after_scenario ns)
  = <[ns +:+ ":" +:+ "goobar" := Store.Entry "int:3" None]>
      (<[ns +:+ ":" +:+ "foobaz" := Store.Entry "int:2" None]>
         (<[ns +:+ ":" +:+ "foobar" := Store.Entry "int:1" None]> ∅)).
Proof. reflexivity. Qed.

Lemma formatted_keys_differ (ns u v : string) :
  u ≠ v → ns +:+ ":" +:+ u ≠ ns +:+ ":" +:+ v.
Proof.
  intros Hne H. apply (inj (String.append ns)) in H.
  apply (inj (String.append ":")) in H. contradiction.
Qed.

Lemma strip_to_last_colon (ns u v : string) :
  PyStr.rfind ":" u = -1 →
  PyStr.slice_from (PyStr.rfind ":" (ns +:+ ":" +:+ u) + 1) (ns +:+ ":" +:+ v) = v.
Proof.
  intros Hu.
  assert (H0 : PyStr.rfind ":" (":" +:+ u) = 0).
  { rewrite append_cons, append_nil. cbn [PyStr.rfind]. rewrite Hu. reflexivity. }
  rewrite rfind_append by lia. rewrite H0.
  replace (PyStr.len ns + 0 + 1) with (PyStr.len ns + 1) by lia.
  rewrite slice_from_append by lia. reflexivity.
Qed.

Lemma scenario_scan (ns : string) :
  glob_free ns = true →
  let found := Store.scan_keys (_create_iter_query (init ns None false false) "foo")
                 (server (after_scenario ns)) in
  found = [ns +:+ ":" +:+ "foobar"; ns +:+ ":" +:+ "foobaz"]
  ∨ found = [ns +:+ ":" +:+ "foobaz"; ns +:+ ":" +:+ "foobar"].
Proof.
  intros Hfree found. subst found.
  apply Permutation_length_2_inv.
  rewrite after_scenario_server. unfold Store.scan_keys.
  assert (Hperm : map fst (map_to_list
            (<[ns +:+ ":" +:+ "goobar" := Store.Entry "int:3" None]>
               (<[ns +:+ ":" +:+ "foobaz" := Store.Entry "int:2" None]>
                  (<[ns +:+ ":" +:+ "foobar" := Store.Entry "int:1" None]>
                     (∅ : gmap string Store.entry)))))
          ≡ₚ [ns +:+ ":" +:+ "goobar"; ns +:+ ":" +:+ "foobaz"; ns +:+ ":" +:+ "foobar"]).
  { rewrite !map_to_list_insert, map_to_list_empty; [reflexivity|..].
    - apply lookup_empty.
    - rewrite lookup_insert_ne by (apply formatted_keys_differ; discriminate).
      apply lookup_empty.
    - rewrite !lookup_insert_ne by (apply formatted_keys_differ; discriminate).
      apply lookup_empty. }
  apply (filter_Permutation_bool
           (Store.glob (_create_iter_query (init ns None false false) "foo"))) in Hperm.
  assert (Hglob : ∀ u, Store.glob (_create_iter_query (init ns None false false) "foo")
                         (ns +:+ ":" +:+ u)
                       = Store.glob ":foo*" (":" +:+ u)).
  { intros u. unfold _create_iter_query. cbn [namespace init].
    apply glob_literal_prefix, Hfree. }
  cbn [List.filter] in Hperm. rewrite !Hglob in Hperm.
  change (Store.glob ":foo*" (":" +:+ "goobar")) with false in Hperm.
  change (Store.glob ":foo*" (":" +:+ "foobaz")) with true in Hperm.
  change (Store.glob ":foo*" (":" +:+ "foobar")) with true in Hperm.
  rewrite Hperm. apply perm_swap.
Qed.

Lemma scenario_lookup (ns : string) :
  let st := server (after_scenario ns) in
  Store.payload <$> st !! (ns +:+ ":" +:+ "foobar") = Some "int:1"
  ∧ Store.payload <$> st !! (ns +:+ ":" +:+ "foobaz") = Some "int:2".
Proof.
  cbv zeta. rewrite after_scenario_server. split.
  - rewrite !lookup_insert_ne by (apply formatted_keys_differ; discriminate).
    rewrite lookup_insert_eq. reflexivity.
  - rewrite lookup_insert_ne by (apply formatted_keys_differ; discriminate).
    rewrite lookup_insert_eq. reflexivity.
Qed.

Lemma scenario_multi_dict_of (ns : string) (found : list string) :
  found = [ns +:+ ":" +:+ "foobar"; ns +:+ ":" +:+ "foobaz"]
  ∨ found = [ns +:+ ":" +:+ "foobaz"; ns +:+ ":" +:+ "foobar"] →
  multi_dict_of TypeManagement.builtin (server (after_scenario ns)) found
  = Ok {["foobar" := VInt 1; "foobaz" := VInt 2]}.
Proof.
  destruct (scenario_lookup ns) as [H1 H2].
  intros [-> | ->]; unfold multi_dict_of; cbn [map];
    rewrite H1, H2; cbn [omap mbind option_bind id];
    rewrite !strip_to_last_colon by reflexivity;
    vm_compute; reflexivity.
Qed.

(** C5, as stated, fails: in the scenario [multi_dict("foo")] is not the
    mapping with the keys ["bar"] and ["baz"]. *)
Lemma multi_dict_keeps_search_prefix :
  snd (multi_dict TypeManagement.builtin "foo" (after_scenario "main"))
  ≠ Ok {["bar" := VInt 1; "baz" := VInt 2]}.
Proof.
  intros H.
  apply (f_equal (fun r => match r with
                           | Ok m => m !! "bar"
                           | Raise _ => None
                           end)) in H.
  vm_compute in H. discriminate H.
Qed.

(** C5, amended. In the scenario, under any namespace without glob
    characters, [multi_dict("foo")] returns the two keys that extend
    ["foo"] with their values, the keys stripped of the namespace and its
    colon only: ["foobar"] and ["foobaz"].  And whenever the scan of a
    prefix finds no key, [multi_get], [multi_dict] and [multi_del] return
    the empty list, the empty mapping and 0 without raising. *)
Theorem multi_dict_strips_namespace_only (ns : string) :
  glob_free ns = true →
  snd (multi_dict TypeManagement.builtin "foo" (after_scenario ns))
    = Ok {["foobar" := VInt 1; "foobaz" := VInt 2]}
  ∧ ∀ (R : registry) (key : string) (w : world),
      Store.scan_keys (_create_iter_query (self w) key) (server w) = [] →
      snd (multi_get R key w) = Ok []
      ∧ snd (multi_dict R key w) = Ok ∅
      ∧ snd (multi_del key w) = Ok (Store.RInt 0).
Proof.
  intros Hfree. split.
  - rewrite multi_dict_live by reflexivity.
    apply scenario_multi_dict_of. rewrite after_scenario_self.
    exact (scenario_scan ns Hfree).
  - intros R key w Hscan.
    destruct (multi_empty R key w Hscan) as (Hg & Hd & Hdel & _). auto.
Qed.

Lemma multi_dict_strips_namespace_only_witness :
  snd (multi_dict TypeManagement.builtin "foo" (after_scenario "t"))
    = Ok {["foobar" := VInt 1; "foobaz" := VInt 2]}
  ∧ snd (multi_dict TypeManagement.builtin "zzz" (after_scenario "t")) = Ok ∅.
Proof.
  destruct (multi_dict_strips_namespace_only "t" eq_refl) as [Hfoo Hempty].
  split; [exact Hfoo|].
  destruct (Hempty TypeManagement.builtin "zzz" (after_scenario "t") eq_refl)
    as (_ & Hd & _).
  exact Hd.
Defined.

Lemma setdefault_single_conditional_command_witness :
  let R := TypeManagement.builtin in
  let w := new_world (init "t" (Some (ExpInt 3600)) false false) in
  let w' := fst (setdefault R (VStr "a") (VStr "x") w) in
  trips w' = [Single (Store.SET "t:a" "str:x" true true (Store.EX 3600))]
  ∧ snd (setdefault R (VStr "a") (VStr "x") w) = Ok (VStr "x")
  ∧ snd (setdefault R (VStr "a") (VStr "y") w') = Ok (VStr "x").
Proof.
  intros R w w'.
  destruct (setdefault_single_conditional_command R w (VStr "a") (VStr "x"))
    as (_ & Htrips & _ & _ & Habsent).
  destruct (Habsent eq_refl) as (Hret & _ & Hsecond).
  split; [exact Htrips|]. split; [exact Hret|].
  destruct (Hsecond (VStr "y")) as (_ & _ & Hsame).
  exact (Hsame (builtin_str_round_trip "x")).
Defined.

Lemma setdefault_new_key_gets_no_ttl_witness :
  let R := TypeManagement.builtin in
  let w := new_world (init "main" (Some (ExpInt 5)) true false) in
  let w' := fst (setdefault R (VStr "a") (VStr "x") w) in
  trips w' = [Single (Store.SET "main:a" "str:x" true true Store.KEEPTTL)]
  ∧ server w' !! "main:a" = Some (Store.Entry "str:x" None)
  ∧ last (trips (fst (_store_set "main:a" "str:x" w)))
    = Some (Single (Store.SET "main:a" "str:x" false false (Store.EX 5))).
Proof.
  intros R w w'.
  destruct (setdefault_new_key_gets_no_ttl R w (VStr "a") (VStr "x") (ExpInt 5)
              eq_refl eq_refl eq_refl) as (Htrips & _ & Hstored & _ & Hplain).
  split; [exact Htrips|]. split; [exact Hstored | exact (Hplain eq_refl)].
Defined.

(** * Further properties *)

(** ** Envelopes *)

Lemma split_first_append (t p : string) :
  colon_free t = true →
  PyStr.split_first ":" (t +:+ ":" +:+ p) = Some (t, p).
Proof.
  induction t as [|c t IH]; intros Hfree.
  - reflexivity.
  - simpl in Hfree. apply andb_true_iff in Hfree as [Hc Ht].
    apply negb_true_iff in Hc.
    rewrite append_cons. cbn [PyStr.split_first]. rewrite Hc, (IH Ht). reflexivity.
Qed.

Lemma split_first_colon_free (s : string) :
  colon_free s = true → PyStr.split_first ":" s = None.
Proof.
  induction s as [|c s IH]; intros Hfree.
  - reflexivity.
  - simpl in Hfree. apply andb_true_iff in Hfree as [Hc Hs].
    apply negb_true_iff in Hc.
    cbn [PyStr.split_first]. rewrite Hc, (IH Hs). reflexivity.
Qed.

Section Envelope.

Context (R : registry).

(** X1. Decoding an envelope [_format_value] made hands the whole payload,
    colons included, to the decoder of the type of the value: the
    envelope is split at its first colon, and a type name has none.  A
    text without any colon is no envelope: [_transform] raises. *)
Theorem transform_format_value (value : PyValue) :
  colon_free (type_name value) = true →
  _transform R (_format_value R value)
  = decoder_for R (type_name value) (encoded_payload R value)
  ∧ ∀ text, colon_free text = true → is_ok (_transform R text) = false.
Proof.
  intros Hfree. split.
  - unfold _transform, _format_value, decoder_for, encoded_payload.
    rewrite split_first_append by assumption.
    destruct (decoding_registry R !! type_name value); reflexivity.
  - intros text Htext. unfold _transform.
    rewrite split_first_colon_free by assumption. reflexivity.
Qed.

End Envelope.

Lemma transform_format_value_witness :
  _transform TypeManagement.builtin
    (_format_value TypeManagement.builtin (VStr "a:b:c")) = Ok (VStr "a:b:c")
  ∧ is_ok (_transform TypeManagement.builtin "nocolon") = false.
Proof.
  destruct (transform_format_value TypeManagement.builtin (VStr "a:b:c") eq_refl)
    as [Hround Hbare].
  split; [exact Hround | exact (Hbare "nocolon" eq_refl)].
Defined.

(** ** Reading leaves everything as it is *)

Lemma read_only_ret {A} (a : A) : read_only (ret a).
Proof. intros w. split; reflexivity. Qed.

Lemma read_only_raise {A} (e : exn) : read_only (@raise A e).
Proof. intros w. split; reflexivity. Qed.

Lemma read_only_lift {A} (r : outcome A) : read_only (lift r).
Proof. intros w. split; reflexivity. Qed.

Lemma read_only_get_self : read_only get_self.
Proof. intros w. split; reflexivity. Qed.

Lemma read_only_bind {A B} (m : M A) (k : A → M B) :
  read_only m → (∀ a, read_only (k a)) → read_only (bind m k).
Proof.
  intros Hm Hk w. unfold bind. destruct (Hm w) as [Hs Hd].
  destruct (m w) as [w1 [a|e]]; simpl in *.
  - destruct (Hk a w1) as [Hs' Hd']. rewrite Hs', Hd'. auto.
  - auto.
Qed.

Lemma read_only_try_except {A} (m : M A) (h : exn → M A) :
  read_only m → (∀ e, read_only (h e)) → read_only (try_except m h).
Proof.
  intros Hm Hh w. unfold try_except. destruct (Hm w) as [Hs Hd].
  destruct (m w) as [w1 [a|e]]; simpl in *.
  - auto.
  - destruct (Hh e w1) as [Hs' Hd']. rewrite Hs', Hd'. auto.
Qed.

Lemma read_only_get_valkey (c : Store.command) :
  is_query c = true → read_only (get_valkey c).
Proof.
  intros Hq w. unfold get_valkey. rewrite live_eq. simpl.
  destruct c; try discriminate; split; reflexivity.
Qed.

Ltac read_only_step :=
  match goal with
  | |- read_only (bind _ _) => apply read_only_bind; [|intros ?]
  | |- read_only (ret _) => apply read_only_ret
  | |- read_only (raise _) => apply read_only_raise
  | |- read_only (lift _) => apply read_only_lift
  | |- read_only get_self => apply read_only_get_self
  | |- read_only (get_valkey _) => apply read_only_get_valkey; reflexivity
  | |- read_only (if ?b then _ else _) => destruct b
  | |- read_only (match ?x with _ => _ end) => destruct x
  end.

Ltac read_only_auto := repeat read_only_step.

Section Reads.

Context (R : registry).

Lemma read_only__load (k : PyValue) : read_only (_load R k).
Proof. unfold _load. read_only_auto. Qed.

Lemma read_only__getitem__ (k : PyValue) : read_only (__getitem__ R k).
Proof. unfold __getitem__. read_only_auto; apply read_only__load. Qed.

Lemma read_only__scan_keys (term : string) (full : bool) :
  read_only (_scan_keys term full).
Proof. unfold _scan_keys. read_only_auto. Qed.

Lemma read_only_items_loop (to_rm : Z) (found : list string) :
  read_only (items_loop R to_rm found).
Proof.
  induction found as [|item rest IH]; simpl.
  - apply read_only_ret.
  - apply read_only_bind.
    + unfold skip_key_error. apply read_only_try_except.
      * apply read_only_bind; [apply read_only__getitem__ | intros; apply read_only_ret].
      * intros e. destruct e; first [apply read_only_ret | apply read_only_raise].
    + intros here. apply read_only_bind; [exact IH | intros; apply read_only_ret].
Qed.

Lemma read_only_values_loop (to_rm : Z) (found : list string) :
  read_only (values_loop R to_rm found).
Proof.
  induction found as [|item rest IH]; simpl.
  - apply read_only_ret.
  - apply read_only_bind.
    + unfold skip_key_error. apply read_only_try_except.
      * apply read_only_bind; [apply read_only__getitem__ | intros; apply read_only_ret].
      * intros e. destruct e; first [apply read_only_ret | apply read_only_raise].
    + intros here. apply read_only_bind; [exact IH | intros; apply read_only_ret].
Qed.

(** X2. [__getitem__], [get], [__contains__], [__len__], [keys], [items],
    [values] and [to_dict] only read: whatever the state of the
    instance, also inside a pipeline scope, they leave the store and
    every attribute of the instance as they found them. *)
Theorem reads_change_nothing (k default : PyValue) :
  read_only (__getitem__ R k)
  ∧ read_only (get R k default)
  ∧ read_only (__contains__ R k)
  ∧ read_only __len__
  ∧ read_only keys
  ∧ read_only (items R)
  ∧ read_only (values R)
  ∧ read_only (to_dict R).
Proof.
  assert (Hitems : read_only (items R)).
  { unfold items. read_only_auto.
    - apply read_only__scan_keys.
    - apply read_only_items_loop. }
  split; [apply read_only__getitem__|].
  split; [unfold get; read_only_auto; apply read_only__load|].
  split; [unfold __contains__; read_only_auto; apply read_only__load|].
  split; [unfold __len__; read_only_auto; apply read_only__scan_keys|].
  split; [unfold keys; read_only_auto; apply read_only__scan_keys|].
  split; [exact Hitems|].
  split.
  - unfold values. read_only_auto;
      [apply read_only__scan_keys | apply read_only_values_loop].
  - unfold to_dict. read_only_auto. exact Hitems.
Qed.

End Reads.

(** ** Storing, looking up, deleting and taking one item *)

Lemma apply_plain_set (k v : string) (t : Store.ttl_arg) (st : Store.store) :
  Store.refuses (Store.SET k v false false t) = false →
  ∃ ttl, fst (Store.apply (Store.SET k v false false t) st) = <[k := Store.Entry v ttl]> st.
Proof. intros Hacc. cbn [Store.apply]. rewrite Hacc. simpl. eexists. reflexivity. Qed.

Lemma expire_accepted_item (R : registry) (d : ValkeyDict) (st : Store.store)
    (kv : PyValue * PyValue) :
  expire_accepted d = true → Store.refuses (item_command R d st kv) = false.
Proof. intros H. unfold item_command. apply expire_accepted_plain, H. Qed.

Lemma del_one (k : string) (st : Store.store) :
  Store.apply (Store.DEL [k]) st
  = (delete k st, Store.RInt (if bool_decide (is_Some (st !! k)) then 1 else 0)).
Proof.
  simpl. destruct (st !! k) as [e|] eqn:Hk.
  - rewrite bool_decide_true by eauto. reflexivity.
  - rewrite bool_decide_false by (intros [? ?]; discriminate).
    rewrite delete_id by assumption. reflexivity.
Qed.

Section Items.

Context (R : registry).

Lemma _load_eq (w : world) (k : PyValue) :
  _load R k w
  = (World (self w) (server w)
           (trips w ++ [Single (Store.GET (_format_key (self w) k))]),
     match server w !! _format_key (self w) k with
     | None => Ok (false, VNone)
     | Some e => match _transform R (Store.payload e) with
                 | Ok v => Ok (true, v)
                 | Raise x => Raise x
                 end
     end).
Proof.
  destruct (server w !! _format_key (self w) k) as [e|] eqn:Hk.
  - apply _load_present, Hk.
  - apply _load_absent, Hk.
Qed.

Lemma lookup_eq (w : world) (k default : PyValue) :
  let found := server w !! _format_key (self w) k in
  snd (get R k default w)
    = match found with
      | None => Ok default
      | Some e => _transform R (Store.payload e)
      end
  ∧ snd (__getitem__ R k w)
    = match found with
      | None => Raise (KeyError k)
      | Some e => _transform R (Store.payload e)
      end
  ∧ snd (__contains__ R k w)
    = match found with
      | None => Ok false
      | Some e => match _transform R (Store.payload e) with
                  | Ok _ => Ok true
                  | Raise x => Raise x
                  end
      end.
Proof.
  cbv zeta. unfold get, __getitem__, __contains__, bind. rewrite !_load_eq.
  destruct (server w !! _format_key (self w) k) as [e|]; simpl.
  - destruct (_transform R (Store.payload e)); repeat split; reflexivity.
  - repeat split; reflexivity.
Qed.

(** X3. What a lookup finds: the decoded envelope of a key the store holds;
    for a key it does not hold, [get] returns the default, [__contains__]
    is false and only [__getitem__] raises.  All three decode what they
    find, so a stored text that does not decode makes all of them raise,
    [__contains__] included. *)
Theorem lookup_outcomes (w : world) (k default : PyValue) :
  let found := server w !! _format_key (self w) k in
  snd (get R k default w)
    = match found with
      | None => Ok default
      | Some e => _transform R (Store.payload e)
      end
  ∧ snd (__getitem__ R k w)
    = match found with
      | None => Raise (KeyError k)
      | Some e => _transform R (Store.payload e)
      end
  ∧ snd (__contains__ R k w)
    = match found with
      | None => Ok false
      | Some e => match _transform R (Store.payload e) with
                  | Ok _ => Ok true
                  | Raise x => Raise x
                  end
      end.
Proof. apply lookup_eq. Qed.

(** What a store of a valid item does on the live connection. *)
Lemma __setitem__live (w : world) (k value : PyValue) :
  valkey (self w) = Some Live →
  valid_item (self w) (k, value) →
  let cmd := item_command R (self w) (server w) (k, value) in
  __setitem__ R k value w
  = (World (self w) (fst (Store.apply cmd (server w)))
           (trips w ++ plain_store_probes w (_format_key (self w) k) ++ [Single cmd]),
     store_outcome cmd).
Proof.
  intros Hlive [Hv Hk]. simpl in Hv, Hk. cbv zeta.
  unfold __setitem__. rewrite (_store_valid R w k value Hv Hk).
  apply (_store_set_live w _ _ Hlive).
Qed.

Lemma __setitem__accepted (w : world) (k value : PyValue) :
  valkey (self w) = Some Live →
  valid_item (self w) (k, value) →
  Store.refuses (item_command R (self w) (server w) (k, value)) = false →
  ∃ ttl,
    __setitem__ R k value w
    = (World (self w)
             (<[_format_key (self w) k := Store.Entry (_format_value R value) ttl]> (server w))
             (trips w ++ plain_store_probes w (_format_key (self w) k)
                ++ [Single (item_command R (self w) (server w) (k, value))]),
       Ok tt).
Proof.
  intros Hlive Hvalid Hacc.
  rewrite (__setitem__live w k value Hlive Hvalid). cbv zeta.
  unfold store_outcome. rewrite Hacc.
  unfold item_command in *. cbn [fst snd] in *.
  destruct (apply_plain_set (_format_key (self w) k) (_format_value R value) _
              (server w) Hacc) as [ttl Httl].
  exists ttl. rewrite Httl. reflexivity.
Qed.

Lemma __setitem__refused (w : world) (k value : PyValue) :
  valkey (self w) = Some Live →
  valid_item (self w) (k, value) →
  Store.refuses (item_command R (self w) (server w) (k, value)) = true →
  __setitem__ R k value w
  = (World (self w) (server w)
           (trips w ++ plain_store_probes w (_format_key (self w) k)
              ++ [Single (item_command R (self w) (server w) (k, value))]),
     Raise (ResponseError Store.invalid_expire)).
Proof.
  intros Hlive Hvalid Href.
  rewrite (__setitem__live w k value Hlive Hvalid). cbv zeta.
  unfold store_outcome. rewrite Href, (apply_refused _ _ Href). reflexivity.
Qed.


(** X5. [del d[k]].  On the live connection the key is gone afterwards; the
    strict flag makes the deletion of an absent key raise [KeyError] with
    the key as given, and without the flag nothing is raised.  On a
    pipeline the deletion is only queued and never raises, strict or not:
    the pipeline it gets back is true. *)
Theorem delitem_outcomes (w : world) (k : PyValue) :
  let d := self w in
  let fk := _format_key d k in
  match valkey d with
  | Some Live =>
      __delitem__ k w
      = (World d (delete fk (server w)) (trips w ++ [Single (Store.DEL [fk])]),
         if raise_key_error_delete d && negb (key_exists w fk)
         then Raise (KeyError k) else Ok tt)
  | Some (Pipe queue) =>
      __delitem__ k w
      = (World (with_handles (Some (Pipe (queue ++ [Store.DEL [fk]]))) (_temp_valkey d) d)
               (server w) (trips w),
         Ok tt)
  | None => is_ok (snd (__delitem__ k w)) = false
  end.
Proof.
  cbv zeta. unfold __delitem__, bind, get_self. rewrite via_valkey_eq.
  destruct (valkey (self w)) as [[|queue]|] eqn:Hv.
  - rewrite live_eq, del_one. cbn [fst snd self]. unfold key_exists.
    destruct (raise_key_error_delete (self w));
      destruct (bool_decide (is_Some (server w !! _format_key (self w) k)));
      reflexivity.
  - cbn [self]. destruct (raise_key_error_delete (self w)); reflexivity.
  - reflexivity.
Qed.

(** X6. [pop].  The key is taken from the store in one command, a single
    [GETDEL] over the live connection and nothing else, whatever
    comes of the value: the decoded envelope is returned when the key was
    there, also when decoding raises; otherwise the default, or [KeyError]
    when there is none.  Afterwards the key is not in the container. *)
Theorem pop_takes_the_key (w : world) (k : PyValue) (default : option PyValue) :
  let fk := _format_key (self w) k in
  let w' := fst (pop R k default w) in
  trips w' = trips w ++ [Single (Store.GETDEL fk)]
  ∧ server w' = delete fk (server w)
  ∧ self w' = self w
  ∧ snd (pop R k default w)
    = match server w !! fk with
      | Some e => _transform R (Store.payload e)
      | None => match default with
                | Some dv => Ok dv
                | None => Raise (KeyError (VStr fk))
                end
      end
  ∧ snd (__contains__ R k w') = Ok false.
Proof.
  cbv zeta.
  assert (Hpop : pop R k default w
    = (World (self w) (delete (_format_key (self w) k) (server w))
             (trips w ++ [Single (Store.GETDEL (_format_key (self w) k))]),
       match server w !! _format_key (self w) k with
       | Some e => _transform R (Store.payload e)
       | None => match default with
                 | Some dv => Ok dv
                 | None => Raise (KeyError (VStr (_format_key (self w) k)))
                 end
       end)).
  { unfold pop, _pop, get_valkey_execute_command, bind, get_self.
    rewrite parse_getdel, live_eq. simpl.
    destruct (server w !! _format_key (self w) k) as [e|]; simpl.
    - unfold lift. reflexivity.
    - destruct default; reflexivity. }
  rewrite Hpop. cbn [fst snd self server trips].
  split; [reflexivity|]. split; [reflexivity|]. split; [reflexivity|].
  split; [reflexivity|].
  match goal with
  | |- snd (__contains__ R k ?w1) = _ =>
      pose proof (lookup_eq w1 k VNone) as (_ & _ & Hc)
  end.
  cbn [self server] in Hc. rewrite lookup_delete_eq in Hc. exact Hc.
Qed.

End Items.


(** ** Enumerating the container *)

Lemma glob_star_all (s : string) : Store.glob "*" s = true.
Proof.
  induction s as [|c s IH].
  - reflexivity.
  - change (Store.glob "*" (String c s)) with (Store.glob "" (String c s) || Store.glob "*" s).
    rewrite IH. apply orb_true_r.
Qed.

Lemma glob_literal_inv (p rest s : string) :
  glob_free p = true →
  Store.glob (p +:+ rest) s = true →
  ∃ y, s = p +:+ y ∧ Store.glob rest y = true.
Proof.
  revert s. induction p as [|c p IH]; intros s Hfree Hglob.
  - exists s. split; [reflexivity | exact Hglob].
  - simpl in Hfree. rewrite !andb_true_iff, !negb_true_iff in Hfree.
    destruct Hfree as [[[[Hstar Hq] _] _] Hp].
    rewrite append_cons in Hglob. cbn [Store.glob] in Hglob.
    rewrite Hstar, Hq in Hglob.
    destruct s as [|a s]; [discriminate|].
    apply andb_true_iff in Hglob as [Hac Hrest].
    apply Ascii.eqb_eq in Hac. subst a.
    destruct (IH s Hp Hrest) as (y & -> & Hy).
    exists y. split; [reflexivity | exact Hy].
Qed.

(** The keys the scan of a whole namespace matches, when the namespace
    has no glob character: those that start with the namespace and a
    colon. *)
Lemma glob_namespace (d : ValkeyDict) (s : string) :
  glob_free (namespace d) = true →
  Store.glob (_create_iter_query d "") s = true
  ↔ ∃ x, s = namespace d +:+ ":" +:+ x.
Proof.
  intros Hfree. unfold _create_iter_query. split.
  - intros Hglob.
    destruct (glob_literal_inv _ _ _ Hfree Hglob) as (y & -> & Hy).
    destruct y as [|a y]; [discriminate|].
    change (Ascii.eqb a ":" && Store.glob "*" y = true) in Hy.
    apply andb_true_iff in Hy as [Ha _]. apply Ascii.eqb_eq in Ha. subst a.
    exists y. reflexivity.
  - intros [x ->]. rewrite glob_literal_prefix by assumption.
    change (Ascii.eqb ":" ":" && Store.glob "*" x = true).
    rewrite glob_star_all. reflexivity.
Qed.

Lemma scan_keys_spec (pattern : string) (st : Store.store) (k : string) :
  k ∈ Store.scan_keys pattern st ↔ is_Some (st !! k) ∧ Store.glob pattern k = true.
Proof.
  unfold Store.scan_keys. rewrite list_elem_of_In, filter_In, <- list_elem_of_In.
  rewrite list_elem_of_fmap. split.
  - intros [([k' e] & -> & Hin) Hglob]. apply elem_of_map_to_list in Hin.
    simpl. split; [eauto | exact Hglob].
  - intros [[e He] Hglob]. split; [|exact Hglob].
    exists (k, e). split; [reflexivity|]. apply elem_of_map_to_list, He.
Qed.

Lemma NoDup_filter_bool {A} (f : A → bool) (l : list A) :
  NoDup l → NoDup (List.filter f l).
Proof.
  induction 1 as [|x l Hx Hnd IH]; simpl.
  - constructor.
  - destruct (f x); [|exact IH].
    constructor; [|exact IH].
    rewrite list_elem_of_In, filter_In, <- list_elem_of_In. tauto.
Qed.

Lemma scan_keys_NoDup (pattern : string) (st : Store.store) :
  NoDup (Store.scan_keys pattern st).
Proof. apply NoDup_filter_bool, NoDup_fst_map_to_list. Qed.

Lemma parse_formatted (d : ValkeyDict) (x : string) :
  PyStr.slice_from (PyStr.len (namespace d) + 1) (namespace d +:+ ":" +:+ x) = x.
Proof. rewrite slice_from_append by lia. reflexivity. Qed.

Section Enumeration.

Context (R : registry).

(** X7. [keys()] and [__len__], for a namespace without glob characters:
    [keys()] lists each key of the container once, namely the keys [x]
    whose formatted key [namespace:x] the store holds, and [__len__] is
    the number of keys listed. *)
Theorem keys_are_the_stored_keys (w : world) :
  glob_free (namespace (self w)) = true →
  ∃ ks : list string,
    snd (keys w) = Ok ks
    ∧ NoDup ks
    ∧ (∀ x, x ∈ ks ↔ is_Some (server w !! (namespace (self w) +:+ ":" +:+ x)))
    ∧ snd (__len__ w) = Ok (Z.of_nat (length ks)).
Proof.
  intros Hfree.
  set (d := self w).
  set (found := Store.scan_keys (_create_iter_query d "") (server w)).
  exists (map (PyStr.slice_from (PyStr.len (namespace d) + 1)) found).
  assert (Hfound : ∀ k, k ∈ found ↔ ∃ x, k = namespace d +:+ ":" +:+ x ∧ is_Some (server w !! k)).
  { intros k. unfold found. rewrite scan_keys_spec, (glob_namespace d k Hfree).
    split.
    - intros [Hs [x ->]]. eauto.
    - intros (x & -> & Hs). eauto. }
  split; [reflexivity|]. split.
  - apply NoDup_fmap_2_strong; [|apply scan_keys_NoDup].
    intros k1 k2 H1 H2 Heq.
    apply Hfound in H1 as (x1 & -> & _). apply Hfound in H2 as (x2 & -> & _).
    rewrite !parse_formatted in Heq. congruence.
  - split.
    + intros x. rewrite list_elem_of_fmap. split.
      * intros (k & -> & Hk). apply Hfound in Hk as (x & -> & Hs).
        rewrite parse_formatted. exact Hs.
      * intros Hs. exists (namespace d +:+ ":" +:+ x).
        rewrite parse_formatted. split; [reflexivity|].
        apply Hfound. eauto.
    + unfold __len__, bind. rewrite _scan_keys_eq. simpl.
      rewrite length_map. reflexivity.
Qed.

End Enumeration.

Lemma keys_are_the_stored_keys_witness :
  ∃ ks, snd (keys (after_scenario "t")) = Ok ks
        ∧ ("foobar" ∈ ks ↔ is_Some (server (after_scenario "t") !! "t:foobar"))
        ∧ snd (__len__ (after_scenario "t")) = Ok (Z.of_nat (length ks)).
Proof.
  destruct (keys_are_the_stored_keys (after_scenario "t") eq_refl)
    as (ks & Hks & _ & Hin & Hlen).
  exists ks. split; [exact Hks|]. split; [exact (Hin "foobar") | exact Hlen].
Defined.

Lemma dict_update_lookup (pairs : list (string * PyValue)) (acc : gmap string PyValue)
    (x : string) (v : PyValue) :
  (∀ y v1 v2, (y, v1) ∈ pairs → (y, v2) ∈ pairs → v1 = v2) →
  dict_update acc pairs !! x = Some v
  ↔ (x, v) ∈ pairs ∨ ((x ∉ pairs.*1) ∧ acc !! x = Some v).
Proof.
  revert acc. induction pairs as [|[y u] pairs IH]; intros acc Hfun.
  - simpl. split.
    + intros H. right. split; [apply not_elem_of_nil | exact H].
    + intros [H|[_ H]]; [inversion H | exact H].
  - change (dict_update acc ((y, u) :: pairs)) with (dict_update (<[y := u]> acc) pairs).
    rewrite IH by (intros z v1 v2 H1 H2; apply (Hfun z); right; assumption).
    change (((y, u) :: pairs).*1) with (y :: pairs.*1).
    rewrite elem_of_cons, not_elem_of_cons. split.
    + intros [H|[Hnot Hacc]]; [left; right; exact H|].
      destruct (decide (y = x)) as [->|Hne].
      * rewrite lookup_insert_eq in Hacc. injection Hacc as ->. left. left. reflexivity.
      * rewrite lookup_insert_ne in Hacc by assumption. right. split; [split|]; auto.
    + intros [[Heq|H]|[[Hne Hnot] Hacc]].
      * injection Heq as -> ->.
        destruct (decide (y ∈ pairs.*1)) as [Hin|Hnot].
        -- apply list_elem_of_fmap in Hin as ([y' u'] & Hy & Hin). simpl in Hy. subst y'.
           left. rewrite (Hfun y u u'); [exact Hin | left | right; exact Hin].
        -- right. split; [exact Hnot | apply lookup_insert_eq].
      * left. exact H.
      * right. split; [exact Hnot|]. rewrite lookup_insert_ne by congruence. exact Hacc.
Qed.

Lemma py_dict_lookup (pairs : list (string * PyValue)) (x : string) (v : PyValue) :
  (∀ y v1 v2, (y, v1) ∈ pairs → (y, v2) ∈ pairs → v1 = v2) →
  py_dict pairs !! x = Some v ↔ (x, v) ∈ pairs.
Proof.
  intros Hfun. change (py_dict pairs) with (dict_update ∅ pairs).
  rewrite dict_update_lookup by assumption. rewrite lookup_empty. split.
  - intros [H|[_ H]]; [exact H | discriminate].
  - auto.
Qed.

Section ToDict.

Context (R : registry).

Lemma __getitem__eq (w : world) (k : PyValue) :
  ∃ w1, __getitem__ R k w
        = (w1, match server w !! _format_key (self w) k with
               | None => Raise (KeyError k)
               | Some e => _transform R (Store.payload e)
               end)
        ∧ server w1 = server w ∧ self w1 = self w.
Proof.
  destruct (read_only__getitem__ R k w) as [Hs Hd].
  destruct (lookup_eq R w k VNone) as (_ & Hitem & _).
  destruct (__getitem__ R k w) as [w1 r]. simpl in *. subst r. eauto.
Qed.

(** The loop of [items()] when every key found is in the store and
    decodes: it yields the stripped keys in order, each with its decoded
    value. *)
Lemma items_loop_decoded (d : ValkeyDict) (st : Store.store) (found : list string) :
  (∀ item, item ∈ found →
     ∃ x e v, item = namespace d +:+ ":" +:+ x ∧ st !! item = Some e
              ∧ _transform R (Store.payload e) = Ok v) →
  ∀ w, self w = d → server w = st →
  ∃ pairs,
    snd (items_loop R (PyStr.len (namespace d) + 1) found w) = Ok pairs
    ∧ pairs.*1 = map (PyStr.slice_from (PyStr.len (namespace d) + 1)) found
    ∧ ∀ x v, (x, v) ∈ pairs →
        ∃ e, st !! (namespace d +:+ ":" +:+ x) = Some e
             ∧ _transform R (Store.payload e) = Ok v.
Proof.
  induction found as [|item rest IH]; intros Hall w Hd Hst.
  - exists []. repeat split. intros x v H. inversion H.
  - destruct (Hall item) as (x & e & v & -> & He & Hv); [left|].
    cbn [items_loop]. unfold skip_key_error, bind, try_except, ret.
    rewrite parse_formatted.
    destruct (__getitem__eq w (VStr x)) as (w1 & Hget & Hs1 & Hd1).
    rewrite Hget. rewrite Hd, Hst.
    change (_format_key d (VStr x)) with (namespace d +:+ ":" +:+ x).
    rewrite He, Hv.
    destruct (IH (fun i Hi => Hall i (list_elem_of_further _ _ _ Hi)) w1)
      as (pairs & Hloop & Hkeys & Hvals); [congruence | congruence |].
    destruct (items_loop R (PyStr.len (namespace d) + 1) rest w1) as [w2 r].
    simpl in Hloop. subst r.
    exists ((x, v) :: pairs). split; [reflexivity|]. split.
    + rewrite fmap_cons. cbn [fst map]. rewrite parse_formatted. f_equal. exact Hkeys.
    + intros y u Hin. apply elem_of_cons in Hin as [Heq|Hin].
      * injection Heq as -> ->. eauto.
      * apply Hvals, Hin.
Qed.

(** X8. [to_dict()] agrees with the lookups, for a namespace without glob
    characters whose stored envelopes all decode: it has a value at [x]
    exactly when the store holds [namespace:x], and that value is the
    decoded envelope, as [d[x]] gives it.  [copy()] is [to_dict()]. *)
Theorem to_dict_agrees_with_lookups (w : world) :
  glob_free (namespace (self w)) = true →
  (∀ x e, server w !! (namespace (self w) +:+ ":" +:+ x) = Some e →
          is_ok (_transform R (Store.payload e)) = true) →
  ∃ m : gmap string PyValue,
    snd (to_dict R w) = Ok m
    ∧ snd (copy R w) = Ok m
    ∧ ∀ x v, m !! x = Some v ↔ snd (__getitem__ R (VStr x) w) = Ok v.
Proof.
  intros Hfree Hdec.
  set (d := self w). set (st := server w).
  set (found := Store.scan_keys (_create_iter_query d "") st).
  assert (Hfound : ∀ item, item ∈ found →
            ∃ x e v, item = namespace d +:+ ":" +:+ x ∧ st !! item = Some e
                     ∧ _transform R (Store.payload e) = Ok v).
  { intros item Hin. apply scan_keys_spec in Hin as [[e He] Hglob].
    apply (glob_namespace d item Hfree) in Hglob as [x ->].
    pose proof (Hdec x e He) as Hok.
    destruct (_transform R (Store.payload e)) as [v|] eqn:Hv; [|discriminate].
    exists x, e, v. auto. }
  destruct (items_loop_decoded d st found Hfound
              (World d st (trips w ++ [Single (Store.SCAN (_create_iter_query d "")
                                                  (Some (_batch_size d)))]))
              eq_refl eq_refl) as (pairs & Hloop & Hkeys & Hvals).
  assert (Hitems : snd (items R w) = Ok pairs).
  { unfold items, bind, get_self. rewrite _scan_keys_eq. exact Hloop. }
  assert (Hto : snd (to_dict R w) = Ok (py_dict pairs)).
  { unfold to_dict, bind. destruct (items R w) as [w1 r]. simpl in Hitems. subst r.
    reflexivity. }
  assert (Hfun : ∀ y v1 v2, (y, v1) ∈ pairs → (y, v2) ∈ pairs → v1 = v2).
  { intros y v1 v2 H1 H2.
    destruct (Hvals _ _ H1) as (e1 & He1 & Hv1). destruct (Hvals _ _ H2) as (e2 & He2 & Hv2).
    congruence. }
  exists (py_dict pairs). split; [exact Hto|]. split; [exact Hto|].
  intros x v. rewrite py_dict_lookup by exact Hfun.
  destruct (lookup_eq R w (VStr x) VNone) as (_ & Hitem & _). rewrite Hitem.
  change (_format_key (self w) (VStr x)) with (namespace d +:+ ":" +:+ x).
  fold st. split.
  - intros Hin. destruct (Hvals _ _ Hin) as (e & He & Hv). rewrite He. exact Hv.
  - intros Hget. destruct (st !! (namespace d +:+ ":" +:+ x)) as [e|] eqn:He; [|discriminate].
    assert (Hx : x ∈ pairs.*1).
    { rewrite Hkeys. apply list_elem_of_fmap.
      exists (namespace d +:+ ":" +:+ x). rewrite parse_formatted. split; [reflexivity|].
      apply scan_keys_spec. split; [eauto|]. apply glob_namespace; eauto. }
    apply list_elem_of_fmap in Hx as ([x' v'] & Hx' & Hin). simpl in Hx'. subst x'.
    destruct (Hvals _ _ Hin) as (e' & He' & Hv').
    assert (v' = v) by congruence. subst v'. exact Hin.
Qed.

End ToDict.

Lemma to_dict_agrees_with_lookups_witness :
  ∃ m, snd (to_dict TypeManagement.builtin (after_scenario "t")) = Ok m
       ∧ (m !! "foobar" = Some (VInt 1)
          ↔ snd (__getitem__ TypeManagement.builtin (VStr "foobar") (after_scenario "t"))
            = Ok (VInt 1)).
Proof.
  destruct (to_dict_agrees_with_lookups TypeManagement.builtin (after_scenario "t") eq_refl)
    as (m & Hm & _ & Hlook).
  - intros x e He. rewrite after_scenario_server in He.
    repeat (apply lookup_insert_Some in He as [[_ <-]|[_ He]]; [reflexivity|]).
    rewrite lookup_empty in He. discriminate.
  - exists m. split; [exact Hm | exact (Hlook "foobar" (VInt 1))].
Defined.

(** ** Deleting by pattern *)

Lemma del_keys_lookup (found : list string) (st : Store.store) (k : string) :
  fst (Store.del_keys found st) !! k = if decide (k ∈ found) then None else st !! k.
Proof.
  revert st. induction found as [|x found IH]; intros st.
  - destruct (decide (k ∈ [])) as [H|_]; [inversion H | reflexivity].
  - simpl. destruct (st !! x) as [e|] eqn:Hx.
    + specialize (IH (delete x st)).
      destruct (Store.del_keys found (delete x st)) as [st' n]. simpl in *.
      rewrite IH. destruct (decide (k ∈ found)) as [Hin|Hnot].
      * rewrite decide_True by (right; exact Hin). reflexivity.
      * destruct (decide (k = x)) as [->|Hne].
        -- rewrite decide_True by left. apply lookup_delete_eq.
        -- rewrite decide_False by (rewrite elem_of_cons; tauto).
           apply lookup_delete_ne. congruence.
    + rewrite IH. destruct (decide (k ∈ found)) as [Hin|Hnot].
      * rewrite decide_True by (right; exact Hin). reflexivity.
      * destruct (decide (k = x)) as [->|Hne].
        -- rewrite decide_True by left. exact Hx.
        -- rewrite decide_False by (rewrite elem_of_cons; tauto). reflexivity.
Qed.

Lemma del_keys_count (found : list string) (st : Store.store) :
  NoDup found →
  (∀ k, k ∈ found → is_Some (st !! k)) →
  snd (Store.del_keys found st) = Z.of_nat (length found).
Proof.
  intros Hnd. revert st. induction Hnd as [|x found Hx Hnd IH]; intros st Hall.
  - reflexivity.
  - simpl. destruct (Hall x) as [e He]; [left|]. rewrite He.
    specialize (IH (delete x st)).
    destruct (Store.del_keys found (delete x st)) as [st' n]. simpl in *.
    rewrite IH; [lia|].
    intros k Hk. rewrite lookup_delete_ne by (intros ->; contradiction).
    apply Hall. right. exact Hk.
Qed.

Lemma apply_all_del (found : list string) (st : Store.store) (k : string) :
  fst (Store.apply_all (map (fun x => Store.DEL [x]) found) st) !! k
  = if decide (k ∈ found) then None else st !! k.
Proof.
  revert st. induction found as [|x found IH]; intros st.
  - destruct (decide (k ∈ [])) as [H|_]; [inversion H | reflexivity].
  - cbn [map Store.apply_all]. rewrite del_one.
    specialize (IH (delete x st)).
    destruct (Store.apply_all (map (fun x => Store.DEL [x]) found) (delete x st)) as [st' rs].
    simpl in *. rewrite IH. destruct (decide (k ∈ found)) as [Hin|Hnot].
    + rewrite decide_True by (right; exact Hin). reflexivity.
    + destruct (decide (k = x)) as [->|Hne].
      * rewrite decide_True by left. apply lookup_delete_eq.
      * rewrite decide_False by (rewrite elem_of_cons; tauto).
        apply lookup_delete_ne. congruence.
Qed.

Lemma apply_del (found : list string) (st : Store.store) :
  Store.apply (Store.DEL found) st
  = (fst (Store.del_keys found st), Store.RInt (snd (Store.del_keys found st))).
Proof. simpl. destruct (Store.del_keys found st); reflexivity. Qed.

(** Once the keys a pattern matched are removed, the pattern matches
    nothing. *)
Lemma scan_keys_after_removal (pattern : string) (st st' : Store.store) :
  (∀ k, st' !! k = if decide (k ∈ Store.scan_keys pattern st) then None else st !! k) →
  Store.scan_keys pattern st' = []
  ∧ ∀ k, st' !! k = if Store.glob pattern k then None else st !! k.
Proof.
  intros Hrem.
  assert (Hlook : ∀ k, st' !! k = if Store.glob pattern k then None else st !! k).
  { intros k. rewrite Hrem. destruct (decide (k ∈ Store.scan_keys pattern st)) as [Hin|Hnot].
    - apply scan_keys_spec in Hin as [_ ->]. reflexivity.
    - destruct (Store.glob pattern k) eqn:Hg; [|reflexivity].
      destruct (st !! k) as [e|] eqn:He; [|reflexivity].
      exfalso. apply Hnot, scan_keys_spec. eauto. }
  split; [|exact Hlook].
  destruct (Store.scan_keys pattern st') as [|k rest] eqn:Hscan; [reflexivity|].
  assert (Hk : k ∈ Store.scan_keys pattern st') by (rewrite Hscan; left).
  apply scan_keys_spec in Hk as [[e He] Hg].
  rewrite Hlook, Hg in He. discriminate.
Qed.

Lemma dels_accepted (found : list string) :
  existsb Store.refuses (map (fun x => Store.DEL [x]) found) = false.
Proof. induction found as [|x found IH]; [reflexivity | exact IH]. Qed.

Lemma clear_loop_queues (found : list string) (w : world) (queue : list Store.command) :
  valkey (self w) = Some (Pipe queue) →
  clear_loop found w
  = (World (with_handles (Some (Pipe (queue ++ map (fun x => Store.DEL [x]) found)))
              (_temp_valkey (self w)) (self w))
           (server w) (trips w),
     Ok tt).
Proof.
  revert w queue. induction found as [|x found IH]; intros w queue Hv.
  - simpl. rewrite app_nil_r. unfold ret. destruct w as [d st ts]. simpl in *.
    destruct d. simpl in *. subst. reflexivity.
  - cbn [clear_loop map]. unfold bind. rewrite via_valkey_eq, Hv.
    rewrite (IH _ (queue ++ [Store.DEL [x]])) by reflexivity.
    simpl. rewrite <- app_assoc. reflexivity.
Qed.

(** X9. [clear()] on an idle instance: the keys the scan of the namespace
    matches are deleted in one batch and nothing else is touched;
    afterwards the container is empty and the live connection is back. *)
Theorem clear_empties_the_namespace (w : world) :
  valkey (self w) = Some Live →
  _temp_valkey (self w) = None →
  let pattern := _create_iter_query (self w) "" in
  let w' := fst (clear w) in
  snd (clear w) = Ok tt
  ∧ valkey (self w') = Some Live
  ∧ _temp_valkey (self w') = None
  ∧ flushes (trips w')
    = flushes (trips w) ++ [map (fun x => Store.DEL [x]) (Store.scan_keys pattern (server w))]
  ∧ (∀ k, server w' !! k = if Store.glob pattern k then None else server w !! k)
  ∧ snd (__len__ w') = Ok 0
  ∧ snd (keys w') = Ok [].
Proof.
  intros Hv Ht. cbv zeta.
  set (pattern := _create_iter_query (self w) "").
  set (found := Store.scan_keys pattern (server w)).
  assert (Hclear : clear w
    = (World (with_handles (Some Live) None (self w))
             (fst (Store.apply_all (map (fun x => Store.DEL [x]) found) (server w)))
             ((trips w ++ [Single (Store.SCAN pattern None)])
              ++ [Batch (map (fun x => Store.DEL [x]) found)]),
       Ok tt)).
  { unfold clear.
    rewrite (pipeline_outermost _ w
               (World (with_handles (Some (Pipe (map (fun x => Store.DEL [x]) found)))
                         (Some Live) (self w))
                      (server w) (trips w ++ [Single (Store.SCAN pattern None)]))
               (Ok tt) (map (fun x => Store.DEL [x]) found) Hv Ht);
      [reflexivity | | reflexivity | reflexivity | apply dels_accepted].
    unfold bind. rewrite _scan_keys_eq. cbn [entered self server trips].
    rewrite (clear_loop_queues _ _ []) by reflexivity. reflexivity. }
  rewrite Hclear. cbn [fst snd self server trips valkey _temp_valkey with_handles].
  destruct (scan_keys_after_removal pattern (server w)
              (fst (Store.apply_all (map (fun x => Store.DEL [x]) found) (server w))))
    as [Hempty Hlook].
  { intros k. apply apply_all_del. }
  split; [reflexivity|]. split; [reflexivity|]. split; [reflexivity|].
  split; [rewrite flushes_batch, flushes_single; reflexivity|].
  split; [exact Hlook|].
  unfold __len__, keys, bind, get_self. rewrite !_scan_keys_eq. cbn [self server].
  change (_create_iter_query (with_handles (Some Live) None (self w)) "") with pattern.
  rewrite Hempty. split; reflexivity.
Qed.

(** X10. [multi_del(prefix)] on the live connection deletes the keys its scan
    matches and no other, returns how many they are, and leaves nothing
    for a later [multi_get] of the same prefix. *)
Theorem multi_del_removes_the_matches (R : registry) (w : world) (prefix : string) :
  valkey (self w) = Some Live →
  let pattern := _create_iter_query (self w) prefix in
  let w' := fst (multi_del prefix w) in
  snd (multi_del prefix w)
    = Ok (Store.RInt (Z.of_nat (length (Store.scan_keys pattern (server w)))))
  ∧ (∀ k, server w' !! k = if Store.glob pattern k then None else server w !! k)
  ∧ snd (multi_get R prefix w') = Ok []
  ∧ snd (multi_del prefix w') = Ok (Store.RInt 0).
Proof.
  intros Hv. cbv zeta.
  set (pattern := _create_iter_query (self w) prefix).
  set (found := Store.scan_keys pattern (server w)).
  assert (Hdel : ∃ ts,
    multi_del prefix w
    = (World (self w) (fst (Store.del_keys found (server w))) ts,
       Ok (Store.RInt (Z.of_nat (length found))))).
  { unfold multi_del, bind. rewrite _scan_keys_eq. fold pattern found.
    destruct (bool_decide (length found = 0%nat)) eqn:Hb.
    - apply bool_decide_eq_true in Hb. apply nil_length_inv in Hb. rewrite Hb.
      simpl. eexists. destruct w; reflexivity.
    - rewrite via_valkey_eq. cbn [self]. rewrite Hv, live_eq, apply_del.
      cbn [self server trips fst snd].
      rewrite (del_keys_count found (server w) (scan_keys_NoDup _ _)).
      + eexists. reflexivity.
      + intros k Hk. apply scan_keys_spec in Hk. tauto. }
  destruct Hdel as [ts Hdel]. rewrite Hdel. cbn [fst snd].
  destruct (scan_keys_after_removal pattern (server w) (fst (Store.del_keys found (server w))))
    as [Hempty Hlook].
  { intros k. apply del_keys_lookup. }
  split; [reflexivity|]. split; [exact Hlook|].
  match goal with
  | |- snd (multi_get R prefix ?w1) = _ ∧ _ =>
      destruct (multi_empty R prefix w1) as (Hg & _ & Hd & _); [exact Hempty|]
  end.
  split; [exact Hg | exact Hd].
Qed.

Lemma clear_empties_the_namespace_witness :
  snd (__len__ (fst (clear (after_scenario "t")))) = Ok 0
  ∧ server (fst (clear (after_scenario "t"))) !! "t:goobar" = None.
Proof.
  destruct (clear_empties_the_namespace (after_scenario "t") eq_refl eq_refl)
    as (_ & _ & _ & _ & Hlook & Hlen & _).
  split; [exact Hlen|]. rewrite Hlook. reflexivity.
Defined.

Lemma multi_del_removes_the_matches_witness :
  snd (multi_del "foo" (after_scenario "t")) = Ok (Store.RInt 2)
  ∧ Store.payload <$> server (fst (multi_del "foo" (after_scenario "t"))) !! "t:goobar"
    = Some "int:3".
Proof.
  destruct (multi_del_removes_the_matches TypeManagement.builtin (after_scenario "t") "foo"
              eq_refl) as (Hret & Hlook & _).
  split.
  - rewrite Hret. vm_compute. reflexivity.
  - rewrite Hlook. reflexivity.
Defined.

(** ** Writing in a pipeline scope *)

Section Batches.

Context (R : registry).

Lemma with_handles_twice (a b c e : option handle) (d : ValkeyDict) :
  with_handles a b (with_handles c e d) = with_handles a b d.
Proof. reflexivity. Qed.

(** The loop of [update] on a pipeline: the valid items at the front
    queue their [SET]s; the first invalid item raises and ends the loop. *)
Lemma update_loop_queues (pre rest : list (PyValue * PyValue)) :
  ∀ (w : world) (queue : list Store.command),
  valkey (self w) = Some (Pipe queue) →
  Forall (valid_item (self w)) pre →
  (rest = [] ∨ ∃ kv post, rest = kv :: post ∧ invalid_item (self w) kv) →
  ∃ ts,
    fold_right (fun kv more => let* _ := __setitem__ R kv.1 kv.2 in more) (ret tt)
      (pre ++ rest) w
    = (World (with_handles
                (Some (Pipe (queue ++ map (item_command R (self w) (server w)) pre)))
                (_temp_valkey (self w)) (self w))
             (server w) ts,
       match rest with [] => Ok tt | _ => Raise size_error end)
    ∧ flushes ts = flushes (trips w).
Proof.
  induction pre as [|[k v] pre IH]; intros w queue Hv Hpre Hrest.
  - rewrite app_nil_r. destruct Hrest as [->|([k v] & post & -> & Hbad)].
    + exists (trips w). split; [|reflexivity]. simpl. unfold ret.
      destruct w as [d st ts]. simpl in *. destruct d. simpl in *. subst. reflexivity.
    + exists (trips w). split; [|reflexivity].
      cbn [app fold_right fst snd]. unfold bind, __setitem__.
      assert (Hstore : _store R k v w = (w, Raise size_error)).
      { destruct Hbad as [Hbv|[Hbv Hbk]]; simpl in *.
        - apply _store_invalid_value, Hbv.
        - apply _store_invalid_key; assumption. }
      rewrite Hstore.
      destruct w as [d st ts]. simpl in *. destruct d. simpl in *. subst. reflexivity.
  - apply Forall_cons in Hpre as [[Hvv Hvk] Hpre]. simpl in Hvv, Hvk.
    cbn [app fold_right fst snd]. unfold bind at 1. unfold __setitem__ at 1.
    rewrite (_store_valid R w k v Hvv Hvk), (_store_set_pipe w _ _ queue Hv).
    match goal with
    | |- context [fold_right _ _ _ ?w1] =>
        destruct (IH w1 (queue ++ [plain_store_cmd w (_format_key (self w) k)
                                     (_format_value R v)]))
          as (ts & Hloop & Hts)
    end.
    + reflexivity.
    + exact Hpre.
    + destruct Hrest as [->|(kv & post & -> & Hbad)]; [left; reflexivity|].
      right. exists kv, post. split; [reflexivity | exact Hbad].
    + exists ts. split.
      * rewrite Hloop. cbn [self server trips]. rewrite with_handles_twice.
        cbn [map]. rewrite <- app_assoc. reflexivity.
      * rewrite Hts. cbn [trips]. unfold plain_store_probes.
        destruct (preserve_expiration (self w)); [apply flushes_single|].
        rewrite app_nil_r. reflexivity.
Qed.

(** With an [expire] the store accepts, it accepts every [SET] of a
    batch of items. *)
Lemma expire_accepted_batch (d : ValkeyDict) (st : Store.store)
    (items : list (PyValue * PyValue)) :
  expire_accepted d = true →
  existsb Store.refuses (map (item_command R d st) items) = false.
Proof.
  intros H. induction items as [|kv items IH]; [reflexivity|].
  cbn [map existsb]. rewrite (expire_accepted_item R d st kv H). exact IH.
Qed.

(** X11. [update(dic)] on an idle instance sends one batch: a [SET] for each
    item up to the first whose key or value fails the size validation,
    in the order of [dic].  When the store accepts the batch, such an
    item makes [update] raise the size error, after the batch with the
    items before it has been sent: the update is not undone; the
    instance is idle again whether an item failed or not.  When the store
    refuses a [SET] of the batch, which it does for an [EX] of zero or
    less, [update] raises [ResponseError] instead and the instance is
    left with the emptied pipeline in place of the live connection. *)
Theorem update_sends_one_batch (w : world) (pre rest : list (PyValue * PyValue)) :
  valkey (self w) = Some Live →
  _temp_valkey (self w) = None →
  Forall (valid_item (self w)) pre →
  (rest = [] ∨ ∃ kv post, rest = kv :: post ∧ invalid_item (self w) kv) →
  let batch := map (item_command R (self w) (server w)) pre in
  let w' := fst (update R (pre ++ rest) w) in
  flushes (trips w') = flushes (trips w) ++ [batch]
  ∧ server w' = fst (Store.apply_all batch (server w))
  ∧ if existsb Store.refuses batch
    then (∃ msg, snd (update R (pre ++ rest) w) = Raise (ResponseError msg))
         ∧ valkey (self w') = Some (Pipe [])
         ∧ _temp_valkey (self w') = Some Live
    else snd (update R (pre ++ rest) w)
           = match rest with [] => Ok tt | _ => Raise size_error end
         ∧ valkey (self w') = Some Live
         ∧ _temp_valkey (self w') = None.
Proof.
  intros Hv Ht Hpre Hrest. cbv zeta.
  destruct (update_loop_queues pre rest (entered w) [] eq_refl Hpre Hrest)
    as (ts & Hloop & Hts).
  unfold update.
  rewrite (pipeline_outermost_exit _ w _ _ _ Hv Ht Hloop eq_refl eq_refl).
  cbn [self server entered app].
  change (item_command R (with_handles (Some (Pipe [])) (Some Live) (self w)))
    with (item_command R (self w)).
  destruct (existsb Store.refuses (map (item_command R (self w) (server w)) pre));
    cbn [fst snd self server trips valkey _temp_valkey with_handles];
    (split; [rewrite flushes_batch, Hts; reflexivity|]);
    (split; [reflexivity|]);
    (split; [try eexists; reflexivity|]); split; reflexivity.
Qed.

(** X12. A store made inside a pipeline scope is not visible to a lookup in
    the same scope: the [SET] is queued while the [GET] goes out at
    once, so [d[k] = v] followed by [d[k]] raises [KeyError] in the body
    for a key that was absent.  The scope still sends the [SET] on exit.
    When the store accepts it, the [KeyError] leaves the scope and the
    key is there afterwards; when the store refuses it, which it does
    for an [EX] of zero or less, [ResponseError] leaves the scope in
    place of the [KeyError], nothing is stored and the emptied pipeline
    stays in place of the live connection. *)
Theorem queued_store_not_visible_in_scope (w : world) (k value : PyValue) :
  valkey (self w) = Some Live →
  _temp_valkey (self w) = None →
  valid_item (self w) (k, value) →
  server w !! _format_key (self w) k = None →
  let scope := WithPipeline (Seq (SetItem k value) (GetItem k)) in
  let cmd := item_command R (self w) (server w) (k, value) in
  snd (exec R (Seq (SetItem k value) (GetItem k)) (entered w)) = Raise (KeyError k)
  ∧ flushes (trips (fst (exec R scope w))) = flushes (trips w) ++ [[cmd]]
  ∧ if Store.refuses cmd
    then (∃ msg, snd (exec R scope w) = Raise (ResponseError msg))
         ∧ server (fst (exec R scope w)) = server w
         ∧ valkey (self (fst (exec R scope w))) = Some (Pipe [])
    else snd (exec R scope w) = Raise (KeyError k)
         ∧ Store.payload <$> server (fst (exec R scope w)) !! _format_key (self w) k
           = Some (_format_value R value)
         ∧ valkey (self (fst (exec R scope w))) = Some Live.
Proof.
  intros Hv Ht [Hvv Hvk] Hnone. simpl in Hvv, Hvk. cbv zeta.
  set (fk := _format_key (self w) k). set (fv := _format_value R value).
  set (cmd := item_command R (self w) (server w) (k, value)).
  set (w1 := World (with_handles (Some (Pipe [cmd])) (Some Live) (self w))
                   (server w) (trips w ++ plain_store_probes (entered w) fk)).
  assert (Hset : __setitem__ R k value (entered w) = (w1, Ok tt)).
  { unfold __setitem__. rewrite (_store_valid R (entered w) k value Hvv Hvk).
    rewrite (_store_set_pipe (entered w) _ _ [] eq_refl). reflexivity. }
  destruct (__getitem__eq R w1 k) as (w2 & Hget & Hs2 & Hd2).
  change (server w1 !! _format_key (self w1) k) with (server w !! fk) in Hget.
  unfold fk in Hget. rewrite Hnone in Hget.
  assert (Hbody : exec R (Seq (SetItem k value) (GetItem k)) (entered w)
                  = (w2, Raise (KeyError k))).
  { cbn [exec]. unfold bind at 1. rewrite Hset. unfold discard, bind. rewrite Hget.
    reflexivity. }
  assert (Htrips : flushes (trips w2) = flushes (trips w)).
  { pose proof (quiet__getitem__ R k w1 [cmd] Live eq_refl eq_refl) as (more & _ & _ & Hf).
    rewrite Hget in Hf. cbn [fst] in Hf. rewrite Hf. unfold w1. cbn [trips].
    unfold plain_store_probes. destruct (preserve_expiration _);
      [apply flushes_single | rewrite app_nil_r; reflexivity]. }
  split; [rewrite Hbody; reflexivity|].
  change (exec R (WithPipeline (Seq (SetItem k value) (GetItem k))))
    with (pipeline (exec R (Seq (SetItem k value) (GetItem k)))).
  rewrite (pipeline_outermost_exit _ w w2 _ [cmd] Hv Ht Hbody);
    [| rewrite Hd2; reflexivity | rewrite Hd2; reflexivity].
  cbn [existsb]. rewrite orb_false_r.
  destruct (Store.refuses cmd) eqn:Hcmd; cbn [fst snd self server trips];
    (split; [rewrite flushes_batch, Htrips; reflexivity|]).
  - split; [eexists; reflexivity|]. split; [|reflexivity].
    cbn [Store.apply_all]. rewrite (apply_refused cmd _ Hcmd). cbn [fst].
    rewrite Hs2. reflexivity.
  - split; [reflexivity|]. split; [|reflexivity].
    rewrite Hs2. cbn [Store.apply_all server w1].
    destruct (apply_plain_set fk fv _ (server w) Hcmd) as [ttl Hap].
    change cmd with (Store.SET fk fv false false
                       (spec_plain_store_ttl (self w)
                          (bool_decide (is_Some (server w !! fk))))).
    destruct (Store.apply _ (server w)) as [st r] eqn:Happly.
    simpl in Hap. subst st. cbn [fst]. rewrite lookup_insert_eq. reflexivity.
Qed.

(** X13. [setdefault] does not go through the pipeline: inside a scope,
    for a key that was absent, its command is sent at once, nothing is
    queued for it, and a lookup in the same scope sees the value.  The
    batch the scope sends on exit is empty. *)
Theorem setdefault_not_batched (w : world) (k value : PyValue) :
  valkey (self w) = Some Live →
  _temp_valkey (self w) = None →
  server w !! _format_key (self w) k = None →
  let scope := WithPipeline (Seq (SetDefault k value) (GetItem k)) in
  snd (exec R scope w)
    = match _transform R (_format_value R value) with
      | Ok _ => Ok tt
      | Raise e => Raise e
      end
  ∧ flushes (trips (fst (exec R scope w))) = flushes (trips w) ++ [[]]
  ∧ Store.payload <$> server (fst (exec R scope w)) !! _format_key (self w) k
    = Some (_format_value R value).
Proof.
  intros Hv Ht Hnone. cbv zeta.
  set (fk := _format_key (self w) k). set (fv := _format_value R value).
  pose proof (setdefault_eq R (entered w) k value) as Hsd. cbv zeta in Hsd.
  change (server (entered w) !! _format_key (self (entered w)) k)
    with (server w !! fk) in Hsd.
  unfold fk in Hsd. rewrite Hnone in Hsd. fold fk in Hsd.
  match type of Hsd with _ = (?w1', _) => set (w1 := w1') in Hsd end.
  destruct (__getitem__eq R w1 k) as (w2 & Hget & Hs2 & Hd2).
  assert (Hlook : server w1 !! _format_key (self w1) k
                  = Some (Store.Entry fv match setdefault_ttl (self (entered w)) with
                                         | Store.EX n => Some n
                                         | _ => None
                                         end)).
  { unfold w1. cbn [server self]. apply lookup_insert_eq. }
  rewrite Hlook in Hget. cbn [Store.payload] in Hget.
  assert (Hbody : exec R (Seq (SetDefault k value) (GetItem k)) (entered w)
                  = (w2, match _transform R fv with Ok _ => Ok tt | Raise e => Raise e end)).
  { cbn [exec]. unfold bind at 1. unfold discard at 1. unfold bind at 1.
    rewrite Hsd. unfold ret at 1. unfold discard, bind. rewrite Hget.
    destruct (_transform R fv); reflexivity. }
  change (exec R (WithPipeline (Seq (SetDefault k value) (GetItem k))))
    with (pipeline (exec R (Seq (SetDefault k value) (GetItem k)))).
  rewrite (pipeline_outermost _ w w2 _ [] Hv Ht Hbody);
    [| rewrite Hd2; reflexivity | rewrite Hd2; reflexivity | reflexivity].
  cbn [fst snd server trips Store.apply_all]. split; [reflexivity|]. split.
  - rewrite flushes_batch. f_equal.
    assert (Htr : flushes (trips w2) = flushes (trips w1)).
    { pose proof (quiet__getitem__ R k w1 [] Live eq_refl eq_refl) as (more & _ & _ & Hf).
      rewrite Hget in Hf. exact Hf. }
    rewrite Htr. unfold w1. cbn [trips]. rewrite flushes_single. reflexivity.
  - rewrite Hs2. unfold w1. cbn [server]. rewrite lookup_insert_eq. reflexivity.
Qed.

End Batches.

Lemma update_sends_one_batch_witness :
  let R := TypeManagement.builtin in
  let w := new_world (with_max_string_size 3 (init "main" None false false)) in
  let w0 := new_world (init "main" (Some (ExpInt 0)) false false) in
  let dic := [(VStr "a", VInt 1)] ++ [(VStr "abcd", VInt 2); (VStr "c", VInt 3)] in
  (snd (update R dic w) = Raise size_error
   ∧ flushes (trips (fst (update R dic w)))
     = [[Store.SET "main:a" "int:1" false false Store.NoTtl]]
   ∧ valkey (self (fst (update R dic w))) = Some Live)
  ∧ ((∃ msg, snd (update R ([(VStr "a", VInt 1)] ++ []) w0) = Raise (ResponseError msg))
     ∧ valkey (self (fst (update R ([(VStr "a", VInt 1)] ++ []) w0))) = Some (Pipe [])).
Proof.
  intros R w w0 dic. split.
  - destruct (update_sends_one_batch R w [(VStr "a", VInt 1)]
                [(VStr "abcd", VInt 2); (VStr "c", VInt 3)] eq_refl eq_refl)
      as (Hflush & _ & Hout & Hlive & _).
    + constructor; [split; reflexivity | constructor].
    + right. exists (VStr "abcd", VInt 2), [(VStr "c", VInt 3)].
      split; [reflexivity|]. right. split; reflexivity.
    + split; [exact Hout|]. split; [exact Hflush | exact Hlive].
  - destruct (update_sends_one_batch R w0 [(VStr "a", VInt 1)] [] eq_refl eq_refl)
      as (_ & _ & Hout & Hpipe & _).
    + constructor; [split; reflexivity | constructor].
    + left. reflexivity.
    + split; [exact Hout | exact Hpipe].
Defined.

Lemma queued_store_not_visible_in_scope_witness :
  let R := TypeManagement.builtin in
  let w := new_world (init "main" None false false) in
  let w0 := new_world (init "main" (Some (ExpInt 0)) false false) in
  let scope := WithPipeline (Seq (SetItem (VStr "a") (VInt 1)) (GetItem (VStr "a"))) in
  (snd (exec R scope w) = Raise (KeyError (VStr "a"))
   ∧ Store.payload <$> server (fst (exec R scope w)) !! "main:a" = Some "int:1")
  ∧ ((∃ msg, snd (exec R scope w0) = Raise (ResponseError msg))
     ∧ server (fst (exec R scope w0)) = server w0).
Proof.
  intros R w w0 scope. split.
  - destruct (queued_store_not_visible_in_scope R w (VStr "a") (VInt 1) eq_refl eq_refl
                (conj eq_refl eq_refl) eq_refl) as (_ & _ & Hout & Hstored & _).
    split; [exact Hout | exact Hstored].
  - destruct (queued_store_not_visible_in_scope R w0 (VStr "a") (VInt 1) eq_refl eq_refl
                (conj eq_refl eq_refl) eq_refl) as (_ & _ & Hout & Hserver & _).
    split; [exact Hout | exact Hserver].
Defined.

Lemma setdefault_not_batched_witness :
  let R := TypeManagement.builtin in
  let w := new_world (init "main" None false false) in
  let scope := WithPipeline (Seq (SetDefault (VStr "a") (VInt 1)) (GetItem (VStr "a"))) in
  snd (exec R scope w) = Ok tt
  ∧ flushes (trips (fst (exec R scope w))) = [[]].
Proof.
  intros R w scope.
  destruct (setdefault_not_batched R w (VStr "a") (VInt 1) eq_refl eq_refl eq_refl)
    as (Hout & Hflush & _).
  split; [exact Hout | exact Hflush].
Defined.

(** ** Stores under a scoped expiration, and reading a TTL *)

Section Ttl.

Context (R : registry).

(** X14. On an instance that does not preserve expirations, a store
    inside an [expire_at] scope is sent with the TTL of the scope,
    whatever [expire] was.  With a TTL of one second or more the store
    accepts it, and when the scope is left the instance is as it was
    before, so later stores use the configured [expire] again.  With a
    TTL of zero or less the store refuses the command, the store
    statement raises [ResponseError], nothing is stored, and the
    override of the scope stays in place of the configured [expire]. *)
Theorem expire_at_scopes_the_ttl (w : world) (k value : PyValue) (sec_epoch : expire_t) :
  valkey (self w) = Some Live →
  preserve_expiration (self w) = false →
  valid_item (self w) (k, value) →
  let scope := WithExpireAt sec_epoch (SetItem k value) in
  let w' := fst (exec R scope w) in
  let cmd := Store.SET (_format_key (self w) k) (_format_value R value)
               false false (Store.EX (Client.ex_seconds sec_epoch)) in
  trips w' = trips w ++ [Single cmd]
  ∧ if 0 <? Client.ex_seconds sec_epoch
    then snd (exec R scope w) = Ok tt
         ∧ self w' = self w
         ∧ Store.ttl <$> server w' !! _format_key (self w) k
           = Some (Some (Client.ex_seconds sec_epoch))
    else snd (exec R scope w) = Raise (ResponseError Store.invalid_expire)
         ∧ server w' = server w
         ∧ expire (self w') = Some sec_epoch.
Proof.
  intros Hv Hp Hvalid. cbv zeta.
  set (w0 := World (with_expire (Some sec_epoch) (self w)) (server w) (trips w)).
  assert (Hcmd : item_command R (self w0) (server w0) (k, value)
                 = Store.SET (_format_key (self w) k) (_format_value R value)
                     false false (Store.EX (Client.ex_seconds sec_epoch))).
  { unfold item_command, spec_plain_store_ttl. cbn [w0 self preserve_expiration
      with_expire expire fst snd]. rewrite Hp. reflexivity. }
  assert (Hprobes : plain_store_probes w0 (_format_key (self w0) k) = []).
  { unfold plain_store_probes. cbn [w0 self preserve_expiration with_expire].
    rewrite Hp. reflexivity. }
  change (exec R (WithExpireAt sec_epoch (SetItem k value)) w)
    with (expire_at sec_epoch (exec R (SetItem k value)) w).
  cbn [exec].
  destruct (0 <? Client.ex_seconds sec_epoch) eqn:Hpos.
  - assert (Hle : (Client.ex_seconds sec_epoch <=? 0) = false).
    { apply Z.ltb_lt in Hpos. apply Z.leb_gt. exact Hpos. }
    pose proof (__setitem__live R w0 k value Hv Hvalid) as Hlive. cbv zeta in Hlive.
    rewrite Hprobes, Hcmd in Hlive. unfold store_outcome in Hlive.
    cbn [Store.refuses Store.apply] in Hlive. rewrite Hle in Hlive.
    cbn [andb fst snd app] in Hlive.
    rewrite (expire_at_restores sec_epoch _ w _ tt Hlive).
    cbn [fst snd self server trips w0].
    split; [reflexivity|]. split; [reflexivity|]. split.
    + destruct (self w). reflexivity.
    + rewrite lookup_insert_eq. reflexivity.
  - assert (Href : Store.refuses (item_command R (self w0) (server w0) (k, value)) = true).
    { rewrite Hcmd. cbn [Store.refuses]. apply Z.ltb_ge in Hpos. apply Z.leb_le. exact Hpos. }
    pose proof (__setitem__refused R w0 k value Hv Hvalid Href) as Hset.
    rewrite Hprobes, Hcmd in Hset. cbn [app] in Hset.
    rewrite (expire_at_raises sec_epoch _ w _ _ Hset).
    cbn [fst snd self server trips w0 expire with_expire].
    repeat split; reflexivity.
Qed.

(** X15. [get_ttl] on the live connection: [None] for a key the store does
    not hold and for a key without a TTL, otherwise the TTL the store
    reports. *)
Theorem get_ttl_outcomes (w : world) (k : PyValue) :
  valkey (self w) = Some Live →
  snd (get_ttl k w)
  = Ok match server w !! _format_key (self w) k with
       | None => None
       | Some e =>
           match Store.ttl e with
           | None => None
           | Some n => if n <? 0 then None else Some n
           end
       end.
Proof.
  intros Hv. unfold get_ttl, bind, get_self. rewrite via_valkey_eq, Hv, live_eq.
  simpl. destruct (server w !! _format_key (self w) k) as [e|]; [|reflexivity].
  destruct (Store.ttl e) as [n|]; [|reflexivity].
  destruct (n <? 0); reflexivity.
Qed.

End Ttl.

Lemma expire_at_scopes_the_ttl_witness :
  let R := TypeManagement.builtin in
  let w := new_world (init "main" (Some (ExpInt 3600)) false false) in
  let w' := fst (exec R (WithExpireAt (ExpInt 1) (SetItem (VStr "a") (VInt 1))) w) in
  let w0 := fst (exec R (WithExpireAt (ExpInt 0) (SetItem (VStr "a") (VInt 1))) w) in
  (self w' = self w
   ∧ Store.ttl <$> server w' !! "main:a" = Some (Some 1))
  ∧ (server w0 = server w
     ∧ expire (self w0) = Some (ExpInt 0)).
Proof.
  intros R w w' w0. split.
  - destruct (expire_at_scopes_the_ttl R w (VStr "a") (VInt 1) (ExpInt 1) eq_refl eq_refl
                (conj eq_refl eq_refl)) as (_ & _ & Hself & Httl).
    split; [exact Hself | exact Httl].
  - destruct (expire_at_scopes_the_ttl R w (VStr "a") (VInt 1) (ExpInt 0) eq_refl eq_refl
                (conj eq_refl eq_refl)) as (_ & _ & Hserver & Hexpire).
    split; [exact Hserver | exact Hexpire].
Defined.

Lemma get_ttl_outcomes_witness :
  let w := new_world (init "main" None false false) in
  snd (get_ttl (VStr "missing") w) = Ok None.
Proof. exact (get_ttl_outcomes (new_world (init "main" None false false)) (VStr "missing") eq_refl). Defined.

(** ** Registering a type *)

Section Registering.

Context (_create_default_encode : string → PyValue → string).
Context (_create_default_decode : py_class → string → string → outcome PyValue).
Context (custom_encode_method custom_decode_method : string).
Context (R : registry) (class_type : py_class).
Context (encode : option (PyValue → string)).
Context (decode : option (string → outcome PyValue)).
Context (encoding_method_name decoding_method_name : option string).

Lemma extends_type_eq :
  extends_type _create_default_encode _create_default_decode
    custom_encode_method custom_decode_method R class_type encode decode
    encoding_method_name decoding_method_name
  = if bool_decide (encode = None)
       && negb (has_callable class_type (name_or encoding_method_name custom_encode_method))
    then NotImplementedError
           ("Class " +:+ class_name class_type +:+ " does not implement the required "
            +:+ name_or encoding_method_name custom_encode_method +:+ " method.")
    else if bool_decide (decode = None)
            && negb (has_callable class_type
                       (name_or decoding_method_name custom_decode_method))
    then NotImplementedError
           ("Class " +:+ class_name class_type +:+ " does not implement the required "
            +:+ name_or decoding_method_name custom_decode_method +:+ " class method.")
    else Registered
           {| encoding_registry := <[class_name class_type :=
                  default (_create_default_encode (name_or encoding_method_name custom_encode_method)) encode]>
                 (encoding_registry R);
              decoding_registry := <[class_name class_type :=
                  default (_create_default_decode class_type (name_or decoding_method_name custom_decode_method)) decode]>
                 (decoding_registry R);
              _default_decoder := _default_decoder R |}.
Proof.
  unfold extends_type, new_type_compliance.
  destruct encode as [f|], decode as [g|]; cbn [bool_decide andb];
    repeat match goal with
           | |- context [bool_decide (?a = ?b)] =>
               first [ rewrite (bool_decide_eq_true_2 (a = b)) by reflexivity
                     | rewrite (bool_decide_eq_false_2 (a = b)) by discriminate ]
           end;
    cbn [andb];
    repeat match goal with
           | |- context [has_callable ?c ?n] => destruct (has_callable c n); cbn [negb]
           end;
    reflexivity.
Qed.

(** X16. A registration is refused, with [NotImplementedError], exactly when
    a function is not given and the class has no callable attribute of
    the name looked for in its place; a function that is given is taken
    without any check of the class. *)
Theorem extends_type_refused_iff :
  (∃ msg, extends_type _create_default_encode _create_default_decode
    custom_encode_method custom_decode_method R class_type encode decode
    encoding_method_name decoding_method_name = NotImplementedError msg)
  ↔ (encode = None
      ∧ has_callable class_type (name_or encoding_method_name custom_encode_method) = false)
    ∨ (decode = None
      ∧ has_callable class_type (name_or decoding_method_name custom_decode_method) = false).
Proof.
  rewrite extends_type_eq.
  destruct encode as [f|], decode as [g|];
    repeat match goal with
           | |- context [bool_decide (?a = ?b)] =>
               first [ rewrite (bool_decide_eq_true_2 (a = b)) by reflexivity
                     | rewrite (bool_decide_eq_false_2 (a = b)) by discriminate ]
           end;
    cbn [andb];
    repeat match goal with
           | |- context [has_callable ?c ?n] => destruct (has_callable c n); cbn [negb]
           end;
    split;
    try (intros [msg Hmsg]; discriminate Hmsg);
    try (intros [[He Hc] | [He Hc]]; discriminate);
    try (intros _; eexists; reflexivity);
    try (intros _; first [left; split; reflexivity | right; split; reflexivity]).
Qed.

(** X17. After a registration, a value of the registered class goes through
    the envelope with the functions registered for it: decoding what
    [_format_value] wrote gives the decoder applied to the encoder's
    text.  Values of other types are written as before, and envelopes
    with another tag are decoded as before. *)
Theorem registered_type_round_trip (R' : registry) :
  extends_type _create_default_encode _create_default_decode
    custom_encode_method custom_decode_method R class_type encode decode
    encoding_method_name decoding_method_name = Registered R' →
  colon_free (class_name class_type) = true →
  (∀ value, type_name value = class_name class_type →
     _transform R' (_format_value R' value) = default (_create_default_decode class_type
                (name_or decoding_method_name custom_decode_method)) decode
         (default (_create_default_encode
                     (name_or encoding_method_name custom_encode_method)) encode value))
  ∧ (∀ value, type_name value ≠ class_name class_type →
     _format_value R' value = _format_value R value)
  ∧ (∀ tag text, tag ≠ class_name class_type → colon_free tag = true →
     _transform R' (tag +:+ ":" +:+ text) = _transform R (tag +:+ ":" +:+ text)).
Proof.
  rewrite extends_type_eq. intros Hreg Hfree.
  destruct (bool_decide (encode = None) && _); [discriminate|].
  destruct (bool_decide (decode = None) && _); [discriminate|].
  injection Hreg as <-. split; [|split].
  - intros value Hty. unfold _transform, _format_value.
    cbn [encoding_registry decoding_registry _default_decoder].
    rewrite Hty, split_first_append by assumption.
    rewrite !lookup_insert_eq. reflexivity.
  - intros value Hty. unfold _format_value. cbn [encoding_registry].
    rewrite lookup_insert_ne by congruence. reflexivity.
  - intros tag text Htag Htagfree. unfold _transform.
    rewrite split_first_append by assumption.
    cbn [decoding_registry _default_decoder].
    rewrite lookup_insert_ne by congruence. reflexivity.
Qed.

End Registering.

Lemma registered_type_round_trip_witness :
  let to_text := fun v => match v with VObj _ text _ => text | _ => "?" end in
  let of_text := fun text => Ok (VObj "Person" text None) in
  let R' := {| encoding_registry :=
                 <["Person" := to_text]> (encoding_registry TypeManagement.builtin);
               decoding_registry :=
                 <["Person" := of_text]> (decoding_registry TypeManagement.builtin);
               _default_decoder := _default_decoder TypeManagement.builtin |} in
  _transform R' (_format_value R' (VObj "Person" "ann:30" None)) = Ok (VObj "Person" "ann:30" None).
Proof.
  intros to_text of_text R'.
  exact (proj1 (registered_type_round_trip
                  (fun _ _ => "") (fun _ _ _ => Raise (AttributeError "decode"))
                  "encode" "decode" TypeManagement.builtin (PyClass "Person" ∅)
                  (Some to_text) (Some of_text) None None R' eq_refl eq_refl)
           (VObj "Person" "ann:30" None) eq_refl).
Defined.

(** ** Taking an arbitrary item *)

Section TakingAnItem.

Context (R : registry).
Context (scan_page : string → Store.store → list string).

Lemma pop_eq (w : world) (k : PyValue) (default : option PyValue) :
  pop R k default w
  = (World (self w) (delete (_format_key (self w) k) (server w))
           (trips w ++ [Single (Store.GETDEL (_format_key (self w) k))]),
     match server w !! _format_key (self w) k with
     | Some e => _transform R (Store.payload e)
     | None => match default with
               | Some dv => Ok dv
               | None => Raise (KeyError (VStr (_format_key (self w) k)))
               end
     end).
Proof.
  unfold pop, _pop, get_valkey_execute_command, bind, get_self.
  rewrite parse_getdel, live_eq. simpl.
  destruct (server w !! _format_key (self w) k) as [e|]; simpl.
  - unfold lift. reflexivity.
  - destruct default; reflexivity.
Qed.

Lemma key_eq (w : world) :
  key scan_page "" w
  = (World (self w) (server w)
           (trips w ++ [Single (Store.SCAN (_create_iter_query (self w) "") (Some 1))]),
     Ok match scan_page (_create_iter_query (self w) "") (server w) with
        | item :: _ => Some (PyStr.slice_from (PyStr.len (namespace (self w)) + 1) item)
        | [] => None
        end).
Proof.
  unfold key, bind, get_self, get_valkey_scan. cbn [fst snd self server trips].
  destruct (scan_page (_create_iter_query (self w) "") (server w)); reflexivity.
Qed.

Lemma popitem_step (fuel : nat) (w : world) :
  popitem R scan_page (S fuel) w
  = let w1 := World (self w) (server w)
                (trips w ++ [Single (Store.SCAN (_create_iter_query (self w) "") (Some 1))]) in
    match scan_page (_create_iter_query (self w) "") (server w) with
    | [] => (w1, Raise (KeyError (VStr "popitem(): dictionary is empty")))
    | item :: _ =>
        let k := PyStr.slice_from (PyStr.len (namespace (self w)) + 1) item in
        match pop R (VStr k) None w1 with
        | (w2, Ok value) => (w2, Ok (Some (k, value)))
        | (w2, Raise (KeyError a)) => popitem R scan_page fuel w2
        | (w2, Raise e) => (w2, Raise e)
        end
    end.
Proof.
  cbn [popitem]. unfold bind at 1. rewrite key_eq. cbv zeta.
  destruct (scan_page (_create_iter_query (self w) "") (server w)) as [|item page].
  - reflexivity.
  - unfold try_except, bind.
    match goal with |- context [pop R ?k None ?w1] => destruct (pop R k None w1) as [w2 [v|err]] end.
    + reflexivity.
    + destruct err; reflexivity.
Qed.

(** [popitem] adds nothing to the store. *)
Lemma popitem_only_removes (fuel : nat) (w : world) (k : string) :
  server w !! k = None →
  server (fst (popitem R scan_page fuel w)) !! k = None.
Proof.
  revert w. induction fuel as [|fuel IH]; intros w Hk.
  - exact Hk.
  - rewrite popitem_step. cbv zeta.
    destruct (scan_page (_create_iter_query (self w) "") (server w)) as [|item page].
    + exact Hk.
    + rewrite pop_eq. cbn [self server].
      match goal with
      | |- context [delete ?fk (server w)] =>
          assert (Hdel : delete fk (server w) !! k = None)
            by (destruct (decide (fk = k)) as [->|Hne];
                [apply lookup_delete_eq | rewrite lookup_delete_ne by exact Hne; exact Hk]);
          destruct (server w !! fk) as [e|]
      end.
      * destruct (_transform R (Store.payload e)) as [v|err].
        -- exact Hdel.
        -- destruct err; try exact Hdel. apply IH. exact Hdel.
      * apply IH. exact Hdel.
Qed.

(** X18. [popitem] looks at one page of a scan.  With an empty page it raises
    [KeyError] and changes nothing, whatever the store holds.  Otherwise
    it takes the first key of the page: the key is gone from the store
    afterwards, also when its payload does not decode, and when the
    payload decodes the pair of the key, without the namespace, and the
    decoded value is returned and no other key is touched. *)
Theorem popitem_takes_the_first_of_the_page (w : world) (fuel : nat) :
  let pattern := _create_iter_query (self w) "" in
  let after := popitem R scan_page (S fuel) w in
  glob_free (namespace (self w)) = true →
  (∀ item, item ∈ scan_page pattern (server w) → item ∈ Store.scan_keys pattern (server w)) →
  match scan_page pattern (server w) with
  | [] =>
      snd after = Raise (KeyError (VStr "popitem(): dictionary is empty"))
      ∧ server (fst after) = server w
  | item :: _ =>
      ∃ x e, item = _format_key (self w) (VStr x)
        ∧ server w !! item = Some e
        ∧ server (fst after) !! item = None
        ∧ ∀ v, _transform R (Store.payload e) = Ok v →
            snd after = Ok (Some (x, v))
            ∧ server (fst after) = delete item (server w)
  end.
Proof.
  intros pattern after Hfree Hpage. subst after.
  rewrite popitem_step. cbv zeta. fold pattern.
  destruct (scan_page pattern (server w)) as [|item page] eqn:Hscan.
  - split; reflexivity.
  - assert (Hin : item ∈ Store.scan_keys pattern (server w))
      by (apply Hpage; left).
    apply scan_keys_spec in Hin as [[e He] Hglob].
    apply (glob_namespace (self w) item Hfree) in Hglob as [x Hx].
    exists x, e.
    assert (Hfk : _format_key (self w) (VStr x) = item) by (symmetry; exact Hx).
    split; [exact Hx|]. split; [exact He|].
    assert (Hslice : PyStr.slice_from (PyStr.len (namespace (self w)) + 1) item = x)
      by (rewrite Hx; apply parse_formatted).
    rewrite Hslice, pop_eq.
    cbn [self server]. rewrite Hfk, He.
    split.
    + destruct (_transform R (Store.payload e)) as [v|err].
      * cbn [fst server]. apply lookup_delete_eq.
      * destruct err; cbn [fst server]; try apply lookup_delete_eq.
        apply popitem_only_removes. cbn [server]. apply lookup_delete_eq.
    + intros v Hv. rewrite Hv. split; reflexivity.
Qed.

End TakingAnItem.

Lemma popitem_takes_the_first_of_the_page_witness :
  let R := TypeManagement.builtin in
  let d := init "main" None false false in
  let st : Store.store := {[ "main:a" := Store.Entry "int:1" None ]} in
  let w := World d st [] in
  let first_page := fun (_ : string) (_ : Store.store) => ["main:a"] in
  let empty_page := fun (_ : string) (_ : Store.store) => @nil string in
  (snd (popitem R first_page 1 w) = Ok (Some ("a", VInt 1))
   ∧ server (fst (popitem R first_page 1 w)) !! "main:a" = None)
  ∧ (snd (popitem R empty_page 1 w)
     = Raise (KeyError (VStr "popitem(): dictionary is empty"))
     ∧ server (fst (popitem R empty_page 1 w)) = st).
Proof.
  intros R d st w first_page empty_page. split.
  - destruct (popitem_takes_the_first_of_the_page R first_page w 0 eq_refl)
      as (x & e & Hx & He & Hgone & Hv).
    + intros item Hitem. apply list_elem_of_singleton in Hitem as ->.
      apply scan_keys_spec. split; [|reflexivity].
      exists (Store.Entry "int:1" None). reflexivity.
    + vm_compute in Hx. injection Hx as <-.
      vm_compute in He. injection He as <-.
      split; [exact (proj1 (Hv (VInt 1) eq_refl)) | exact Hgone].
  - refine (popitem_takes_the_first_of_the_page R empty_page w 0 eq_refl _).
    intros item Hitem. inversion Hitem.
Defined.

(** ** Merging with a mapping *)

Lemma dict_update_over (pairs : list (string * PyValue)) (acc : gmap string PyValue)
    (x : string) :
  dict_update acc pairs !! x
  = match py_dict pairs !! x with
    | Some v => Some v
    | None => acc !! x
    end.
Proof.
  unfold py_dict. change (fold_left _ pairs ∅) with (dict_update ∅ pairs).
  revert acc. induction pairs as [|[y u] pairs IH]; intros acc.
  - reflexivity.
  - change (dict_update acc ((y, u) :: pairs)) with (dict_update (<[y := u]> acc) pairs).
    change (dict_update ∅ ((y, u) :: pairs)) with (dict_update (<[y := u]> ∅) pairs).
    rewrite (IH (<[y := u]> acc)), (IH (<[y := u]> ∅)).
    destruct (dict_update ∅ pairs !! x) as [v|]; [reflexivity|].
    destruct (decide (y = x)) as [->|Hne].
    + rewrite !lookup_insert_eq. reflexivity.
    + rewrite !lookup_insert_ne by exact Hne. rewrite lookup_empty. reflexivity.
Qed.

Section Merging.

Context (R : registry).

(** X19. [d | other] and [other | d] return a plain mapping and change
    nothing in the store.  On a key both sides have, the right operand
    wins: [other] in [d | other], the container in [other | d].  An
    operand that is no mapping gives [TypeError] before any command is
    sent, for [|=] as well. *)
Theorem merge_right_operand_wins (w : world) (pairs : list (string * PyValue))
    (own : gmap string PyValue) :
  snd (to_dict R w) = Ok own →
  (∃ m, snd (__or__ R (AMapping pairs) w) = Ok m
        ∧ ∀ x, m !! x = match py_dict pairs !! x with
                        | Some v => Some v
                        | None => own !! x
                        end)
  ∧ (∃ m, snd (__ror__ R (AMapping pairs) w) = Ok m
          ∧ ∀ x, m !! x = match own !! x with
                          | Some v => Some v
                          | None => py_dict pairs !! x
                          end)
  ∧ server (fst (__or__ R (AMapping pairs) w)) = server w
  ∧ server (fst (__ror__ R (AMapping pairs) w)) = server w
  ∧ ∀ v, __or__ R (NotAMapping v) w
           = (w, Raise (TypeError ("unsupported operand type(s) for |: '" +:+ type_name v
                                   +:+ "' and 'ValkeyDict'")))
         ∧ __ror__ R (NotAMapping v) w
           = (w, Raise (TypeError ("unsupported operand type(s) for |: 'ValkeyDict' and '"
                                   +:+ type_name v +:+ "'")))
         ∧ __ior__ R (NotAMapping v) w
           = (w, Raise (TypeError ("unsupported operand type(s) for |: '" +:+ type_name v
                                   +:+ "' and 'ValkeyDict'"))).
Proof.
  intros Hown.
  assert (Hro : read_only (to_dict R)).
  { unfold to_dict. read_only_auto. unfold items. read_only_auto.
    - apply read_only__scan_keys.
    - apply read_only_items_loop. }
  destruct (Hro w) as [Hserver _].
  unfold __or__, __ror__, __ior__, bind.
  destruct (to_dict R w) as [w1 r]. cbn [fst snd] in Hown, Hserver. subst r.
  cbn [fst snd ret].
  split; [|split; [|split; [|split]]].
  - eexists. split; [reflexivity|]. intros x.
    rewrite dict_update_over, (right_id_L ∅ (∪)). reflexivity.
  - eexists. split; [reflexivity|]. intros x.
    destruct (own !! x) as [v|] eqn:Hx.
    + apply lookup_union_Some_l. exact Hx.
    + rewrite lookup_union_r by exact Hx.
      rewrite dict_update_over, lookup_empty.
      destruct (py_dict pairs !! x); reflexivity.
  - exact Hserver.
  - exact Hserver.
  - intros v. split; [reflexivity|]. split; reflexivity.
Qed.

End Merging.

Lemma merge_right_operand_wins_witness :
  let R := TypeManagement.builtin in
  let d := init "main" None false false in
  let w := World d {[ "main:a" := Store.Entry "int:1" None ]} [] in
  let other := [("a", VInt 2); ("b", VInt 3)] in
  match snd (__or__ R (AMapping other) w) with
  | Ok m => m !! "a" = Some (VInt 2)
  | Raise _ => False
  end
  ∧ match snd (__ror__ R (AMapping other) w) with
    | Ok m => m !! "a" = Some (VInt 1) ∧ m !! "b" = Some (VInt 3)
    | Raise _ => False
    end.
Proof.
  intros R d w other.
  destruct (merge_right_operand_wins R w other {[ "a" := VInt 1 ]} eq_refl)
    as ((m1 & Hm1 & Hl1) & (m2 & Hm2 & Hl2) & _).
  rewrite Hm1, Hm2, !Hl1, !Hl2. split; [|split]; vm_compute; reflexivity.
Defined.

(** ** Keys are compared by their text *)

Section KeyText.

Context (R : registry).

(** X20. A key reaches the store as its text: two keys with the same [str()],
    such as the number [1] and the text ["1"], are one key.  What is
    stored under the one, with an [expire] the store accepts, is read by
    [d[k]] and [get] under the other, and [pop] of the other takes it
    away. *)
Theorem keys_are_compared_by_their_text (w : world) (k1 k2 value : PyValue) :
  valkey (self w) = Some Live →
  expire_accepted (self w) = true →
  valid_item (self w) (k1, value) →
  py_str k1 = py_str k2 →
  let w' := fst (__setitem__ R k1 value w) in
  snd (__getitem__ R k2 w') = _transform R (_format_value R value)
  ∧ snd (get R k2 VNone w') = _transform R (_format_value R value)
  ∧ server (fst (pop R k2 None w')) !! _format_key (self w) k1 = None.
Proof.
  intros Hlive Hexp Hvalid Htext. cbv zeta.
  destruct (__setitem__accepted R w k1 value Hlive Hvalid
              (expire_accepted_item R _ _ _ Hexp)) as [ttl Hset].
  rewrite Hset. cbn [fst].
  assert (Hfk : _format_key (self w) k2 = _format_key (self w) k1)
    by (unfold _format_key; rewrite Htext; reflexivity).
  match goal with
  | |- snd (__getitem__ R k2 ?w1) = _ ∧ _ =>
      pose proof (lookup_eq R w1 k2 VNone) as (Hget & Hitem & _)
  end.
  cbn [self server] in Hget, Hitem.
  rewrite Hfk, lookup_insert_eq in Hget, Hitem. cbn [Store.payload] in Hget, Hitem.
  split; [exact Hitem|]. split; [exact Hget|].
  rewrite pop_eq. cbn [fst self server]. rewrite Hfk. apply lookup_delete_eq.
Qed.

(** X21. [fromkeys] on the live connection, with an [expire] the store
    accepts, stores the value under each key in turn, at once and in no
    batch, and touches no other key.  When a key fails the size
    validation the call ends with [ValueError] and the keys before it
    stay stored. *)
Theorem fromkeys_stores_each_key (w : world) (pre rest : list PyValue) (value : PyValue) :
  valkey (self w) = Some Live →
  expire_accepted (self w) = true →
  Forall (fun k => valid_item (self w) (k, value)) pre →
  (rest = [] ∨ ∃ k post, rest = k :: post ∧ invalid_item (self w) (k, value)) →
  let w' := fst (fromkeys R (pre ++ rest) value w) in
  snd (fromkeys R (pre ++ rest) value w)
    = match rest with [] => Ok tt | _ => Raise size_error end
  ∧ self w' = self w
  ∧ flushes (trips w') = flushes (trips w)
  ∧ ∀ fk, Store.payload <$> server w' !! fk
          = if bool_decide (fk ∈ map (_format_key (self w)) pre)
            then Some (_format_value R value)
            else Store.payload <$> server w !! fk.
Proof.
  intros Hlive Hexp Hpre Hrest. cbv zeta.
  revert w Hlive Hexp Hpre Hrest.
  induction pre as [|k pre IH]; intros w Hlive Hexp Hpre Hrest.
  - cbn [app map].
    assert (Hnone : ∀ fk : string, bool_decide (fk ∈ @nil string) = false).
    { intros fk. apply bool_decide_eq_false_2. intros H. inversion H. }
    destruct Hrest as [-> | (k & post & -> & Hbad)].
    + cbn [fromkeys ret fst snd]. split; [reflexivity|]. split; [reflexivity|].
      split; [reflexivity|]. intros fk. rewrite Hnone. reflexivity.
    + cbn [fromkeys]. unfold bind, __setitem__.
      assert (Hstore : _store R k value w = (w, Raise size_error)).
      { destruct Hbad as [Hv | [Hv Hk]]; simpl in *.
        - apply _store_invalid_value, Hv.
        - apply _store_invalid_key; assumption. }
      rewrite Hstore. cbn [fst snd]. split; [reflexivity|]. split; [reflexivity|].
      split; [reflexivity|]. intros fk. rewrite Hnone. reflexivity.
  - apply Forall_cons in Hpre as [Hk Hpre].
    destruct (__setitem__accepted R w k value Hlive Hk
                (expire_accepted_item R _ _ _ Hexp)) as [ttl Hset].
    change ((k :: pre) ++ rest) with (k :: (pre ++ rest)).
    cbn [fromkeys]. unfold bind. rewrite Hset.
    match goal with
    | |- context [fromkeys R (pre ++ rest) value ?w1] =>
        specialize (IH w1 Hlive Hexp Hpre Hrest); set (w1' := w1) in *
    end.
    destruct IH as (Hout & Hself & Hflush & Hlook).
    split; [exact Hout|]. split; [exact Hself|]. split.
    + rewrite Hflush. subst w1'. cbn [trips]. rewrite app_assoc, flushes_single.
      rewrite flushes_app. unfold plain_store_probes.
      destruct (preserve_expiration (self w)); simpl; apply app_nil_r.
    + intros fk. rewrite Hlook. subst w1'. cbn [self server map].
      destruct (decide (fk = _format_key (self w) k)) as [->|Hne].
      * rewrite (bool_decide_eq_true_2 (_ ∈ _ :: _)) by left.
        rewrite lookup_insert_eq.
        destruct (bool_decide _); reflexivity.
      * rewrite lookup_insert_ne by congruence.
        destruct (bool_decide (fk ∈ map (_format_key (self w)) pre)) eqn:Hb.
        -- apply bool_decide_eq_true_1 in Hb.
           rewrite (bool_decide_eq_true_2 (_ ∈ _ :: _)) by (right; exact Hb). reflexivity.
        -- apply bool_decide_eq_false_1 in Hb.
           rewrite (bool_decide_eq_false_2 (_ ∈ _ :: _)); [reflexivity|].
           intros Hin. apply elem_of_cons in Hin as [Heq|Hin]; [exact (Hne Heq) | exact (Hb Hin)].
Qed.

Lemma values_loop_follows (to_rm : Z) (found : list string) (w : world) :
  values_loop R to_rm found w
  = (fst (items_loop R to_rm found w),
     match snd (items_loop R to_rm found w) with
     | Ok pairs => Ok (pairs.*2)
     | Raise e => Raise e
     end).
Proof.
  revert w. induction found as [|item rest IH]; intros w.
  - reflexivity.
  - cbn [values_loop items_loop]. unfold skip_key_error, bind, try_except, ret.
    destruct (__getitem__ R (VStr (PyStr.slice_from to_rm item)) w) as [w1 [v|e]].
    + rewrite IH. destruct (items_loop R to_rm rest w1) as [w2 [pairs|e]]; reflexivity.
    + destruct e; try reflexivity. unfold ret.
      rewrite IH. destruct (items_loop R to_rm rest w1) as [w2 [pairs|e]]; reflexivity.
Qed.

(** X22. [values()] gives the values of [items()], in the same order, with
    the same commands; where [items()] raises, [values()] raises the
    same. *)
Theorem values_follow_items (w : world) :
  snd (values R w)
  = match snd (items R w) with
    | Ok pairs => Ok (pairs.*2)
    | Raise e => Raise e
    end
  ∧ fst (values R w) = fst (items R w).
Proof.
  unfold values, items, bind, get_self. rewrite _scan_keys_eq.
  rewrite values_loop_follows. split; reflexivity.
Qed.

End KeyText.

Lemma keys_are_compared_by_their_text_witness :
  let R := TypeManagement.builtin in
  let w := new_world (init "main" None false false) in
  snd (__getitem__ R (VStr "1") (fst (__setitem__ R (VInt 1) (VStr "one") w)))
  = Ok (VStr "one").
Proof.
  intros R w.
  exact (proj1 (keys_are_compared_by_their_text R w (VInt 1) (VStr "1") (VStr "one")
                  eq_refl eq_refl (conj eq_refl eq_refl) eq_refl)).
Defined.

Lemma fromkeys_stores_each_key_witness :
  let R := TypeManagement.builtin in
  let w := new_world (with_max_string_size 3 (init "main" None false false)) in
  let after := fromkeys R ([VStr "a"; VStr "b"] ++ [VStr "long"; VStr "c"]) VNone w in
  snd after = Raise size_error
  ∧ Store.payload <$> server (fst after) !! "main:a" = Some "NoneType:None".
Proof.
  intros R w after.
  destruct (fromkeys_stores_each_key R w [VStr "a"; VStr "b"] [VStr "long"; VStr "c"] VNone
              eq_refl eq_refl) as (Hout & _ & _ & Hlook).
  - repeat constructor.
  - right. exists (VStr "long"), [VStr "c"]. split; [reflexivity|].
    right. split; reflexivity.
  - split; [exact Hout | exact (Hlook "main:a")].
Defined.

(** ** Reading by prefix *)

Lemma map_result_present {B} (f : string → outcome B) (st : Store.store)
    (found : list string) (vs : list B) :
  (∀ k, k ∈ found → is_Some (st !! k)) →
  map_result f (omap id (map (fun k => Store.payload <$> st !! k) found)) = Ok vs →
  Forall2 (fun k v => ∃ e, st !! k = Some e ∧ f (Store.payload e) = Ok v) found vs.
Proof.
  revert vs. induction found as [|k found IH]; intros vs Hall Hmap.
  - simpl in Hmap. injection Hmap as <-. constructor.
  - destruct (Hall k) as [e He]; [left|].
    cbn [map] in Hmap. rewrite He in Hmap.
    change (map_result f
              (Store.payload e
                 :: omap id (map (fun k => Store.payload <$> st !! k) found)) = Ok vs) in Hmap.
    cbn [map_result] in Hmap.
    destruct (f (Store.payload e)) as [v|] eqn:Hv; [|discriminate].
    destruct (map_result f (omap id (map (fun k => Store.payload <$> st !! k) found)))
      as [vs'|] eqn:Hrest; [|discriminate].
    injection Hmap as <-. constructor.
    + exists e. split; [exact He | exact Hv].
    + apply IH; [|reflexivity]. intros k' Hk'. apply Hall. right. exact Hk'.
Qed.

Section ReadingByPrefix.

Context (R : registry).

Lemma multi_get_live (w : world) (prefix : string) :
  valkey (self w) = Some Live →
  let found := Store.scan_keys (_create_iter_query (self w) prefix) (server w) in
  server (fst (multi_get R prefix w)) = server w
  ∧ ∀ vs, snd (multi_get R prefix w) = Ok vs →
      Forall2 (fun k v => ∃ e, server w !! k = Some e
                               ∧ _transform R (Store.payload e) = Ok v) found vs.
Proof.
  intros Hv found. unfold multi_get, bind. rewrite _scan_keys_eq. fold found.
  cbn [fst snd].
  destruct (bool_decide (length found = 0%nat)) eqn:Hb.
  - apply bool_decide_eq_true in Hb. apply nil_length_inv in Hb. rewrite Hb.
    split; [reflexivity|]. intros vs Hvs. unfold ret in Hvs. cbn [snd] in Hvs.
    injection Hvs as <-. constructor.
  - rewrite via_valkey_eq. cbn [self]. rewrite Hv, live_eq.
    cbn [Store.apply fst snd server self trips Client.parse_response]. unfold lift.
    split; [reflexivity|]. intros vs Hvs. cbn [snd] in Hvs.
    apply map_result_present.
    + intros k Hk. apply scan_keys_spec in Hk. tauto.
    + destruct (map_result (_transform R) _) as [vs'|] eqn:Hm; [|discriminate].
      injection Hvs as <-. reflexivity.
Qed.

(** X23. [multi_get] on the live connection changes nothing in the store and,
    when it returns, returns one value for each key the scan matched, in
    the order of the scan: the decoded payload the store holds under
    that key. *)
Theorem multi_get_one_value_per_match (w : world) (prefix : string) :
  valkey (self w) = Some Live →
  let found := Store.scan_keys (_create_iter_query (self w) prefix) (server w) in
  server (fst (multi_get R prefix w)) = server w
  ∧ ∀ vs, snd (multi_get R prefix w) = Ok vs →
      Forall2 (fun k v => ∃ e, server w !! k = Some e
                               ∧ _transform R (Store.payload e) = Ok v) found vs.
Proof. apply multi_get_live. Qed.

End ReadingByPrefix.

Lemma multi_get_one_value_per_match_witness :
  server (fst (multi_get TypeManagement.builtin "foo" (after_scenario "t")))
  = server (after_scenario "t").
Proof.
  exact (proj1 (multi_get_one_value_per_match TypeManagement.builtin
                  (after_scenario "t") "foo" eq_refl)).
Defined.

(** ** Stores, deletions and the listing of keys *)

Lemma keys_elem (w : world) :
  glob_free (namespace (self w)) = true →
  ∃ ks, snd (keys w) = Ok ks
        ∧ ∀ x, x ∈ ks ↔ is_Some (server w !! (namespace (self w) +:+ ":" +:+ x)).
Proof.
  intros Hfree.
  set (d := self w).
  set (found := Store.scan_keys (_create_iter_query d "") (server w)).
  exists (map (PyStr.slice_from (PyStr.len (namespace d) + 1)) found).
  split; [reflexivity|].
  intros x. rewrite list_elem_of_fmap. split.
  - intros (k & -> & Hk). unfold found in Hk.
    apply scan_keys_spec in Hk as [Hs Hglob].
    apply (glob_namespace d k Hfree) in Hglob as [y ->].
    rewrite parse_formatted. exact Hs.
  - intros Hs. exists (namespace d +:+ ":" +:+ x).
    rewrite parse_formatted. split; [reflexivity|].
    apply scan_keys_spec. split; [exact Hs|].
    apply (glob_namespace d _ Hfree). eauto.
Qed.

Lemma format_key_inj (d : ValkeyDict) (x y : string) :
  namespace d +:+ ":" +:+ x = namespace d +:+ ":" +:+ y → x = y.
Proof.
  intros Heq.
  rewrite <- (parse_formatted d x), <- (parse_formatted d y), Heq. reflexivity.
Qed.

Section Listing.

Context (R : registry).

(** X24. The listing follows the stores and the deletions made on the live
    connection, for a namespace without glob characters: after a store
    [d[k] = v] that the store accepts the keys are those listed before
    and the text of [k]; after [del d[k]] they are those listed before
    without the text of [k], also when the deletion raises [KeyError]. *)
Theorem keys_follow_stores_and_deletes (w : world) (k value : PyValue) :
  valkey (self w) = Some Live →
  glob_free (namespace (self w)) = true →
  valid_item (self w) (k, value) →
  Store.refuses (item_command R (self w) (server w) (k, value)) = false →
  ∃ before stored deleted,
    snd (keys w) = Ok before
    ∧ snd (keys (fst (__setitem__ R k value w))) = Ok stored
    ∧ snd (keys (fst (__delitem__ k w))) = Ok deleted
    ∧ (∀ x, x ∈ stored ↔ x = py_str k ∨ x ∈ before)
    ∧ (∀ x, x ∈ deleted ↔ x ≠ py_str k ∧ x ∈ before).
Proof.
  intros Hlive Hfree Hvalid Hacc.
  destruct (__setitem__accepted R w k value Hlive Hvalid Hacc) as [ttl Hset].
  assert (Hdel : __delitem__ k w
    = (World (self w) (delete (_format_key (self w) k) (server w))
             (trips w ++ [Single (Store.DEL [_format_key (self w) k])]),
       if raise_key_error_delete (self w)
          && negb (key_exists w (_format_key (self w) k))
       then Raise (KeyError k) else Ok tt)).
  { unfold __delitem__, bind, get_self. rewrite via_valkey_eq, Hlive.
    rewrite live_eq, del_one. cbn [fst snd self]. unfold key_exists.
    destruct (raise_key_error_delete (self w));
      destruct (bool_decide (is_Some (server w !! _format_key (self w) k)));
      reflexivity. }
  destruct (keys_elem w Hfree) as (before & Hb & Hbefore).
  destruct (keys_elem (fst (__setitem__ R k value w))) as (stored & Hs & Hstored);
    [rewrite Hset; exact Hfree|].
  destruct (keys_elem (fst (__delitem__ k w))) as (deleted & Hd & Hdeleted);
    [rewrite Hdel; exact Hfree|].
  rewrite Hset in Hstored. rewrite Hdel in Hdeleted.
  cbn [fst self server] in Hstored, Hdeleted.
  exists before, stored, deleted.
  split; [exact Hb|]. split; [exact Hs|]. split; [exact Hd|].
  change (_format_key (self w) k) with (namespace (self w) +:+ ":" +:+ py_str k)
    in Hstored, Hdeleted.
  split; intros x.
  - rewrite Hstored, Hbefore.
    destruct (decide (x = py_str k)) as [->|Hne].
    + rewrite lookup_insert_eq. split; [intros _; left; reflexivity | intros _; eauto].
    + rewrite lookup_insert_ne
        by (intros Heq; apply Hne; symmetry; exact (format_key_inj _ _ _ Heq)).
      split; [intros H; right; exact H | intros [Heq|H]; [contradiction | exact H]].
  - rewrite Hdeleted, Hbefore.
    destruct (decide (x = py_str k)) as [->|Hne].
    + rewrite lookup_delete_eq. split.
      * intros [? H]. discriminate H.
      * intros [H _]. contradiction.
    + rewrite lookup_delete_ne
        by (intros Heq; apply Hne; symmetry; exact (format_key_inj _ _ _ Heq)).
      split; [intros H; split; assumption | intros [_ H]; exact H].
Qed.

(** X25. What the store holds under a key after a store on the live
    connection.  When the store accepts the command, the key holds the
    formatted value; with [preserve_expiration] set, a key that was
    there keeps the TTL it had, also when it had none, and in every
    other case the key gets the configured [expire] in whole seconds, or
    no TTL when [expire] is [None].  When the store refuses the command,
    which it does for an [EX] of zero or less, the key is left as it
    was. *)
Theorem ttl_after_store (w : world) (k value : PyValue) :
  valkey (self w) = Some Live →
  valid_item (self w) (k, value) →
  let d := self w in
  let fk := _format_key d k in
  server (fst (__setitem__ R k value w)) !! fk
  = if Store.refuses (item_command R d (server w) (k, value))
    then server w !! fk
    else Some (Store.Entry (_format_value R value)
                 match server w !! fk with
                 | Some e => if preserve_expiration d then Store.ttl e
                             else Client.ex_seconds <$> expire d
                 | None => Client.ex_seconds <$> expire d
                 end).
Proof.
  intros Hlive Hvalid. cbv zeta.
  rewrite (__setitem__live R w k value Hlive Hvalid). cbv zeta. cbn [fst server].
  destruct (Store.refuses (item_command R (self w) (server w) (k, value))) eqn:Hcmd.
  - rewrite (apply_refused _ _ Hcmd). reflexivity.
  - unfold item_command in *. cbn [fst snd] in *.
    cbn [Store.apply]. rewrite Hcmd. unfold spec_plain_store_ttl.
    destruct (server w !! _format_key (self w) k) as [e|] eqn:He;
      [rewrite bool_decide_true by eauto
      | rewrite bool_decide_false by (intros [? ?]; discriminate)];
      destruct (preserve_expiration (self w));
      destruct (expire (self w)) as [t|];
      cbn [andb fst]; rewrite lookup_insert_eq; reflexivity.
Qed.

(** X26. [setdefault] does not validate sizes: for an absent key, an item
    that [d[k] = v] refuses with the size error before sending anything
    is stored by [setdefault] and returned. *)
Theorem setdefault_skips_size_validation (w : world) (k value : PyValue) :
  invalid_item (self w) (k, value) →
  server w !! _format_key (self w) k = None →
  __setitem__ R k value w = (w, Raise size_error)
  ∧ snd (setdefault R k value w) = Ok value
  ∧ Store.payload <$> server (fst (setdefault R k value w)) !! _format_key (self w) k
    = Some (_format_value R value).
Proof.
  intros Hbad Habsent. split.
  - unfold __setitem__. destruct Hbad as [Hv | [Hv Hk]]; simpl in *.
    + apply _store_invalid_value, Hv.
    + apply _store_invalid_key; assumption.
  - rewrite setdefault_eq. cbv zeta. rewrite Habsent. cbn [fst snd server].
    split; [reflexivity|]. rewrite lookup_insert_eq. reflexivity.
Qed.

End Listing.

Lemma keys_follow_stores_and_deletes_witness :
  ∃ before stored deleted,
    snd (keys (after_scenario "t")) = Ok before
    ∧ snd (keys (fst (__setitem__ TypeManagement.builtin (VStr "new") (VInt 1)
                        (after_scenario "t")))) = Ok stored
    ∧ snd (keys (fst (__delitem__ (VStr "new") (after_scenario "t")))) = Ok deleted
    ∧ ("new" ∈ stored ↔ "new" = "new" ∨ "new" ∈ before)
    ∧ ("new" ∈ deleted ↔ "new" ≠ "new" ∧ "new" ∈ before).
Proof.
  destruct (keys_follow_stores_and_deletes TypeManagement.builtin (after_scenario "t")
              (VStr "new") (VInt 1) eq_refl eq_refl (conj eq_refl eq_refl) eq_refl)
    as (before & stored & deleted & Hb & Hs & Hd & Hstored & Hdeleted).
  exists before, stored, deleted.
  split; [exact Hb|]. split; [exact Hs|]. split; [exact Hd|].
  split; [exact (Hstored "new") | exact (Hdeleted "new")].
Defined.

Lemma ttl_after_store_witness :
  let R := TypeManagement.builtin in
  let d := init "main" (Some (ExpInt 60)) true false in
  let d0 := init "main" (Some (ExpInt 0)) false false in
  let st : Store.store := {[ "main:a" := Store.Entry "int:1" (Some 7) ]} in
  server (fst (__setitem__ R (VStr "a") (VInt 2) (World d st []))) !! "main:a"
  = Some (Store.Entry "int:2" (Some 7))
  ∧ server (fst (__setitem__ R (VStr "a") (VInt 2) (World d0 st []))) !! "main:a"
    = Some (Store.Entry "int:1" (Some 7)).
Proof.
  intros R d d0 st. split.
  - exact (ttl_after_store R (World d st []) (VStr "a") (VInt 2) eq_refl
             (conj eq_refl eq_refl)).
  - exact (ttl_after_store R (World d0 st []) (VStr "a") (VInt 2) eq_refl
             (conj eq_refl eq_refl)).
Defined.

Lemma setdefault_skips_size_validation_witness :
  let R := TypeManagement.builtin in
  let w := new_world (with_max_string_size 3 (init "main" None false false)) in
  __setitem__ R (VStr "a") (VStr "toolong") w = (w, Raise size_error)
  ∧ snd (setdefault R (VStr "a") (VStr "toolong") w) = Ok (VStr "toolong").
Proof.
  intros R w.
  destruct (setdefault_skips_size_validation R w (VStr "a") (VStr "toolong")
              (or_introl eq_refl) eq_refl) as (Hset & Hdefault & _).
  split; [exact Hset | exact Hdefault].
Defined.

(** ** Chains of keys *)

Lemma append_assoc_str (a b c : string) : (a +:+ b) +:+ c = a +:+ (b +:+ c).
Proof.
  induction a as [|x a IH].
  - reflexivity.
  - rewrite !append_cons, IH. reflexivity.
Qed.

Lemma append_empty_r (a : string) : a +:+ "" = a.
Proof.
  induction a as [|x a IH].
  - reflexivity.
  - rewrite append_cons, IH. reflexivity.
Qed.

Lemma glob_free_append (a b : string) :
  glob_free a = true → glob_free b = true → glob_free (a +:+ b) = true.
Proof.
  intros Ha Hb. induction a as [|x a IH].
  - exact Hb.
  - rewrite append_cons. cbn [glob_free] in Ha |- *.
    apply andb_true_iff in Ha as [Hx Ha]. rewrite Hx, (IH Ha). reflexivity.
Qed.

Lemma str_join_leading (sep : string) (pre post : list string) :
  ∃ rest, str_join sep (pre ++ post) = str_join sep pre +:+ rest.
Proof.
  induction pre as [|x pre IH].
  - exists (str_join sep post). reflexivity.
  - destruct IH as [rest IH]. cbn [app str_join].
    destruct pre as [|y pre].
    + cbn [app]. destruct post as [|z post].
      * exists "". rewrite append_empty_r. reflexivity.
      * exists (sep +:+ str_join sep (z :: post)). reflexivity.
    + change ((y :: pre) ++ post) with (y :: (pre ++ post)) in IH |- *.
      exists rest. rewrite IH. rewrite !append_assoc_str. reflexivity.
Qed.

Lemma glob_free_str_join (pre : list string) :
  Forall (fun part => glob_free part = true) pre →
  glob_free (str_join ":" pre) = true.
Proof.
  induction 1 as [|x pre Hx Hpre IH].
  - reflexivity.
  - cbn [str_join]. destruct pre as [|y pre]; [exact Hx|].
    apply glob_free_append; [exact Hx|].
    apply glob_free_append; [reflexivity | exact IH].
Qed.

Section ChainsOfKeys.

Context (R : registry).

(** X27. A chain of keys is the one key made of its parts joined by colons.
    On the live connection, what [chain_set] stored under a chain, with
    an [expire] the store accepts, is
    read back by [chain_get] of that chain, is among the values
    [multi_chain_get] returns for every leading part of the chain (for a
    namespace and leading parts without glob characters), and is gone
    after [chain_del]. *)
Theorem chain_set_is_found_under_leading_chains
    (w : world) (pre post : list string) (v : PyValue) :
  valkey (self w) = Some Live →
  expire_accepted (self w) = true →
  valid_item (self w) (VStr (str_join ":" (pre ++ post)), v) →
  glob_free (namespace (self w)) = true →
  Forall (fun part => glob_free part = true) pre →
  let w' := fst (chain_set R (pre ++ post) v w) in
  snd (chain_get R (pre ++ post) w') = _transform R (_format_value R v)
  ∧ (∀ vs, snd (multi_chain_get R pre w') = Ok vs →
       ∃ u, _transform R (_format_value R v) = Ok u ∧ u ∈ vs)
  ∧ snd (chain_get R (pre ++ post) (fst (chain_del (pre ++ post) w')))
    = Raise (KeyError (VStr (str_join ":" (pre ++ post)))).
Proof.
  intros Hlive Hexp Hvalid Hns Hpre. cbv zeta.
  unfold chain_set, chain_get, chain_del, multi_chain_get.
  set (k := VStr (str_join ":" (pre ++ post))).
  destruct (__setitem__accepted R w k v Hlive Hvalid
              (expire_accepted_item R _ _ _ Hexp)) as [ttl Hset].
  rewrite Hset. cbn [fst].
  set (fk := _format_key (self w) k) in *.
  set (w1 := World (self w) (<[fk := Store.Entry (_format_value R v) ttl]> (server w)) _).
  split; [|split].
  - destruct (lookup_eq R w1 k VNone) as (_ & Hitem & _).
    cbn [w1 self server] in Hitem. fold fk in Hitem.
    rewrite lookup_insert_eq in Hitem. exact Hitem.
  - intros vs Hvs.
    destruct (multi_get_live R w1 (str_join ":" pre) Hlive) as [_ Hall].
    specialize (Hall vs Hvs).
    assert (Hin : fk ∈ Store.scan_keys (_create_iter_query (self w1) (str_join ":" pre))
                          (server w1)).
    { apply scan_keys_spec. split.
      - cbn [w1 server]. rewrite lookup_insert_eq. eauto.
      - destruct (str_join_leading ":" pre post) as [rest Hrest].
        unfold fk, k, _format_key, _create_iter_query. cbn [w1 self py_str].
        rewrite Hrest.
        rewrite <- !append_assoc_str.
        rewrite glob_literal_prefix.
        + apply glob_star_all.
        + apply glob_free_append; [|apply glob_free_str_join, Hpre].
          apply glob_free_append; [exact Hns | reflexivity]. }
    apply list_elem_of_lookup_1 in Hin as [i Hi].
    destruct (Forall2_lookup_l _ _ _ _ _ Hall Hi) as (u & Hu & e & He & Hdec).
    cbn [w1 server] in He. rewrite lookup_insert_eq in He. injection He as <-.
    exists u. split; [exact Hdec|]. eapply list_elem_of_lookup_2, Hu.
  - assert (Hdel : server (fst (__delitem__ k w1)) = delete fk (server w1)
                   ∧ self (fst (__delitem__ k w1)) = self w).
    { unfold __delitem__, bind, get_self. rewrite via_valkey_eq. cbn [w1 self].
      rewrite Hlive, live_eq, del_one.
      cbn [fst snd self server Client.parse_response]. fold fk.
      destruct (raise_key_error_delete (self w) && _); split; reflexivity. }
    destruct Hdel as [Hserver Hself].
    destruct (lookup_eq R (fst (__delitem__ k w1)) k VNone) as (_ & Hitem & _).
    rewrite Hserver, Hself in Hitem. fold fk in Hitem.
    rewrite lookup_delete_eq in Hitem. exact Hitem.
Qed.

End ChainsOfKeys.

Lemma chain_set_is_found_under_leading_chains_witness :
  let R := TypeManagement.builtin in
  let w := new_world (init "main" None false false) in
  let w' := fst (chain_set R (["a"; "b"] ++ ["c"]) (VInt 1) w) in
  snd (chain_get R (["a"; "b"] ++ ["c"]) w') = Ok (VInt 1)
  ∧ snd (chain_get R (["a"; "b"] ++ ["c"]) (fst (chain_del (["a"; "b"] ++ ["c"]) w')))
    = Raise (KeyError (VStr "a:b:c")).
Proof.
  intros R w w'.
  destruct (chain_set_is_found_under_leading_chains R w ["a"; "b"] ["c"] (VInt 1)
              eq_refl eq_refl (conj eq_refl eq_refl) eq_refl)
    as (Hget & _ & Hdel).
  - repeat constructor.
  - split; [exact Hget | exact Hdel].
Defined.
